(** * CORESKY-BOT: the check-in orchestration engine

    A shallow embedding of the bot's JavaScript sources:

    - [src/utils/tokenLoader.js]  ([maskToken]),
    - [src/utils/auth.js]         ([isTokenExpiredOrInvalid]),
    - [src/services/apiClient.js] ([performSign]),
    - [src/botLogic.js]           ([updateBotStatus], [scheduleNextRun],
                                   [runCheckInCycle], [stopBot]).

    The module state of [botLogic.js] is threaded explicitly through a small
    state-and-exception monad that also collects what each call emits on the
    shared emitter and where it suspends ([await]).  The JavaScript run time
    (the event loop, the clock, the remote service, [jwt.decode]) is the
    environment of the model. *)

From Stdlib Require Import ZArith List String Bool Arith Lia DecimalString.
Import ListNotations.

Local Open Scope string_scope.
Local Open Scope Z_scope.

Set Warnings "-register-all".

(* ================================================================== *)
(** ** JavaScript values *)
(* ================================================================== *)

(** The values that reach the bot: what [JSON.parse] builds (the payload of a
    decoded token, the body of a reply) plus [undefined].  Numbers are the
    integer-valued ones (NumericDate seconds, reward points, status codes) in
    the range where a double is exact and prints in plain decimal, so that
    [*], [>=] and [>] are those of [Z].  An object is a plain one, as
    [JSON.parse] builds it: its own enumerable properties (first binding of
    a key first) and the conversions of [Object.prototype]. *)
Inductive jsval : Type :=
| VUndefined
| VNull
| VBool (b : bool)
| VNum (n : Z)
| VStr (s : string)
| VArr (items : list jsval)
| VObj (props : list (string * jsval)).

Module JS.

(** ToBoolean. *)
Definition truthy (v : jsval) : bool :=
  match v with
  | VUndefined | VNull => false
  | VBool b => b
  | VNum n => negb (n =? 0)
  | VStr s => negb (String.eqb s "")
  | VArr _ | VObj _ => true
  end.

(** [a || b]. *)
Definition or (a b : jsval) : jsval := if truthy a then a else b.

Fixpoint lookup (k : string) (props : list (string * jsval)) : jsval :=
  match props with
  | [] => VUndefined
  | (k', v) :: rest => if String.eqb k k' then v else lookup k rest
  end.

(** [v.k] for the property names the bot reads (none of them is an index
    or [length]).  Reading a property of [undefined] or [null] throws in
    JavaScript; every use below stands behind the truthiness test the
    source has in front of it, so that case is never reached. *)
Definition get (v : jsval) (k : string) : jsval :=
  match v with
  | VObj props => lookup k props
  | _ => VUndefined
  end.

(** [typeof v === 'number'] and [typeof v !== 'undefined']. *)
Definition is_number (v : jsval) : bool :=
  match v with VNum _ => true | _ => false end.

Definition is_defined (v : jsval) : bool :=
  match v with VUndefined => false | _ => true end.

(** [v === 200]: strict equality with a number literal. *)
Definition strict_eq_num (v : jsval) (n : Z) : bool :=
  match v with VNum m => m =? n | _ => false end.

Definition show_nat (n : nat) : string := NilZero.string_of_uint (Nat.to_uint n).
Definition show_Z (z : Z) : string := NilZero.string_of_int (Z.to_int z).

Fixpoint join (sep : string) (parts : list string) : string :=
  match parts with
  | [] => ""
  | [p] => p
  | p :: rest => p ++ sep ++ join sep rest
  end.

(** ToString, as a template literal applies it.  [Array.prototype.join]
    prints [undefined] and [null] items as the empty string. *)
Fixpoint to_string (v : jsval) : string :=
  match v with
  | VUndefined => "undefined"
  | VNull => "null"
  | VBool true => "true"
  | VBool false => "false"
  | VNum n => show_Z n
  | VStr s => s
  | VArr items =>
      join "," (map (fun x => match x with
                              | VUndefined | VNull => ""
                              | _ => to_string x
                              end) items)
  | VObj _ => "[object Object]"
  end.

End JS.

(* ================================================================== *)
(** ** src/utils/tokenLoader.js *)
(* ================================================================== *)

(** A token is a string of code units; [String.length] is [token.length] and
    [substring n m] is the [m] units from position [n]. *)
Definition maskToken (token : string) : string :=
  if String.eqb token "" || (String.length token <? 8)%nat then
    "***"
  else
    substring 0 3 token ++ "..." ++ substring (String.length token - 4) 4 token.

(* ================================================================== *)
(** ** src/events.js: what travels on the shared emitter *)
(* ================================================================== *)

Inductive status : Type :=
  INITIALIZING | RUNNING | WAITING | PAUSED | IDLE | ERROR.

Definition status_name (s : status) : string :=
  match s with
  | INITIALIZING => "INITIALIZING"
  | RUNNING => "RUNNING"
  | WAITING => "WAITING"
  | PAUSED => "PAUSED"
  | IDLE => "IDLE"
  | ERROR => "ERROR"
  end.

(** The three kinds of event the bot logic emits, with the fields of their
    payloads.  A log level is the string the source passes. *)
Inductive event : Type :=
| log (level message : string)
| statusUpdate (tokensLoaded : nat) (nextRunTimestamp : option Z) (botStatus : status)
| checkinResult (index : nat) (success : bool) (message : string)
                (reward : jsval) (isDuplicate : bool).

(** The points where an async function hands control back to the event
    loop: the POST of [performSign] and the [delay] of the cycle.  The
    account index labels the point so that the environment can answer it. *)
Inductive suspension : Type :=
| AxiosPost (accountIndex : nat) (token : string)
| Sleep (accountIndex : nat) (ms : Z).

Inductive effect : Type :=
| Emit (e : event)
| Await (s : suspension)
| ConsoleError (label : string) (v : jsval).

(* ================================================================== *)
(** ** The run time *)
(* ================================================================== *)

Definition timer := nat.

(** An error object, by its properties ([message], [response], [request]). *)
Definition exn := list (string * jsval).

Inductive completion (A : Type) : Type :=
| Normal (a : A)
| Throw (e : exn).
Arguments Normal {A} a.
Arguments Throw {A} e.

(** The promise [axios.post] returns settles either way: with a response
    object or with an error object. *)
Inductive axios_result : Type :=
| Resolved (response : list (string * jsval))
| Rejected (error : exn).

(** The module state of [botLogic.js] and, below it, the event loop's share:
    the clock [Date.now()] reads, the timers armed and not yet fired or
    cleared, and the next fresh timer handle. *)
Record world : Type := mkWorld {
  checkIntervalId : option timer;
  nextRunTimestamp : option Z;
  botStatus : status;
  loadedTokens : list string;
  clock : Z;
  timers : list timer;
  next_timer : timer
}.

(** What happens around one cycle: how each POST settles, how long each
    suspension lasts, and whether some caller runs [stopBot] while the
    cycle is suspended there. *)
Record environment : Type := mkEnv {
  reply : nat -> string -> axios_result;
  elapsed : suspension -> Z;
  stop_requested : suspension -> bool
}.

(** State, exceptions and the effects performed, oldest first. *)
Definition M (A : Type) : Type := world -> completion A * world * list effect.

Definition ret {A} (a : A) : M A := fun w => (Normal a, w, []).

Definition bind {A B} (m : M A) (k : A -> M B) : M B :=
  fun w =>
    match m w with
    | (Normal a, w1, t1) => let '(r, w2, t2) := k a w1 in (r, w2, (t1 ++ t2)%list)
    | (Throw e, w1, t1) => (Throw e, w1, t1)
    end.

Definition throw {A} (e : exn) : M A := fun w => (Throw e, w, []).

(** [try { body } catch (error) { handler }]. *)
Definition try_catch {A} (body : M A) (handler : exn -> M A) : M A :=
  fun w =>
    match body w with
    | (Throw e, w1, t1) => let '(r, w2, t2) := handler e w1 in (r, w2, (t1 ++ t2)%list)
    | done => done
    end.

Notation "x <- c1 ;; c2" := (bind c1 (fun x => c2))
  (at level 61, c1 at next level, right associativity).
Notation "c1 ;; c2" := (bind c1 (fun _ => c2))
  (at level 61, right associativity).

Definition outcome {A} (r : completion A * world * list effect) : completion A :=
  fst (fst r).
Definition final {A} (r : completion A * world * list effect) : world :=
  snd (fst r).
Definition effects {A} (r : completion A * world * list effect) : list effect :=
  snd r.

Definition gets {A} (f : world -> A) : M A := fun w => (Normal (f w), w, []).
Definition modify (f : world -> world) : M unit := fun w => (Normal tt, f w, []).
Definition perform (x : effect) : M unit := fun w => (Normal tt, w, [x]).

(** [emitter.emit(name, payload)].  Listeners are the dashboard's; they are
    taken not to throw. *)
Definition emit (e : event) : M unit := perform (Emit e).

Definition Date_now : M Z := gets clock.

Definition set_checkIntervalId (v : option timer) (w : world) : world :=
  mkWorld v (nextRunTimestamp w) (botStatus w) (loadedTokens w)
          (clock w) (timers w) (next_timer w).
Definition set_nextRunTimestamp (v : option Z) (w : world) : world :=
  mkWorld (checkIntervalId w) v (botStatus w) (loadedTokens w)
          (clock w) (timers w) (next_timer w).
Definition set_botStatus (v : status) (w : world) : world :=
  mkWorld (checkIntervalId w) (nextRunTimestamp w) v (loadedTokens w)
          (clock w) (timers w) (next_timer w).
Definition set_clock (v : Z) (w : world) : world :=
  mkWorld (checkIntervalId w) (nextRunTimestamp w) (botStatus w) (loadedTokens w)
          v (timers w) (next_timer w).
Definition set_timers (v : list timer) (n : timer) (w : world) : world :=
  mkWorld (checkIntervalId w) (nextRunTimestamp w) (botStatus w) (loadedTokens w)
          (clock w) v n.

(** [clearTimeout(id)]: disarms the timer; nothing to do for [null] or for
    a handle that is no longer armed. *)
Definition clearTimeout (id : option timer) : M unit :=
  match id with
  | None => ret tt
  | Some t =>
      modify (fun w => set_timers (filter (fun x => negb (Nat.eqb x t)) (timers w))
                                  (next_timer w) w)
  end.

(** [setTimeout(callback, ms)]: arms a one-shot timer and returns its fresh
    handle.  The callback of the only timer of the bot is [runCheckInCycle]. *)
Definition setTimeout (ms : Z) : M timer :=
  fun w => (Normal (next_timer w),
            set_timers (next_timer w :: timers w) (S (next_timer w)) w,
            []).

Section Bot.

(** The library and run-time functions the bot calls and does not define:
    [jwt.decode] of jsonwebtoken (which returns the payload, returns [null]
    or throws), the number a string converts to when it is compared with a
    number ([None] for NaN), [JSON.stringify] as a template literal prints
    it, and [Date.prototype.toLocaleString]. *)
Variable jwt_decode : string -> completion jsval.
Variable StringToNumber : string -> option Z.
Variable JSON_stringify : jsval -> string.
Variable toLocaleString : Z -> string.

(** ToNumber ([None] is NaN); arrays and objects go through their string. *)
Definition to_number (v : jsval) : option Z :=
  match v with
  | VUndefined => None
  | VNull => Some 0
  | VBool b => Some (if b then 1 else 0)
  | VNum n => Some n
  | VStr s => StringToNumber s
  | VArr _ | VObj _ => StringToNumber (JS.to_string v)
  end.

(** [v > n] for a number [n]; false when [v] converts to NaN. *)
Definition gt_num (v : jsval) (n : Z) : bool :=
  match to_number v with
  | Some m => n <? m
  | None => false
  end.

(* ---------------------------------------------------------------- *)
(** *** src/botLogic.js: constants, status, stop *)

Definition CHECK_INTERVAL_MS : Z := 24 * 60 * 60 * 1000.
Definition DELAY_BETWEEN_ACCOUNTS_MS : Z := 3000.

Definition updateBotStatus (newStatus : status) : M unit :=
  modify (set_botStatus newStatus) ;;
  n <- gets (fun w => List.length (loadedTokens w)) ;;
  next <- gets nextRunTimestamp ;;
  st <- gets botStatus ;;
  emit (statusUpdate n next st) ;;
  emit (log "info" ("Bot status changed to: " ++ status_name newStatus)).

Definition stopBot : M unit :=
  id <- gets checkIntervalId ;;
  (match id with
   | Some _ =>
       clearTimeout id ;;
       modify (set_checkIntervalId None) ;;
       emit (log "info" "⏹️ Bot scheduling stopped.")
   | None => ret tt
   end) ;;
  modify (set_nextRunTimestamp None) ;;
  updateBotStatus IDLE.

(** [await] of a pending promise: the function is suspended, time passes,
    and whatever the environment runs meanwhile runs on the same module
    state; then the function resumes. *)
Definition await (env : environment) (s : suspension) : M unit :=
  perform (Await s) ;;
  modify (fun w => set_clock (clock w + elapsed env s) w) ;;
  if stop_requested env s then stopBot else ret tt.

(** [const delay = (ms) => new Promise(resolve => setTimeout(resolve, ms))],
    awaited for the account at [accountIndex]. *)
Definition delay (env : environment) (accountIndex : nat) (ms : Z) : M unit :=
  await env (Sleep accountIndex ms).

(** [await axios.post(CORESKY_SIGN_IN_URL, {}, { headers, timeout })]. *)
Definition axios_post (env : environment) (accountIndex : nat) (token : string)
  : M jsval :=
  await env (AxiosPost accountIndex token) ;;
  match reply env accountIndex token with
  | Resolved response => ret (VObj response)
  | Rejected error => throw error
  end.

(* ---------------------------------------------------------------- *)
(** *** src/utils/auth.js *)

Definition account_prefix (accountIndex : nat) : string :=
  "[Account " ++ JS.show_nat (accountIndex + 1) ++ "]".

Definition isTokenExpiredOrInvalid (token : string) (accountIndex : nat) : M bool :=
  if String.eqb token "" then
    emit (log "warn" (account_prefix accountIndex ++ " Provided token is empty.")) ;;
    ret true
  else
    try_catch
      (decoded <- (fun w => (jwt_decode token, w, [])) ;;
       match JS.truthy decoded, JS.get decoded "exp" with
       | true, VNum exp =>
           let expirationTime := exp * 1000 in
           currentTime <- Date_now ;;
           let isExpired := currentTime >=? expirationTime in
           (if isExpired then
              emit (log "warn" (account_prefix accountIndex ++ " Token is expired."))
            else ret tt) ;;
           ret isExpired
       | _, _ =>
           emit (log "warn" (account_prefix accountIndex
                             ++ " Token decoded but lacks valid 'exp' claim.")) ;;
           ret true
       end)
      (fun error =>
         emit (log "error" (account_prefix accountIndex ++ " Failed to decode token: "
                            ++ JS.to_string (JS.lookup "message" error))) ;;
         ret true).

(* ---------------------------------------------------------------- *)
(** *** src/services/apiClient.js *)

Record sign_result : Type := mkResult {
  success : bool;
  message : string;
  reward : jsval;
  isDuplicate : bool
}.

Definition performSign (env : environment) (token : string) (accountIndex : nat)
  : M sign_result :=
  let logPrefix := account_prefix accountIndex in
  try_catch
    (emit (log "info" (logPrefix ++ " 📡 Attempting sign-in...")) ;;
     response <- axios_post env accountIndex token ;;
     if JS.truthy response && JS.truthy (JS.get response "data")
        && JS.is_defined (JS.get (JS.get response "data") "code")
     then
       let responseData := JS.get response "data" in
       let responseCode := JS.get responseData "code" in
       let responseMessage :=
         JS.or (JS.get responseData "message") (VStr "No message provided.") in
       if JS.strict_eq_num responseCode 200 then
         let debugInfo := JS.or (JS.get responseData "debug") (VObj []) in
         let taskInfo := JS.or (JS.get debugInfo "task") (VObj []) in
         let rewardPoints := JS.or (JS.get taskInfo "rewardPoint") (VNum 0) in
         if gt_num rewardPoints 0 then
           let successMsg :=
             logPrefix ++ " ✅ Sign-in successful! Reward: "
             ++ JS.to_string rewardPoints ++ " points" in
           emit (log "success" successMsg) ;;
           ret (mkResult true ("+" ++ JS.to_string rewardPoints ++ " points")
                         rewardPoints false)
         else
           let alreadyDoneMsg := logPrefix ++ " ⚠️ Already checked in today." in
           emit (log "warn" alreadyDoneMsg) ;;
           ret (mkResult true "Already checked in" (VNum 0) true)
       else
         let failureMsg :=
           logPrefix ++ " ❌ Sign-in failed! API Code: " ++ JS.to_string responseCode
           ++ ", Message: " ++ JS.to_string responseMessage in
         emit (log "error" failureMsg) ;;
         ret (mkResult false
                ("API Error (" ++ JS.to_string responseCode ++ "): "
                 ++ JS.to_string responseMessage)
                (VNum 0) false)
     else
       let unexpectedMsg :=
         logPrefix ++ " ❌ Received unexpected response structure from API." in
       emit (log "error" unexpectedMsg) ;;
       perform (ConsoleError "Unexpected API Response:" (JS.get response "data")) ;;
       ret (mkResult false "Unexpected API response format" (VNum 0) false))
    (fun e =>
       let error := VObj e in
       let errorMsg :=
         logPrefix ++ " 🚨 Network or request error during sign-in: "
         ++ JS.to_string (JS.get error "message") in
       let errorMsg :=
         if JS.truthy (JS.get error "response") then
           errorMsg ++ " | Status: "
           ++ JS.to_string (JS.get (JS.get error "response") "status")
           ++ ", Data: " ++ JSON_stringify (JS.get (JS.get error "response") "data")
         else if JS.truthy (JS.get error "request") then
           errorMsg ++ " | No response received from server. Check network or API status."
         else
           errorMsg ++ " | Error setting up request." in
       emit (log "error" errorMsg) ;;
       ret (mkResult false ("Request Error: " ++ JS.to_string (JS.get error "message"))
                     (VNum 0) false)).

(* ---------------------------------------------------------------- *)
(** *** src/botLogic.js: scheduling and the cycle *)

Definition scheduleNextRun : M unit :=
  id <- gets checkIntervalId ;;
  clearTimeout id ;;
  now <- Date_now ;;
  modify (set_nextRunTimestamp (Some (now + CHECK_INTERVAL_MS))) ;;
  updateBotStatus WAITING ;;
  emit (log "wait" ("⏳ Scheduling next check-in cycle for: "
                    ++ toLocaleString (now + CHECK_INTERVAL_MS))) ;;
  t <- setTimeout CHECK_INTERVAL_MS ;;
  modify (set_checkIntervalId (Some t)).

(** One turn of the loop of [runCheckInCycle], for [token = loadedTokens[i]]:
    the skip branch ends in [continue], the other one in the guarded delay. *)
Definition account_step (env : environment) (token : string) (i : nat) : M unit :=
  let accountIndex := i in
  let masked := maskToken token in
  emit (log "info" ("--- Processing Account " ++ JS.show_nat (accountIndex + 1)
                    ++ " (" ++ masked ++ ") ---")) ;;
  expired <- isTokenExpiredOrInvalid token accountIndex ;;
  if expired then
    emit (log "error" (account_prefix accountIndex
                       ++ " Token is expired or invalid. Skipping.")) ;;
    emit (checkinResult accountIndex false "Token Expired/Invalid" (VNum 0) false) ;;
    delay env i DELAY_BETWEEN_ACCOUNTS_MS
  else
    result <- performSign env token accountIndex ;;
    emit (checkinResult accountIndex (success result) (message result)
                        (reward result) (isDuplicate result)) ;;
    len <- gets (fun w => List.length (loadedTokens w)) ;;
    if Z.of_nat i <? Z.of_nat len - 1 then
      emit (log "info" ("Waiting " ++ JS.show_Z (DELAY_BETWEEN_ACCOUNTS_MS / 1000)
                        ++ "s before next account...")) ;;
      delay env i DELAY_BETWEEN_ACCOUNTS_MS
    else ret tt.

(** [for (let i = 0; i < loadedTokens.length; i++)], from index [i] on,
    with [tokens] the elements of [loadedTokens] from [i] on (the array is
    assigned by [startBot] only, never while a cycle runs). *)
Fixpoint for_accounts (env : environment) (tokens : list string) (i : nat) : M unit :=
  match tokens with
  | [] => ret tt
  | token :: rest => account_step env token i ;; for_accounts env rest (S i)
  end.

Definition runCheckInCycle (env : environment) : M unit :=
  updateBotStatus RUNNING ;;
  emit (log "info" "🚀 Starting check-in cycle...") ;;
  tokens <- gets loadedTokens ;;
  if (List.length tokens =? 0)%nat then
    emit (log "warn" "No tokens loaded, skipping check-in cycle.") ;;
    scheduleNextRun
  else
    emit (log "info" ("Processing " ++ JS.show_nat (List.length tokens) ++ " account(s)...")) ;;
    for_accounts env tokens 0 ;;
    emit (log "info" "✅ Check-in cycle finished.") ;;
    scheduleNextRun.

End Bot.

Local Open Scope list_scope.

(* ================================================================== *)
(** * src/utils/tokenLoader.js: loading the wallet file *)
(* ================================================================== *)

From Stdlib Require Import Ascii.
From Stdlib Require DecimalFacts DecimalZ Sorted.

(** What start-up does besides the effects of the bot logic: the line
    [loadApiKeys] prints on standard output. *)
Inductive boot_effect : Type :=
| Stdout (line : string)
| Bot (x : effect).

(** The monad of the bot logic, over the larger effects. *)
Definition B (A : Type) : Type := world -> completion A * world * list boot_effect.

Definition Bret {A} (a : A) : B A := fun w => (Normal a, w, []).

Definition Bbind {A C} (m : B A) (k : A -> B C) : B C :=
  fun w =>
    match m w with
    | (Normal a, w1, t1) => let '(r, w2, t2) := k a w1 in (r, w2, t1 ++ t2)
    | (Throw e, w1, t1) => (Throw e, w1, t1)
    end.

Definition Btry_catch {A} (body : B A) (handler : exn -> B A) : B A :=
  fun w =>
    match body w with
    | (Throw e, w1, t1) => let '(r, w2, t2) := handler e w1 in (r, w2, t1 ++ t2)
    | done => done
    end.

(** A computation of the bot logic, run at start-up. *)
Definition lift {A} (m : M A) : B A :=
  fun w => let '(r, w1, t) := m w in (r, w1, map Bot t).

Definition Boutcome {A} (r : completion A * world * list boot_effect) : completion A :=
  fst (fst r).
Definition Bfinal {A} (r : completion A * world * list boot_effect) : world :=
  snd (fst r).
Definition Beffects {A} (r : completion A * world * list boot_effect) : list boot_effect :=
  snd r.

Declare Scope boot_scope.
Delimit Scope boot_scope with boot.
Notation "x <- c1 ;; c2" := (Bbind c1 (fun x => c2))
  (at level 61, c1 at next level, right associativity) : boot_scope.
Notation "c1 ;; c2" := (Bbind c1 (fun _ => c2))
  (at level 61, right associativity) : boot_scope.

Module Loader.

Local Open Scope string_scope.
Local Open Scope boot_scope.

Definition LF : ascii := ascii_of_nat 10.
Definition CR : ascii := ascii_of_nat 13.

(** The units [String.prototype.trim] strips, among the units below 256:
    TAB, LF, VT, FF, CR, SPACE and NO-BREAK SPACE. *)
Definition is_whitespace (c : ascii) : bool :=
  let n := nat_of_ascii c in
  ((9 <=? n) && (n <=? 13) || (n =? 32) || (n =? 160))%nat.

Fixpoint trimStart (s : string) : string :=
  match s with
  | EmptyString => EmptyString
  | String c rest => if is_whitespace c then trimStart rest else s
  end.

Fixpoint trimEnd (s : string) : string :=
  match s with
  | EmptyString => EmptyString
  | String c rest =>
      match trimEnd rest with
      | EmptyString => if is_whitespace c then EmptyString else String c EmptyString
      | kept => String c kept
      end
  end.

(** [key.trim()]. *)
Definition trim (s : string) : string := trimEnd (trimStart s).

(** Puts [c] in front of the first piece. *)
Definition extend (c : ascii) (pieces : list string) : list string :=
  match pieces with
  | [] => [String c EmptyString]
  | piece :: others => String c piece :: others
  end.

(** [rawTokenData.split(/\r?\n/)]: the pieces between the line ends, a line
    end being LF or, when CR stands right before it, CR LF. *)
Fixpoint split_lines (s : string) : list string :=
  match s with
  | EmptyString => [EmptyString]
  | String c rest =>
      if Ascii.eqb c LF then EmptyString :: split_lines rest
      else
        match rest with
        | String c' rest' =>
            if Ascii.eqb c CR && Ascii.eqb c' LF
            then EmptyString :: split_lines rest'
            else extend c (split_lines rest)
        | EmptyString => extend c (split_lines rest)
        end
  end.

(** [(key) => key && !key.startsWith("#")]. *)
Definition is_key (key : string) : bool :=
  negb (String.eqb key "") && negb (prefix "#" key).

(** The two calls on the file system, as they answer for the wallet file:
    [fs.existsSync] and [fs.readFileSync(..., "utf8")], which returns the
    text or throws. *)
Record wallet_file : Type := mkWallet {
  existsSync : bool;
  readFileSync : completion string
}.

Definition say (line : string) : B unit := fun w => (Normal tt, w, [Stdout line]).
Definition Bemit (e : event) : B unit := lift (emit e).

Definition loadApiKeys (TOKEN_FILE_PATH : string) (fs : wallet_file) : B (list string) :=
  say ("[DEBUG] tokenLoader.js is looking for file at: " ++ TOKEN_FILE_PATH) ;;
  Btry_catch
    (if negb (existsSync fs) then
       Bemit (log "error" ("Wallet file not found at " ++ TOKEN_FILE_PATH
                           ++ ". Please create it and add your tokens.")) ;;
       Bret []
     else
       rawTokenData <- (fun w => (readFileSync fs, w, [])) ;;
       let apiKeys := filter is_key (map trim (split_lines rawTokenData)) in
       (if (List.length apiKeys =? 0)%nat then
          Bemit (log "warn" ("No valid API keys found in " ++ TOKEN_FILE_PATH
                             ++ ". Ensure keys are added, one per line."))
        else
          Bemit (log "info" ("🔑 Loaded " ++ JS.show_nat (List.length apiKeys)
                             ++ " API key(s) from wallet.txt."))) ;;
       Bret apiKeys)
    (fun error =>
       Bemit (log "error" ("Failed to load API keys from " ++ TOKEN_FILE_PATH ++ ": "
                           ++ JS.to_string (JS.lookup "message" error))) ;;
       Bret []).

End Loader.

(* ================================================================== *)
(** * src/botLogic.js: start-up and the timer *)
(* ================================================================== *)

Definition set_loadedTokens (v : list string) (w : world) : world :=
  mkWorld (checkIntervalId w) (nextRunTimestamp w) (botStatus w) v
          (clock w) (timers w) (next_timer w).

Section Startup.

Variable jwt_decode : string -> completion jsval.
Variable StringToNumber : string -> option Z.
Variable JSON_stringify : jsval -> string.
Variable toLocaleString : Z -> string.

(** [path.resolve(process.cwd(), "wallet.txt")]. *)
Variable TOKEN_FILE_PATH : string.

Local Open Scope boot_scope.

Definition startBot (env : environment) (fs : Loader.wallet_file) : B unit :=
  Loader.Bemit (log "info" "Initializing Core-Sky Bot Logic...") ;;
  lift (updateBotStatus INITIALIZING) ;;
  keys <- Loader.loadApiKeys TOKEN_FILE_PATH fs ;;
  lift (modify (set_loadedTokens keys)) ;;
  n <- lift (gets (fun w => List.length (loadedTokens w))) ;;
  st <- lift (gets botStatus) ;;
  Loader.Bemit (statusUpdate n None st) ;;
  if (0 <? n)%nat then
    Loader.Bemit (log "info" "Ready to start first check-in cycle.") ;;
    lift (runCheckInCycle jwt_decode StringToNumber JSON_stringify toLocaleString env)
  else
    Loader.Bemit (log "error" "No valid tokens loaded. Bot will wait and retry loading on the next cycle.") ;;
    lift (scheduleNextRun toLocaleString).

Local Close Scope boot_scope.

(** The callback [setTimeout] was given, when the timer [t] comes due: a
    timer that was cleared never fires; one that fires is armed no more,
    and its callback runs [runCheckInCycle]. *)
Definition timer_fires (env : environment) (t : timer) : M unit :=
  armed <- gets (fun w => existsb (Nat.eqb t) (timers w)) ;;
  if armed then
    modify (fun w => set_timers (filter (fun x => negb (Nat.eqb x t)) (timers w))
                                (next_timer w) w) ;;
    runCheckInCycle jwt_decode StringToNumber JSON_stringify toLocaleString env
  else ret tt.

End Startup.

(* ================================================================== *)
(** * src/tui/ui.js: the dashboard *)
(* ================================================================== *)

Module UI.

Local Open Scope string_scope.
Local Open Scope Z_scope.

Definition interval := nat.

(** The colouring functions of chalk the dashboard calls. *)
Record chalk_lib : Type := mkChalk {
  bold : string -> string;
  blue : string -> string;
  green : string -> string;
  yellow : string -> string;
  red : string -> string;
  cyan : string -> string;
  white : string -> string;
  gray : string -> string
}.

(** The moment a handler runs: what [Date.now()] returns and the local
    time [new Date()] shows. *)
Record moment : Type := mkMoment {
  now : Z;
  getHours : nat;
  getMinutes : nat;
  getSeconds : nat
}.

Fixpoint repeat_unit (c : ascii) (n : nat) : string :=
  match n with
  | O => EmptyString
  | S k => String c (repeat_unit c k)
  end.

(** [s.padStart(targetLength, c)] for a padding string of one unit. *)
Definition padStart (targetLength : nat) (c : ascii) (s : string) : string :=
  repeat_unit c (targetLength - String.length s) ++ s.

Definition getTimestamp (m : moment) : string :=
  let hours := padStart 2 "0" (JS.show_nat (getHours m)) in
  let minutes := padStart 2 "0" (JS.show_nat (getMinutes m)) in
  let seconds := padStart 2 "0" (JS.show_nat (getSeconds m)) in
  "[" ++ hours ++ ":" ++ minutes ++ ":" ++ seconds ++ "]".

(** [formatRemainingTime(totalSeconds)], for the whole numbers of seconds
    its caller passes. *)
Definition formatRemainingTime (totalSeconds : Z) : string :=
  if totalSeconds <=? 0 then "Now"
  else
    let hours := totalSeconds / 3600 in
    let minutes := (totalSeconds mod 3600) / 60 in
    let seconds := totalSeconds mod 60 in
    let parts := @nil string in
    let parts := if 0 <? hours then (parts ++ [(JS.show_Z hours ++ "h")%string])%list else parts in
    let parts := if 0 <? minutes then (parts ++ [(JS.show_Z minutes ++ "m")%string])%list else parts in
    let parts := if (0 <? seconds) || (List.length parts =? 0)%nat
                 then (parts ++ [(JS.show_Z seconds ++ "s")%string])%list else parts in
    JS.join " " parts.

(** The payload of a [tokenStatus] event and of a [statusUpdate] event. *)
Record tokenData : Type := mkToken {
  index : nat;
  maskedToken : string;
  status_ : string
}.

Record statusData : Type := mkStatus {
  tokensLoaded : nat;
  nextRunTimestamp : option Z;
  botStatus : status
}.

(** What the three blessed widgets hold. *)
Record widgets : Type := mkWidgets {
  mainLog : list string;
  successLog : list string;
  statusInfo : string
}.

(** The module state of [ui.js] ([components] is [{}] until [initializeUI]
    has created the widgets), the calls of [screen.render()] so far, and the
    event loop's share: the intervals armed and the next fresh handle. *)
Record dashboard : Type := mkDashboard {
  components : option widgets;
  statusUpdateInterval : option interval;
  currentStatus : statusData;
  loadedTokenDetails : list tokenData;
  renders : nat;
  intervals : list interval;
  next_interval : interval
}.

Definition set_components (v : option widgets) (d : dashboard) : dashboard :=
  mkDashboard v (statusUpdateInterval d) (currentStatus d) (loadedTokenDetails d)
              (renders d) (intervals d) (next_interval d).
Definition set_currentStatus (v : statusData) (d : dashboard) : dashboard :=
  mkDashboard (components d) (statusUpdateInterval d) v (loadedTokenDetails d)
              (renders d) (intervals d) (next_interval d).
Definition set_loadedTokenDetails (v : list tokenData) (d : dashboard) : dashboard :=
  mkDashboard (components d) (statusUpdateInterval d) (currentStatus d) v
              (renders d) (intervals d) (next_interval d).

(** [let currentStatus = {...}] and the other initial values of the module. *)
Definition initial (fresh : interval) : dashboard :=
  mkDashboard None None (mkStatus 0 None INITIALIZING) [] 0 [] fresh.

Section Handlers.

Variable chalk : chalk_lib.

Definition status_eqb (a b : status) : bool :=
  match a, b with
  | INITIALIZING, INITIALIZING | RUNNING, RUNNING | WAITING, WAITING
  | PAUSED, PAUSED | IDLE, IDLE | ERROR, ERROR => true
  | _, _ => false
  end.

Definition token_line (t : tokenData) : string :=
  let color := white chalk in
  let color := if String.eqb (status_ t) "Expired" then red chalk else color in
  let color := if String.eqb (status_ t) "Valid" then green chalk else color in
  "  Key " ++ JS.show_nat (index t + 1) ++ ": " ++ maskedToken t
  ++ " (" ++ color (status_ t) ++ ")" ++ String Loader.LF "".

Definition updateStatusInfoBox (m : moment) (d : dashboard) : dashboard :=
  match components d with
  | None => d
  | Some c =>
      let content := "" in
      let content := content ++ bold chalk "Bot Status:" ++ " "
                     ++ cyan chalk (status_name (botStatus (currentStatus d)))
                     ++ String Loader.LF "" in
      let content := content ++ bold chalk "Tokens Loaded:" ++ " "
                     ++ JS.show_nat (tokensLoaded (currentStatus d))
                     ++ String Loader.LF "" in
      let content :=
        if (0 <? List.length (loadedTokenDetails d))%nat then
          fold_left (fun acc t => acc ++ token_line t) (loadedTokenDetails d)
                    (content ++ bold chalk "Token Status:" ++ String Loader.LF "")
        else content in
      let waiting := status_eqb (botStatus (currentStatus d)) WAITING in
      let content :=
        match nextRunTimestamp (currentStatus d) with
        | Some next =>
            if negb (next =? 0) && waiting then
              let remainingMs := next - now m in
              let remainingSeconds := Z.max 0 (remainingMs / 1000) in
              let formattedTime := formatRemainingTime remainingSeconds in
              content ++ bold chalk "Next Check-in:" ++ " " ++ yellow chalk formattedTime
            else if negb waiting then
              content ++ bold chalk "Next Check-in:" ++ " " ++ gray chalk "N/A"
            else content
        | None =>
            if negb waiting then
              content ++ bold chalk "Next Check-in:" ++ " " ++ gray chalk "N/A"
            else content
        end in
      mkDashboard (Some (mkWidgets (mainLog c) (successLog c) content))
                  (statusUpdateInterval d) (currentStatus d) (loadedTokenDetails d)
                  (S (renders d)) (intervals d) (next_interval d)
  end.

(** [message.includes(needle)]. *)
Definition includes (needle message : string) : bool :=
  match String.index 0 needle message with
  | Some _ => true
  | None => false
  end.

Definition handleLogEvent (m : moment) (level message : string) (d : dashboard)
  : dashboard :=
  match components d with
  | None => d
  | Some c =>
      let timestamp := getTimestamp m in
      let logLine := timestamp ++ " " in
      let '(logLine, success_lines) :=
        if String.eqb level "info" then
          (logLine ++ blue chalk ("ℹ️  " ++ message), successLog c)
        else if String.eqb level "success" then
          let logLine := logLine ++ green chalk ("✅ " ++ message) in
          (logLine,
           if includes "Sign-in successful" message
           then (successLog c ++ [logLine])%list else successLog c)
        else if String.eqb level "warn" then
          (logLine ++ yellow chalk ("⚠️ " ++ message),
           if includes "Already checked in" message
           then (successLog c
                 ++ [(timestamp ++ " " ++ yellow chalk ("⚠️ " ++ message))%string])%list
           else successLog c)
        else if String.eqb level "error" then
          (logLine ++ red chalk ("🚨 " ++ message), successLog c)
        else if String.eqb level "wait" then
          (logLine ++ cyan chalk ("⌛ " ++ message), successLog c)
        else (logLine ++ message, successLog c) in
      set_components
        (Some (mkWidgets (mainLog c ++ [logLine])%list success_lines (statusInfo c))) d
  end.

Definition handleStatusUpdate (m : moment) (statusData : statusData) (d : dashboard)
  : dashboard :=
  let d := set_currentStatus statusData d in
  let d := updateStatusInfoBox m d in
  let waiting := status_eqb (botStatus (currentStatus d)) WAITING in
  match statusUpdateInterval d with
  | Some id =>
      if negb waiting then
        mkDashboard (components d) None (currentStatus d) (loadedTokenDetails d)
                    (renders d)
                    (filter (fun x => negb (Nat.eqb x id)) (intervals d))
                    (next_interval d)
      else d
  | None =>
      if waiting then
        mkDashboard (components d) (Some (next_interval d)) (currentStatus d)
                    (loadedTokenDetails d) (renders d)
                    (next_interval d :: intervals d) (S (next_interval d))
      else d
  end.

(** [loadedTokenDetails.findIndex(t => t.index === i)]. *)
Fixpoint findIndex (i : nat) (details : list tokenData) : option nat :=
  match details with
  | [] => None
  | t :: rest =>
      if Nat.eqb (index t) i then Some O
      else match findIndex i rest with
           | Some k => Some (S k)
           | None => None
           end
  end.

Fixpoint assign (k : nat) (v : tokenData) (details : list tokenData) : list tokenData :=
  match details, k with
  | [], _ => []
  | _ :: rest, O => v :: rest
  | t :: rest, S k' => t :: assign k' v rest
  end.

(** [loadedTokenDetails.sort((a, b) => a.index - b.index)]: the sort is
    stable, so its result is the one of a stable insertion sort. *)
Fixpoint insert_sorted (t : tokenData) (sorted : list tokenData) : list tokenData :=
  match sorted with
  | [] => [t]
  | u :: rest =>
      if (index t <=? index u)%nat then t :: sorted else u :: insert_sorted t rest
  end.

Fixpoint sort_by_index (details : list tokenData) : list tokenData :=
  match details with
  | [] => []
  | t :: rest => insert_sorted t (sort_by_index rest)
  end.

Definition handleTokenStatus (m : moment) (tokenData : tokenData) (d : dashboard)
  : dashboard :=
  let details :=
    match findIndex (index tokenData) (loadedTokenDetails d) with
    | Some existingIndex => assign existingIndex tokenData (loadedTokenDetails d)
    | None => (loadedTokenDetails d ++ [tokenData])%list
    end in
  updateStatusInfoBox m (set_loadedTokenDetails (sort_by_index details) d).

(** The status [handleCheckinResult] writes into the detail it found. *)
Definition result_status (success : bool) (message : string) (isDuplicate : bool)
           (old : string) : string :=
  if success && negb isDuplicate then "Checked ✅"
  else if isDuplicate then "Done Today ⚠️"
  else if negb success && String.eqb message "Token Expired/Invalid" then "Expired 🚨"
  else if negb success then "Failed ❌"
  else old.

Definition handleCheckinResult (m : moment) (i : nat) (success : bool) (message : string)
           (reward : jsval) (isDuplicate : bool) (d : dashboard) : dashboard :=
  match findIndex i (loadedTokenDetails d) with
  | Some k =>
      match nth_error (loadedTokenDetails d) k with
      | Some tokenDetail =>
          let updated :=
            mkToken (index tokenDetail) (maskedToken tokenDetail)
                    (result_status success message isDuplicate (status_ tokenDetail)) in
          updateStatusInfoBox m
            (set_loadedTokenDetails (assign k updated (loadedTokenDetails d)) d)
      | None => d
      end
  | None => d
  end.

(** [emitter.on(...)]: the handler each event of the bot reaches. *)
Definition deliver (m : moment) (e : event) (d : dashboard) : dashboard :=
  match e with
  | log level message => handleLogEvent m level message d
  | statusUpdate n next st => handleStatusUpdate m (mkStatus n next st) d
  | checkinResult i success message reward isDuplicate =>
      handleCheckinResult m i success message reward isDuplicate d
  end.

(** [initializeUI()]: the widgets [createComponents] makes, the first
    [screen.render()], the log line the emitter hands to [handleLogEvent]
    at once (at the moment [m1]), and the first content of the status box
    (at [m2]). *)
Definition initializeUI (m1 m2 : moment) (d : dashboard) : dashboard :=
  let d := set_components (Some (mkWidgets [] [] " Loading status...")) d in
  let d := mkDashboard (components d) (statusUpdateInterval d) (currentStatus d)
                       (loadedTokenDetails d) (S (renders d)) (intervals d)
                       (next_interval d) in
  let d := handleLogEvent m1 "info" " TUI Initialized and listening for events..." d in
  updateStatusInfoBox m2 d.

End Handlers.

End UI.


(* ================================================================== *)
(** * Properties *)
(* ================================================================== *)

Local Open Scope list_scope.

(** ** Strings *)

Lemma length_append (a b : string) :
  String.length (a ++ b)%string = (String.length a + String.length b)%nat.
Proof.
  induction a as [|c a IH]; simpl; [reflexivity|].
  now rewrite IH.
Qed.

Lemma length_substring (s : string) :
  forall n m, (n + m <= String.length s)%nat -> String.length (substring n m s) = m.
Proof.
  induction s as [|c s IH]; intros n m H; simpl in *.
  - destruct n, m; simpl; lia.
  - destruct n as [|n].
    + destruct m as [|m]; simpl; [reflexivity|].
      f_equal. apply IH. lia.
    + apply IH. lia.
Qed.

Lemma substring_split (s : string) :
  forall n a b,
    substring n (a + b) s = (substring n a s ++ substring (n + a) b s)%string.
Proof.
  induction s as [|c s IH]; intros n a b.
  - destruct n, a, b; reflexivity.
  - destruct n as [|n]; simpl.
    + destruct a as [|a]; simpl.
      * reflexivity.
      * f_equal. apply (IH 0%nat).
    + apply IH.
Qed.

Lemma substring_all (s : string) : substring 0 (String.length s) s = s.
Proof.
  induction s as [|c s IH]; simpl; [reflexivity|].
  now rewrite IH.
Qed.

(** The three pieces a token of at least 7 units falls into. *)
Lemma token_pieces (token : string) :
  (7 <= String.length token)%nat ->
  token = (substring 0 3 token
           ++ substring 3 (String.length token - 7) token
           ++ substring (String.length token - 4) 4 token)%string.
Proof.
  intros H.
  rewrite <- (substring_all token) at 1.
  replace (String.length token) with (3 + ((String.length token - 7) + 4))%nat at 1 by lia.
  rewrite substring_split, substring_split. simpl.
  do 3 f_equal. lia.
Qed.

(** ** C10: the mask *)

(** C10. [maskToken] returns ["***"] for a token that is empty or shorter
    than 8 units; otherwise it returns the first 3 units of the token, then
    ["..."], then its last 4 units: 10 units in all, of which 7 are the
    token's ([token = first ++ middle ++ last] with [first] of length 3 and
    [last] of length 4). *)
Theorem maskToken_correct (token : string) :
  if (String.length token <? 8)%nat then
    maskToken token = "***"%string
  else
    exists first middle last : string,
      token = (first ++ middle ++ last)%string
      /\ String.length first = 3%nat
      /\ String.length last = 4%nat
      /\ maskToken token = (first ++ "..." ++ last)%string
      /\ String.length (maskToken token) = 10%nat.
Proof.
  unfold maskToken.
  destruct (String.length token <? 8)%nat eqn:Hlen.
  - now rewrite orb_true_r.
  - apply Nat.ltb_ge in Hlen.
    assert (Hne : String.eqb token "" = false).
    { apply String.eqb_neq. intros ->. simpl in Hlen. lia. }
    rewrite Hne. simpl orb. cbv iota.
    exists (substring 0 3 token),
           (substring 3 (String.length token - 7) token),
           (substring (String.length token - 4) 4 token).
    assert (H3 : String.length (substring 0 3 token) = 3%nat)
      by (apply length_substring; lia).
    assert (H4 : String.length (substring (String.length token - 4) 4 token) = 4%nat)
      by (apply length_substring; lia).
    repeat split; try assumption.
    + apply token_pieces. lia.
    + rewrite !length_append, H3, H4. reflexivity.
Qed.

(** ** Running the monad *)

Lemma bind_run {A B} (m : M A) (k : A -> M B) (w w1 : world) (a : A) (t1 : list effect) :
  m w = (Normal a, w1, t1) ->
  bind m k w = (outcome (k a w1), final (k a w1), t1 ++ effects (k a w1)).
Proof.
  intros H. unfold bind. rewrite H.
  destruct (k a w1) as [[r w2] t2]. reflexivity.
Qed.

(** What an observer of the cycle keeps of its effects: the results, the
    suspensions and the status update that announces the wait for the next
    cycle.  Log lines, console output and the other status updates are
    noise. *)
Definition noise (x : effect) : bool :=
  match x with
  | Emit (log _ _) => true
  | Emit (statusUpdate _ _ WAITING) => false
  | Emit (statusUpdate _ _ _) => true
  | Emit (checkinResult _ _ _ _ _) => false
  | Await _ => false
  | ConsoleError _ _ => true
  end.

Definition visible (t : list effect) : list effect :=
  filter (fun x => negb (noise x)) t.

Lemma visible_app (t1 t2 : list effect) : visible (t1 ++ t2) = visible t1 ++ visible t2.
Proof. apply filter_app. Qed.

Section Properties.

Variable jwt_decode : string -> completion jsval.
Variable StringToNumber : string -> option Z.
Variable JSON_stringify : jsval -> string.
Variable toLocaleString : Z -> string.

(** ** Stop *)

(** The state [stopBot] leaves and what it emits on the way. *)
Definition stopped (w : world) : world :=
  mkWorld None None IDLE (loadedTokens w) (clock w)
          (match checkIntervalId w with
           | Some t => filter (fun x => negb (Nat.eqb x t)) (timers w)
           | None => timers w
           end)
          (next_timer w).

Definition stop_effects (w : world) : list effect :=
  (match checkIntervalId w with
   | Some _ => [Emit (log "info" "⏹️ Bot scheduling stopped.")]
   | None => []
   end)
  ++ [Emit (statusUpdate (List.length (loadedTokens w)) None IDLE);
      Emit (log "info" "Bot status changed to: IDLE")].

Lemma stopBot_run (w : world) : stopBot w = (Normal tt, stopped w, stop_effects w).
Proof.
  destruct w as [id next st tokens c ts n].
  destruct id as [t|]; reflexivity.
Qed.

Lemma stop_effects_noise (w : world) : visible (stop_effects w) = [].
Proof.
  unfold stop_effects. destruct (checkIntervalId w); reflexivity.
Qed.

(** C8. Whatever the state, [stopBot] returns normally and leaves the bot
    [IDLE] with [nextRunTimestamp] null and no handle in [checkIntervalId];
    a second call right after returns normally too, changes nothing in the
    state, and only repeats the status update and its log line. *)
Theorem stopBot_twice (w : world) :
  let w1 := final (stopBot w) in
  let w2 := final (stopBot w1) in
  outcome (stopBot w) = Normal tt
  /\ botStatus w1 = IDLE /\ nextRunTimestamp w1 = None /\ checkIntervalId w1 = None
  /\ outcome (stopBot w1) = Normal tt
  /\ botStatus w2 = IDLE /\ nextRunTimestamp w2 = None
  /\ w2 = w1
  /\ effects (stopBot w1)
     = [Emit (statusUpdate (List.length (loadedTokens w)) None IDLE);
        Emit (log "info" "Bot status changed to: IDLE")].
Proof.
  cbv zeta. rewrite !stopBot_run. cbn [final outcome effects fst snd].
  repeat split.
Qed.

(** The handle [stopBot] found in [checkIntervalId] is no longer armed. *)
Lemma stopBot_disarms (w : world) (t : timer) :
  checkIntervalId w = Some t -> ~ In t (timers (final (stopBot w))).
Proof.
  intros H. rewrite stopBot_run. cbn [final fst snd]. unfold stopped. rewrite H. simpl.
  rewrite filter_In. intros [_ Hneq]. now rewrite Nat.eqb_refl in Hneq.
Qed.

(** ** The credential gate *)

(** The inputs the gate cannot read an expiry from: the empty string, a
    string [jwt.decode] throws on, and one it decodes to something without a
    numeric [exp] ([null], a string payload, an object lacking the claim). *)
Definition unreadable (token : string) : Prop :=
  token = ""%string
  \/ (exists e, jwt_decode token = Throw e)
  \/ (exists decoded, jwt_decode token = Normal decoded
                      /\ JS.is_number (JS.get decoded "exp") = false).

Lemma get_number_truthy (v : jsval) (k : string) (n : Z) :
  JS.get v k = VNum n -> JS.truthy v = true.
Proof. destruct v; simpl; intros H; try discriminate; reflexivity. Qed.

(** The gate returns normally in every case, leaves the state alone and
    emits log lines only. *)
Lemma gate_run (token : string) (i : nat) (w : world) :
  exists b t, isTokenExpiredOrInvalid jwt_decode token i w = (Normal b, w, t) /\ visible t = [].
Proof.
  unfold isTokenExpiredOrInvalid.
  destruct (String.eqb token "").
  - eexists _, _. split; reflexivity.
  - unfold try_catch, bind at 1.
    destruct (jwt_decode token) as [decoded|e].
    + destruct (JS.truthy decoded); [destruct (JS.get decoded "exp")|];
        try (eexists _, _; split; reflexivity).
      unfold bind, Date_now, gets; cbn.
      destruct (clock w >=? n * 1000); eexists _, _; split; reflexivity.
    + eexists _, _. split; reflexivity.
Qed.

(** C2. For a token that decodes to a payload with a numeric [exp], the gate
    answers [true] (expired) exactly when the clock has reached [exp * 1000]
    milliseconds; at [clock = exp * 1000] the answer is [true]. *)
Theorem gate_expiry_inclusive (token : string) (i : nat) (w : world)
        (decoded : jsval) (exp : Z) :
  token <> ""%string ->
  jwt_decode token = Normal decoded ->
  JS.get decoded "exp" = VNum exp ->
  outcome (isTokenExpiredOrInvalid jwt_decode token i w) = Normal (exp * 1000 <=? clock w)
  /\ (clock w = exp * 1000 -> outcome (isTokenExpiredOrInvalid jwt_decode token i w) = Normal true).
Proof.
  intros Hne Hdec Hexp.
  assert (Hrun : outcome (isTokenExpiredOrInvalid jwt_decode token i w) = Normal (exp * 1000 <=? clock w)).
  { unfold isTokenExpiredOrInvalid.
    apply String.eqb_neq in Hne. rewrite Hne.
    unfold try_catch, bind at 1. rewrite Hdec.
    rewrite (get_number_truthy _ _ _ Hexp), Hexp.
    unfold bind, Date_now, gets; cbn.
    rewrite Z.geb_leb.
    destruct (exp * 1000 <=? clock w); reflexivity. }
  split; [exact Hrun|].
  intros Hnow. rewrite Hrun, Hnow, Z.leb_refl. reflexivity.
Qed.

(** C9. On every input string the gate returns a boolean and never throws:
    the exception [jwt.decode] may raise is caught inside.  On an input it
    cannot read an expiry from, the boolean is [true] (unusable). *)
Theorem gate_never_throws (token : string) (i : nat) (w : world) :
  exists b t,
    isTokenExpiredOrInvalid jwt_decode token i w = (Normal b, w, t)
    /\ (unreadable token -> b = true).
Proof.
  destruct (gate_run token i w) as (b & t & Hrun & _).
  exists b, t. split; [exact Hrun|].
  intros Hbad.
  assert (Hout : outcome (isTokenExpiredOrInvalid jwt_decode token i w) = Normal b) by now rewrite Hrun.
  clear Hrun. revert Hout.
  unfold isTokenExpiredOrInvalid.
  destruct (String.eqb token "") eqn:Hempty.
  - cbn. congruence.
  - apply String.eqb_neq in Hempty.
    unfold try_catch, bind at 1.
    destruct Hbad as [Hbad | [[e He] | (decoded & Hdec & Hnum)]].
    + contradiction.
    + rewrite He. cbn. congruence.
    + rewrite Hdec.
      destruct (JS.truthy decoded); [destruct (JS.get decoded "exp")|];
        try discriminate Hnum; cbn; congruence.
Qed.

(** ** Suspension *)

(** The state in which a function resumes from a suspension, and what the
    environment emitted meanwhile: nothing, or what [stopBot] emits. *)
Definition resumed (env : environment) (s : suspension) (w : world) : world :=
  let w1 := set_clock (clock w + elapsed env s) w in
  if stop_requested env s then stopped w1 else w1.

Definition meanwhile (env : environment) (s : suspension) (w : world) : list effect :=
  if stop_requested env s
  then stop_effects (set_clock (clock w + elapsed env s) w)
  else [].

Lemma await_run (env : environment) (s : suspension) (w : world) :
  await env s w = (Normal tt, resumed env s w, Await s :: meanwhile env s w).
Proof.
  unfold await, resumed, meanwhile, bind, perform, modify.
  destruct (stop_requested env s); [rewrite stopBot_run|]; reflexivity.
Qed.

Lemma resumed_tokens (env : environment) (s : suspension) (w : world) :
  loadedTokens (resumed env s w) = loadedTokens w.
Proof. unfold resumed. destruct (stop_requested env s); reflexivity. Qed.

Lemma meanwhile_noise (env : environment) (s : suspension) (w : world) :
  visible (meanwhile env s w) = [].
Proof.
  unfold meanwhile. destruct (stop_requested env s); [apply stop_effects_noise|reflexivity].
Qed.

Lemma visible_await (env : environment) (s : suspension) (w : world) (t : list effect) :
  visible ((Await s :: meanwhile env s w) ++ t) = Await s :: visible t.
Proof.
  rewrite visible_app. cbn [visible filter noise negb].
  fold (visible (meanwhile env s w)). now rewrite meanwhile_noise.
Qed.

Lemma axios_post_run (env : environment) (i : nat) (token : string) (w : world) :
  axios_post env i token w
  = (match reply env i token with
     | Resolved response => Normal (VObj response)
     | Rejected error => Throw error
     end,
     resumed env (AxiosPost i token) w,
     Await (AxiosPost i token) :: meanwhile env (AxiosPost i token) w).
Proof.
  unfold axios_post.
  rewrite (bind_run _ _ _ _ _ _ (await_run env (AxiosPost i token) w)).
  destruct (reply env i token); cbn; now rewrite app_nil_r.
Qed.

(** ** The sign-in *)

Lemma visible_nil : visible [] = [].
Proof. reflexivity. Qed.

Lemma visible_log (l m : string) (t : list effect) :
  visible (Emit (log l m) :: t) = visible t.
Proof. reflexivity. Qed.

Lemma visible_console (l : string) (v : jsval) (t : list effect) :
  visible (ConsoleError l v :: t) = visible t.
Proof. reflexivity. Qed.

Lemma visible_suspension (s : suspension) (t : list effect) :
  visible (Await s :: t) = Await s :: visible t.
Proof. reflexivity. Qed.

Lemma visible_result (i : nat) (ok : bool) (m : string) (r : jsval) (d : bool)
      (t : list effect) :
  visible (Emit (checkinResult i ok m r d) :: t)
  = Emit (checkinResult i ok m r d) :: visible t.
Proof. reflexivity. Qed.

Create Rewrite HintDb vis.

#[local] Hint Rewrite visible_app visible_nil visible_log visible_console visible_suspension
     visible_result meanwhile_noise stop_effects_noise app_nil_r : vis.

(** The invariant of an Outcome: a duplicate carries no reward, and neither
    does a failure. *)
Definition reward_invariant (r : sign_result) : Prop :=
  (isDuplicate r = true -> reward r = VNum 0)
  /\ (success r = false -> reward r = VNum 0).

(** [performSign] returns normally however the POST settles; the state it
    resumes in is the one the suspension left; of its effects only the
    suspension is visible. *)
Lemma performSign_run (env : environment) (token : string) (i : nat) (w : world) :
  exists r t,
    performSign StringToNumber JSON_stringify env token i w
    = (Normal r, resumed env (AxiosPost i token) w, t)
    /\ visible t = [Await (AxiosPost i token)]
    /\ reward_invariant r.
Proof.
  unfold performSign, try_catch, bind, emit, perform, ret.
  cbv beta iota zeta.
  rewrite axios_post_run.
  destruct (reply env i token) as [response|error]; cbv beta iota zeta.
  - repeat match goal with
           | |- context [if ?c then _ else _] => destruct c
           end;
      cbv beta iota zeta;
      (eexists _, _; split; [reflexivity|]; split;
       [ autorewrite with vis; reflexivity
       | split; cbn; intros; (reflexivity || discriminate) ]).
  - eexists _, _. split; [reflexivity|]. split.
    + autorewrite with vis. reflexivity.
    + split; cbn; intros; (reflexivity || discriminate).
Qed.

(** C3. Whatever the reply or the transport failure, [performSign] returns
    an Outcome, and in it [isDuplicate = true] implies [reward = 0] and
    [success = false] implies [reward = 0]. *)
Theorem performSign_reward_invariant
        (env : environment) (token : string) (i : nat) (w : world) :
  exists r,
    outcome (performSign StringToNumber JSON_stringify env token i w) = Normal r
    /\ (isDuplicate r = true -> reward r = VNum 0)
    /\ (success r = false -> reward r = VNum 0).
Proof.
  destruct (performSign_run env token i w) as (r & t & Hrun & _ & Hinv).
  exists r. rewrite Hrun. split; [reflexivity | exact Hinv].
Qed.

(** C4 (as amended). For a reply whose body carries code 200 and a numeric
    [debug.task.rewardPoint]: a reward above 0 gives
    [{success: true, isDuplicate: false, reward, message: "+<reward> points"}]
    and a log line of level [success]; a reward of 0 gives
    [{success: true, isDuplicate: true, reward: 0, message: "Already checked in"}]
    and a log line of level [warn]. *)
Theorem performSign_code_200
        (env : environment) (token : string) (i : nat) (w : world)
        (response : list (string * jsval)) (data : jsval) (n : Z) :
  reply env i token = Resolved response ->
  JS.lookup "data" response = data ->
  JS.get data "code" = VNum 200 ->
  JS.get (JS.get (JS.get data "debug") "task") "rewardPoint" = VNum n ->
  let run := performSign StringToNumber JSON_stringify env token i w in
  (0 < n ->
   outcome run
   = Normal (mkResult true ("+" ++ JS.show_Z n ++ " points")%string (VNum n) false)
   /\ In (Emit (log "success"
                    (account_prefix i ++ " ✅ Sign-in successful! Reward: "
                     ++ JS.show_Z n ++ " points")%string))
         (effects run))
  /\ (n = 0 ->
      outcome run = Normal (mkResult true "Already checked in" (VNum 0) true)
      /\ In (Emit (log "warn" (account_prefix i ++ " ⚠️ Already checked in today.")%string))
            (effects run)).
Proof.
  intros Hreply Hdata Hcode Hreward run. subst run.
  assert (Htask : JS.truthy (JS.get (JS.get data "debug") "task") = true)
    by (eapply get_number_truthy; eassumption).
  assert (Hdebug : JS.truthy (JS.get data "debug") = true).
  { destruct (JS.get data "debug"); try discriminate Htask; reflexivity. }
  assert (Htruthy : JS.truthy data = true)
    by (eapply get_number_truthy; eassumption).
  unfold performSign, try_catch, bind, emit, perform, ret.
  cbv beta iota zeta.
  rewrite axios_post_run, Hreply. cbv beta iota zeta.
  change (JS.get (VObj response) "data") with (JS.lookup "data" response).
  rewrite Hdata, Hcode, Htruthy.
  cbn [JS.truthy JS.is_defined JS.strict_eq_num andb].
  rewrite Z.eqb_refl.
  unfold JS.or. rewrite Hdebug, Htask, Hreward.
  cbn [JS.truthy]. unfold gt_num. 
  split.
  - intros Hpos.
    assert (Hnz : (n =? 0) = false) by (apply Z.eqb_neq; lia).
    rewrite Hnz. cbn [negb to_number JS.to_string].
    assert (Hlt : (0 <? n) = true) by (apply Z.ltb_lt; lia).
    rewrite Hlt. cbn [outcome effects fst snd].
    split; [reflexivity|].
    apply in_or_app. right. apply in_or_app. right. left. reflexivity.
  - intros ->. cbn [Z.eqb negb to_number Z.ltb Z.compare outcome effects fst snd].
    split; [reflexivity|].
    apply in_or_app. right. apply in_or_app. right. left. reflexivity.
Qed.

(** ** Status and scheduling *)

Lemma updateBotStatus_run (st : status) (w : world) :
  updateBotStatus st w
  = (Normal tt, set_botStatus st w,
     [Emit (statusUpdate (List.length (loadedTokens w)) (nextRunTimestamp w) st);
      Emit (log "info" ("Bot status changed to: " ++ status_name st)%string)]).
Proof. reflexivity. Qed.

(** The state [scheduleNextRun] leaves: the old handle disarmed, a fresh
    timer armed and kept in [checkIntervalId], the bot [WAITING]. *)
Definition scheduled (w : world) : world :=
  mkWorld (Some (next_timer w)) (Some (clock w + CHECK_INTERVAL_MS)) WAITING
          (loadedTokens w) (clock w)
          (next_timer w ::
             match checkIntervalId w with
             | Some t => filter (fun x => negb (Nat.eqb x t)) (timers w)
             | None => timers w
             end)
          (S (next_timer w)).

Lemma scheduleNextRun_run (w : world) :
  scheduleNextRun toLocaleString w
  = (Normal tt, scheduled w,
     [Emit (statusUpdate (List.length (loadedTokens w))
                         (Some (clock w + CHECK_INTERVAL_MS)) WAITING);
      Emit (log "info" "Bot status changed to: WAITING");
      Emit (log "wait" ("⏳ Scheduling next check-in cycle for: "
                        ++ toLocaleString (clock w + CHECK_INTERVAL_MS))%string)]).
Proof.
  destruct w as [id next st tokens c ts n].
  destruct id as [t|]; reflexivity.
Qed.

(** ** One account *)

(** The result event of a skipped account and that of an attempted one. *)
Definition skip_result (i : nat) : effect :=
  Emit (checkinResult i false "Token Expired/Invalid" (VNum 0) false).

Definition sign_result_event (i : nat) (r : sign_result) : effect :=
  Emit (checkinResult i (success r) (message r) (reward r) (isDuplicate r)).

(** What remains visible of one turn of the loop, by the gate's verdict. *)
Lemma account_step_run (env : environment) (token : string) (i : nat) (w : world) :
  exists b w' t,
    outcome (isTokenExpiredOrInvalid jwt_decode token i w) = Normal b
    /\ account_step jwt_decode StringToNumber JSON_stringify env token i w
       = (Normal tt, w', t)
    /\ loadedTokens w' = loadedTokens w
    /\ (if b then
          visible t = [skip_result i; Await (Sleep i DELAY_BETWEEN_ACCOUNTS_MS)]
        else
          exists r,
            reward_invariant r
            /\ visible t
               = Await (AxiosPost i token) :: sign_result_event i r
                 :: (if Z.of_nat i <? Z.of_nat (List.length (loadedTokens w)) - 1
                     then [Await (Sleep i DELAY_BETWEEN_ACCOUNTS_MS)]
                     else [])).
Proof.
  destruct (gate_run token i w) as (b & tg & Hgate & Hquiet).
  exists b. unfold account_step.
  erewrite bind_run by reflexivity.
  rewrite (bind_run _ _ _ _ _ _ Hgate).
  destruct b.
  - erewrite bind_run by reflexivity.
    erewrite bind_run by reflexivity.
    unfold delay. rewrite await_run.
    cbn [outcome final effects fst snd].
    eexists _, _. split; [now rewrite Hgate|]. split; [reflexivity|].
    split; [apply resumed_tokens|].
    autorewrite with vis. rewrite Hquiet. reflexivity.
  - destruct (performSign_run env token i w) as (r & ts & Hsign & Hvis & Hinv).
    rewrite (bind_run _ _ _ _ _ _ Hsign).
    erewrite bind_run by reflexivity.
    erewrite bind_run by reflexivity.
    cbv beta. rewrite resumed_tokens.
    destruct (Z.of_nat i <? Z.of_nat (List.length (loadedTokens w)) - 1).
    + erewrite bind_run by reflexivity.
      unfold delay. rewrite await_run.
      cbn [outcome final effects fst snd].
      eexists _, _. split; [now rewrite Hgate|]. split; [reflexivity|].
      split; [now rewrite !resumed_tokens|].
      exists r. split; [exact Hinv|].
      autorewrite with vis. rewrite Hquiet, Hvis. reflexivity.
    + cbn [outcome final effects fst snd ret].
      eexists _, _. split; [now rewrite Hgate|]. split; [reflexivity|].
      split; [now rewrite !resumed_tokens|].
      exists r. split; [exact Hinv|].
      autorewrite with vis. rewrite Hquiet, Hvis. reflexivity.
Qed.

(** ** The loop *)

(** The visible effects of the loop from index [i] on, over [tokens], when
    [loadedTokens] holds [len] tokens: per account either the skip result
    and a delay, or the POST, its result and (before the last index) a
    delay. *)
Inductive cycle_shape (len : nat) : nat -> list string -> list effect -> Prop :=
| shape_done (i : nat) : cycle_shape len i [] []
| shape_skip (i : nat) (token : string) (rest : list string) (t : list effect) :
    cycle_shape len (S i) rest t ->
    cycle_shape len i (token :: rest)
                (skip_result i :: Await (Sleep i DELAY_BETWEEN_ACCOUNTS_MS) :: t)
| shape_sign (i : nat) (token : string) (rest : list string) (r : sign_result)
             (t : list effect) :
    reward_invariant r ->
    cycle_shape len (S i) rest t ->
    cycle_shape len i (token :: rest)
                (Await (AxiosPost i token) :: sign_result_event i r
                 :: (if Z.of_nat i <? Z.of_nat len - 1
                     then [Await (Sleep i DELAY_BETWEEN_ACCOUNTS_MS)]
                     else [])
                 ++ t).

Lemma for_accounts_run (env : environment) (tokens : list string) :
  forall (i : nat) (w : world),
  exists w' t,
    for_accounts jwt_decode StringToNumber JSON_stringify env tokens i w
    = (Normal tt, w', t)
    /\ loadedTokens w' = loadedTokens w
    /\ cycle_shape (List.length (loadedTokens w)) i tokens (visible t).
Proof.
  induction tokens as [|token rest IH]; intros i w.
  - exists w, []. repeat split. constructor.
  - destruct (account_step_run env token i w) as (b & w1 & t1 & _ & Hstep & Htok & Hvis).
    destruct (IH (S i) w1) as (w2 & t2 & Hrest & Htok2 & Hshape).
    exists w2, (t1 ++ t2). cbn [for_accounts].
    rewrite (bind_run _ _ _ _ _ _ Hstep), Hrest. cbn [outcome final effects fst snd].
    split; [reflexivity|]. split; [congruence|].
    rewrite visible_app. rewrite Htok in Hshape.
    destruct b.
    + rewrite Hvis. cbn [app]. now constructor.
    + destruct Hvis as (r & Hinv & Hvis). rewrite Hvis. cbn [app].
      now constructor.
Qed.

(** A loop over [before ++ after] is the loop over [before] followed, in
    the state that one leaves, by the loop over [after]. *)
Lemma for_accounts_app (env : environment) (before after : list string) :
  forall (i : nat) (w : world),
    let run1 := for_accounts jwt_decode StringToNumber JSON_stringify env before i w in
    let run2 := for_accounts jwt_decode StringToNumber JSON_stringify env after
                             (i + List.length before) (final run1) in
    for_accounts jwt_decode StringToNumber JSON_stringify env (before ++ after) i w
    = (Normal tt, final run2, effects run1 ++ effects run2).
Proof.
  induction before as [|token rest IH]; intros i w; cbv zeta.
  - cbn [app for_accounts ret final effects fst snd List.length].
    rewrite Nat.add_0_r.
    destruct (for_accounts_run env after i w) as (w2 & t2 & H2 & _).
    rewrite H2. reflexivity.
  - destruct (account_step_run env token i w) as (b & w1 & t1 & _ & Hstep & _).
    cbn [app for_accounts List.length].
    rewrite !(bind_run _ _ _ _ _ _ Hstep).
    specialize (IH (S i) w1). cbv zeta in IH. rewrite IH.
    cbn [outcome final effects fst snd].
    replace (i + S (List.length rest))%nat with (S i + List.length rest)%nat by lia.
    now rewrite app_assoc.
Qed.

(** ** The cycle *)

Lemma runCheckInCycle_run (env : environment) (w : world) :
  exists w1 t body,
    runCheckInCycle jwt_decode StringToNumber JSON_stringify toLocaleString env w
    = (Normal tt, scheduled w1, t)
    /\ loadedTokens w1 = loadedTokens w
    /\ cycle_shape (List.length (loadedTokens w)) 0 (loadedTokens w) body
    /\ visible t
       = body ++ [Emit (statusUpdate (List.length (loadedTokens w))
                                     (Some (clock w1 + CHECK_INTERVAL_MS)) WAITING)].
Proof.
  unfold runCheckInCycle.
  rewrite (bind_run _ _ _ _ _ _ (updateBotStatus_run RUNNING w)).
  erewrite bind_run by reflexivity.
  erewrite bind_run by reflexivity.
  cbn [loadedTokens set_botStatus].
  destruct (List.length (loadedTokens w) =? 0)%nat eqn:Hlen.
  - apply Nat.eqb_eq in Hlen.
    erewrite bind_run by reflexivity.
    rewrite scheduleNextRun_run. cbn [outcome final effects fst snd].
    eexists (set_botStatus RUNNING w), _, []. split; [reflexivity|].
    split; [reflexivity|]. split.
    + destruct (loadedTokens w); [constructor | discriminate].
    + reflexivity.
  - erewrite bind_run by reflexivity.
    destruct (for_accounts_run env (loadedTokens w) 0 (set_botStatus RUNNING w))
      as (w1 & t1 & Hloop & Htok & Hshape).
    rewrite (bind_run _ _ _ _ _ _ Hloop).
    erewrite bind_run by reflexivity.
    rewrite scheduleNextRun_run. cbn [outcome final effects fst snd].
    eexists w1, _, (visible t1). split; [reflexivity|].
    split; [exact Htok|]. split; [exact Hshape|].
    autorewrite with vis. cbn [app]. rewrite Htok. reflexivity.
Qed.

(** ** Observing a cycle *)

Definition is_result (x : effect) : bool :=
  match x with
  | Emit (checkinResult _ _ _ _ _) => true
  | _ => false
  end.

(** The signal that a cycle is over: the status update to [WAITING] that
    [scheduleNextRun] emits at the end of every cycle, empty or not. *)
Definition cycle_complete (x : effect) : bool :=
  match x with
  | Emit (statusUpdate _ _ WAITING) => true
  | _ => false
  end.

Definition result_index (x : effect) : option nat :=
  match x with
  | Emit (checkinResult i _ _ _ _) => Some i
  | _ => None
  end.

(** The account an effect belongs to: that of a result, of a POST, of a
    delay. *)
Definition account_of (x : effect) : option nat :=
  match x with
  | Emit (checkinResult i _ _ _ _) => Some i
  | Await (AxiosPost i _) => Some i
  | Await (Sleep i _) => Some i
  | _ => None
  end.

Definition about (i : nat) (x : effect) : bool :=
  match account_of x with
  | Some k => Nat.eqb k i
  | None => false
  end.

Definition is_delay (x : effect) : bool :=
  match x with
  | Await (Sleep _ _) => true
  | _ => false
  end.

Definition delays (t : list effect) : nat := List.length (filter is_delay t).

Lemma filter_visible (p : effect -> bool) :
  (forall x, p x = true -> noise x = false) ->
  forall t, filter p t = filter p (visible t).
Proof.
  intros Hp t. induction t as [|x t IH]; [reflexivity|].
  unfold visible. cbn [filter]. fold (visible t).
  destruct (noise x) eqn:Hn; cbn [negb filter].
  - destruct (p x) eqn:Hx; [|exact IH].
    apply Hp in Hx. congruence.
  - now rewrite IH.
Qed.

Lemma marks_visible (x : effect) :
  is_result x || cycle_complete x = true -> noise x = false.
Proof.
  destruct x as [[l m|n next st|i ok m r d]|s|l v]; try discriminate; try reflexivity.
  destruct st; try discriminate; reflexivity.
Qed.

Lemma about_visible (i : nat) (x : effect) : about i x = true -> noise x = false.
Proof.
  destruct x as [[l m|n next st|k ok m r d]|s|l v]; try discriminate; reflexivity.
Qed.

Lemma delay_visible (x : effect) : is_delay x = true -> noise x = false.
Proof.
  destruct x as [[l m|n next st|k ok m r d]|s|l v]; try discriminate; reflexivity.
Qed.

(** The results in a loop's effects carry the indices of its accounts, in
    order; there is no end-of-cycle signal among them. *)
Lemma shape_results (len j : nat) (tokens : list string) (body : list effect) :
  cycle_shape len j tokens body ->
  map result_index (filter (fun x => is_result x || cycle_complete x) body)
  = map Some (seq j (List.length tokens)).
Proof.
  induction 1 as [i | i token rest t _ IH | i token rest r t _ _ IH].
  - reflexivity.
  - cbn. now rewrite IH.
  - cbn [filter is_result cycle_complete orb sign_result_event map result_index
         List.length seq].
    rewrite filter_app.
    destruct (Z.of_nat i <? Z.of_nat len - 1); cbn; now rewrite IH.
Qed.

(** The effects of a loop over the indices from [j] on concern no account
    outside that range. *)
Lemma shape_about (len j : nat) (tokens : list string) (body : list effect) :
  cycle_shape len j tokens body ->
  forall i, (i < j \/ j + List.length tokens <= i)%nat ->
            filter (about i) body = [].
Proof.
  induction 1 as [j | j token rest t _ IH | j token rest r t _ _ IH];
    intros i Hi; cbn [List.length] in Hi.
  - reflexivity.
  - assert (Hne : Nat.eqb j i = false) by (apply Nat.eqb_neq; lia).
    cbn [filter about account_of skip_result]. rewrite Hne.
    apply IH. lia.
  - assert (Hne : Nat.eqb j i = false) by (apply Nat.eqb_neq; lia).
    cbn [filter about account_of sign_result_event]. rewrite Hne.
    rewrite filter_app, IH by lia.
    destruct (Z.of_nat j <? Z.of_nat len - 1); cbn [filter about account_of];
      rewrite ?Hne; reflexivity.
Qed.

(** C1. One call of [runCheckInCycle] over [N] loaded tokens returns
    normally, and among its effects the results and end-of-cycle signals
    are: [N] [checkinResult] events carrying the indices [0 .. N-1] in that
    order, then one status update to [WAITING]; for [N = 0] that update
    alone. *)
Theorem runCheckInCycle_results (env : environment) (w : world) :
  let N := List.length (loadedTokens w) in
  let run := runCheckInCycle jwt_decode StringToNumber JSON_stringify toLocaleString
                             env w in
  outcome run = Normal tt
  /\ exists results signal,
      filter (fun x => is_result x || cycle_complete x) (effects run)
      = results ++ [signal]
      /\ map result_index results = map Some (seq 0 N)
      /\ cycle_complete signal = true.
Proof.
  cbv zeta.
  destruct (runCheckInCycle_run env w) as (w1 & t & body & Hrun & _ & Hshape & Hvis).
  rewrite Hrun. cbn [outcome effects fst snd]. split; [reflexivity|].
  rewrite (filter_visible _ marks_visible), Hvis, filter_app.
  eexists _, _. split; [reflexivity|]. split; [|reflexivity].
  apply (shape_results _ _ _ _ Hshape).
Qed.

(** ** A skipped account *)

(** The state in which the cycle started in [w] reaches the account at
    index [i]: [RUNNING], after the loop over the accounts before it. *)
Definition state_at (env : environment) (w : world) (i : nat) : world :=
  final (for_accounts jwt_decode StringToNumber JSON_stringify env
                      (firstn i (loadedTokens w)) 0 (set_botStatus RUNNING w)).

Lemma firstn_length_app {A} (l1 l2 : list A) : firstn (List.length l1) (l1 ++ l2) = l1.
Proof. induction l1 as [|x l1 IH]; simpl; [reflexivity | now rewrite IH]. Qed.

(** C5. When the gate judges the token at index [i] unusable in the state
    in which the cycle reaches it, what the cycle does for that account is:
    one [checkinResult] with [success: false] and the message
    ["Token Expired/Invalid"], then the delay; there is no POST for it. *)
Theorem skipped_account_no_attempt
        (env : environment) (w : world)
        (before : list string) (token : string) (after : list string) :
  loadedTokens w = before ++ token :: after ->
  let i := List.length before in
  outcome (isTokenExpiredOrInvalid jwt_decode token i (state_at env w i)) = Normal true ->
  filter (about i)
         (effects (runCheckInCycle jwt_decode StringToNumber JSON_stringify
                                   toLocaleString env w))
  = [Emit (checkinResult i false "Token Expired/Invalid" (VNum 0) false);
     Await (Sleep i DELAY_BETWEEN_ACCOUNTS_MS)].
Proof.
  intros Htokens i Hgate.
  unfold state_at in Hgate. rewrite Htokens in Hgate.
  unfold i in Hgate at 2. rewrite firstn_length_app in Hgate.
  unfold runCheckInCycle.
  rewrite (bind_run _ _ _ _ _ _ (updateBotStatus_run RUNNING w)).
  erewrite bind_run by reflexivity.
  erewrite bind_run by reflexivity.
  cbn [loadedTokens set_botStatus]. rewrite Htokens.
  replace (List.length (before ++ token :: after) =? 0)%nat with false
    by (symmetry; apply Nat.eqb_neq; rewrite length_app; simpl; lia).
  erewrite bind_run by reflexivity.
  (* the loop, split at [i] *)
  pose proof (for_accounts_app env before (token :: after) 0 (set_botStatus RUNNING w))
    as Hsplit.
  cbv zeta in Hsplit. cbn [Nat.add] in Hsplit. fold i in Hsplit.
  destruct (for_accounts_run env before 0 (set_botStatus RUNNING w))
    as (w1 & t1 & Hbefore & Htok1 & Hshape1).
  rewrite Hbefore in Hsplit, Hgate. cbn [final effects fst snd] in Hsplit, Hgate.
  destruct (account_step_run env token i w1) as (b & w2 & ts & Hb & Hstep & Htok2 & Hvis).
  rewrite Hgate in Hb. injection Hb as <-.
  destruct (for_accounts_run env after (S i) w2) as (w3 & ta & Hafter & _ & Hshape3).
  cbn [for_accounts] in Hsplit.
  rewrite (bind_run _ _ _ _ _ _ Hstep), Hafter in Hsplit.
  cbn [outcome final effects fst snd] in Hsplit.
  rewrite (bind_run _ _ _ _ _ _ Hsplit).
  erewrite bind_run by reflexivity.
  rewrite scheduleNextRun_run. cbn [outcome final effects fst snd].
  rewrite (filter_visible _ (about_visible i)).
  autorewrite with vis. rewrite Hvis.
  rewrite !filter_app.
  rewrite (shape_about _ _ _ _ Hshape1) by (right; simpl; lia).
  rewrite (shape_about _ _ _ _ Hshape3) by (left; lia).
  cbn [filter about account_of skip_result app]. rewrite Nat.eqb_refl.
  reflexivity.
Qed.

(** ** Stop during a cycle *)

Lemma shape_result_count (len j : nat) (tokens : list string) (body : list effect) :
  cycle_shape len j tokens body ->
  List.length (filter is_result body) = List.length tokens.
Proof.
  induction 1 as [i | i token rest t _ IH | i token rest r t _ _ IH].
  - reflexivity.
  - cbn. now rewrite IH.
  - cbn [filter is_result sign_result_event List.length].
    rewrite filter_app.
    destruct (Z.of_nat i <? Z.of_nat len - 1); cbn; now rewrite IH.
Qed.

(** C6 (as amended). A [stopBot] that runs while the cycle is suspended
    leaves the bot [IDLE] with [nextRunTimestamp] null at that moment, but
    the cycle does not observe it: whatever is requested meanwhile, the
    cycle returns normally after emitting the results of all [N] accounts,
    and its final [scheduleNextRun] leaves the bot [WAITING] with
    [nextRunTimestamp] set and a fresh timer armed in [checkIntervalId]. *)
Theorem runCheckInCycle_ignores_stop (env : environment) (w : world) :
  let run := runCheckInCycle jwt_decode StringToNumber JSON_stringify toLocaleString
                             env w in
  (forall s w0, stop_requested env s = true ->
                botStatus (final (await env s w0)) = IDLE
                /\ nextRunTimestamp (final (await env s w0)) = None)
  /\ outcome run = Normal tt
  /\ List.length (filter is_result (effects run)) = List.length (loadedTokens w)
  /\ botStatus (final run) = WAITING
  /\ nextRunTimestamp (final run) = Some (clock (final run) + CHECK_INTERVAL_MS)
  /\ exists t, checkIntervalId (final run) = Some t /\ In t (timers (final run)).
Proof.
  cbv zeta. split.
  { intros s w0 Hstop. rewrite await_run. cbn [final fst snd].
    unfold resumed. rewrite Hstop. split; reflexivity. }
  destruct (runCheckInCycle_run env w) as (w1 & t & body & Hrun & _ & Hshape & Hvis).
  rewrite Hrun. cbn [outcome final effects fst snd].
  split; [reflexivity|]. split.
  - assert (Hres : forall x, is_result x = true -> noise x = false).
    { intros x Hx. apply marks_visible. now rewrite Hx. }
    rewrite (filter_visible _ Hres), Hvis, filter_app. cbn [filter is_result].
    rewrite app_nil_r. apply (shape_result_count _ _ _ _ Hshape).
  - repeat split. exists (next_timer w1). split; [reflexivity|]. now left.
Qed.

(** ** Delays *)

Lemma delays_app (t1 t2 : list effect) : delays (t1 ++ t2) = (delays t1 + delays t2)%nat.
Proof. unfold delays. now rewrite filter_app, length_app. Qed.

(** A loop that runs to the last index takes a delay after each account
    but possibly the last. *)
Lemma shape_delays (len j : nat) (tokens : list string) (body : list effect) :
  cycle_shape len j tokens body ->
  (j + List.length tokens = len)%nat ->
  (List.length tokens - 1 <= delays body <= List.length tokens)%nat.
Proof.
  induction 1 as [i | i token rest t _ IH | i token rest r t _ Hrest IH];
    intros Hlen; cbn [List.length] in *.
  - unfold delays. simpl. lia.
  - specialize (IH ltac:(lia)).
    change (delays (skip_result i :: Await (Sleep i DELAY_BETWEEN_ACCOUNTS_MS) :: t))
      with (S (delays t)).
    lia.
  - specialize (IH ltac:(lia)).
    change (delays (Await (AxiosPost i token) :: sign_result_event i r
                    :: (if Z.of_nat i <? Z.of_nat len - 1
                        then [Await (Sleep i DELAY_BETWEEN_ACCOUNTS_MS)]
                        else []) ++ t))
      with (delays ((if Z.of_nat i <? Z.of_nat len - 1
                     then [Await (Sleep i DELAY_BETWEEN_ACCOUNTS_MS)]
                     else []) ++ t)).
    rewrite delays_app.
    destruct (Z.of_nat i <? Z.of_nat len - 1) eqn:Hlast.
    + change (delays [Await (Sleep i DELAY_BETWEEN_ACCOUNTS_MS)]) with 1%nat. lia.
    + apply Z.ltb_ge in Hlast.
      change (delays []) with 0%nat. lia.
Qed.

(** A cycle over [N] tokens takes [N - 1] or [N] delays. *)
Lemma runCheckInCycle_delays (env : environment) (w : world) :
  let N := List.length (loadedTokens w) in
  let run := runCheckInCycle jwt_decode StringToNumber JSON_stringify toLocaleString
                             env w in
  (N - 1 <= delays (effects run) <= N)%nat.
Proof.
  cbv zeta.
  destruct (runCheckInCycle_run env w) as (w1 & t & body & Hrun & _ & Hshape & Hvis).
  rewrite Hrun. cbn [effects snd].
  unfold delays at 1 2. rewrite (filter_visible _ delay_visible), Hvis.
  fold (delays (body ++ [Emit (statusUpdate (List.length (loadedTokens w))
                                             (Some (clock w1 + CHECK_INTERVAL_MS))
                                             WAITING)])).
  rewrite delays_app.
  change (delays [Emit (statusUpdate (List.length (loadedTokens w))
                                     (Some (clock w1 + CHECK_INTERVAL_MS)) WAITING)])
    with 0%nat.
  pose proof (shape_delays _ _ _ _ Hshape eq_refl). lia.
Qed.

End Properties.

(* ================================================================== *)
(** * Concrete runs *)
(* ================================================================== *)

Module Sample.

(** A stand-in for [jwt.decode] on four inputs: a token good until second
    2000, one that expired at second 1000, one the decoder throws on, and
    anything else, which decodes to [null]. *)
Definition decode (token : string) : completion jsval :=
  if String.eqb token "fresh" then Normal (VObj [("exp"%string, VNum 2000)])
  else if String.eqb token "stale" then Normal (VObj [("exp"%string, VNum 1000)])
  else if String.eqb token "garbled" then
    Throw [("message"%string, VStr "Unexpected token in JSON")]
  else Normal VNull.

Definition string_to_number (s : string) : option Z := None.
Definition stringify (v : jsval) : string := JS.to_string v.
Definition locale_string (ms : Z) : string := JS.show_Z ms.

(** A reply with code 200 and the given reward. *)
Definition reply_200 (points : Z) : axios_result :=
  Resolved
    [("data"%string,
      VObj [("code"%string, VNum 200);
            ("debug"%string,
             VObj [("task"%string, VObj [("rewardPoint"%string, VNum points)])])])].

(** Nothing interferes; every POST is answered with 10 points, and every
    suspension lasts 3 seconds. *)
Definition calm : environment :=
  mkEnv (fun _ _ => reply_200 10) (fun _ => 3000) (fun _ => false).

(** The same, but the sign-in was already done today. *)
Definition done_today : environment :=
  mkEnv (fun _ _ => reply_200 0) (fun _ => 3000) (fun _ => false).

(** The same as [calm], but [stopBot] is called during the delay that
    follows the first account. *)
Definition stop_in_first_delay : environment :=
  mkEnv (fun _ _ => reply_200 10) (fun _ => 3000)
        (fun s => match s with Sleep 0 _ => true | _ => false end).

(** The bot at second 1000 sharp, idle, with the given tokens loaded. *)
Definition loaded (tokens : list string) : world :=
  mkWorld None None IDLE tokens 1000000 [] 0%nat.

Definition cycle (env : environment) (w : world) :=
  runCheckInCycle decode string_to_number stringify locale_string env w.

Definition is_log (x : effect) : bool :=
  match x with
  | Emit (log _ _) => true
  | _ => false
  end.

End Sample.

(** C2, at the boundary: the clock reads exactly the expiry of ["stale"],
    and the gate answers [true]. *)
Lemma gate_expiry_inclusive_at_boundary :
  outcome (isTokenExpiredOrInvalid Sample.decode "stale" 0 (Sample.loaded ["stale"%string]))
  = Normal true.
Proof.
  refine (proj2 (gate_expiry_inclusive Sample.decode "stale" 0
                   (Sample.loaded ["stale"%string])
                   (VObj [("exp"%string, VNum 1000)]) 1000 _ _ _) _).
  - discriminate.
  - reflexivity.
  - reflexivity.
  - reflexivity.
Defined.

(** C4, the claim as it stands: on a reply with code 200 and reward 0 the
    message of the Outcome is not ["already checked in"]. *)
Lemma performSign_message_is_capitalised :
  outcome (performSign Sample.string_to_number Sample.stringify Sample.done_today
                       "fresh" 0 (Sample.loaded ["fresh"%string]))
  <> Normal (mkResult true "already checked in" (VNum 0) true).
Proof.
  vm_compute. intros H. discriminate H.
Qed.

(** C4, as amended, on a reply with 10 points. *)
Lemma performSign_code_200_with_reward :
  outcome (performSign Sample.string_to_number Sample.stringify Sample.calm
                       "fresh" 0 (Sample.loaded ["fresh"%string]))
  = Normal (mkResult true "+10 points" (VNum 10) false).
Proof.
  refine (proj1 (proj1 (performSign_code_200
                          Sample.string_to_number Sample.stringify Sample.calm
                          "fresh" 0 (Sample.loaded ["fresh"%string])
                          _ _ 10 eq_refl eq_refl _ _) _)).
  - reflexivity.
  - reflexivity.
  - reflexivity.
Defined.

(** C5, on a cycle over a fresh token and a stale one: the stale one, at
    index 1, gets its result and its delay, and no POST. *)
Lemma skipped_account_no_attempt_stale :
  filter (about 1) (effects (Sample.cycle Sample.calm
                                          (Sample.loaded ["fresh"; "stale"]%string)))
  = [Emit (checkinResult 1 false "Token Expired/Invalid" (VNum 0) false);
     Await (Sleep 1 DELAY_BETWEEN_ACCOUNTS_MS)].
Proof.
  refine (skipped_account_no_attempt
            Sample.decode Sample.string_to_number Sample.stringify Sample.locale_string
            Sample.calm (Sample.loaded ["fresh"; "stale"]%string)
            ["fresh"%string] "stale" [] _ _).
  - reflexivity.
  - vm_compute. reflexivity.
Defined.

(** C6, the claim as it stands: [stopBot] runs during the delay after the
    first of two accounts, and the cycle goes on; the second account is
    attempted and the bot ends [WAITING] with a timer armed. *)
Lemma stop_during_delay_is_not_observed :
  let run := Sample.cycle Sample.stop_in_first_delay
                          (Sample.loaded ["fresh"; "fresh"]%string) in
  filter (fun x => negb (Sample.is_log x)) (effects run)
  = [Emit (statusUpdate 2 None RUNNING);
     Await (AxiosPost 0 "fresh");
     Emit (checkinResult 0 true "+10 points" (VNum 10) false);
     Await (Sleep 0 3000);
     Emit (statusUpdate 2 None IDLE);
     Await (AxiosPost 1 "fresh");
     Emit (checkinResult 1 true "+10 points" (VNum 10) false);
     Emit (statusUpdate 2 (Some 87409000) WAITING)]
  /\ botStatus (final run) <> IDLE
  /\ nextRunTimestamp (final run) <> None
  /\ timers (final run) <> [].
Proof.
  vm_compute. repeat split; discriminate.
Qed.

(** C7, at a single stale token: the cycle over [N = 1] account takes one
    delay, after its last (and only) account, not [N - 1 = 0]. *)
Theorem delay_after_skipped_last_account :
  let w := Sample.loaded ["stale"%string] in
  let run := Sample.cycle Sample.calm w in
  delays (effects run) = 1%nat
  /\ (List.length (loadedTokens w) - 1 = 0)%nat
  /\ filter (fun x => negb (Sample.is_log x)) (effects run)
     = [Emit (statusUpdate 1 None RUNNING);
        Emit (checkinResult 0 false "Token Expired/Invalid" (VNum 0) false);
        Await (Sleep 0 3000);
        Emit (statusUpdate 1 (Some 87403000) WAITING)].
Proof.
  vm_compute. repeat split.
Qed.

(** ** The wallet file: properties *)

Module LoaderFacts.

Import Loader.
Local Open Scope string_scope.

Definition first_unit (s : string) : option ascii :=
  match s with
  | EmptyString => None
  | String c _ => Some c
  end.

Fixpoint last_unit (s : string) : option ascii :=
  match s with
  | EmptyString => None
  | String c EmptyString => Some c
  | String _ rest => last_unit rest
  end.

Fixpoint has_unit (c : ascii) (s : string) : bool :=
  match s with
  | EmptyString => false
  | String c' rest => Ascii.eqb c' c || has_unit c rest
  end.

(** The keys a text yields: what [loadApiKeys] computes from [rawTokenData]. *)
Definition keys_of (rawTokenData : string) : list string :=
  filter is_key (map trim (split_lines rawTokenData)).

(** A key as the loader hands it out: not empty, no white space at either
    end, no ["#"] in front, no line feed inside. *)
Definition clean (key : string) : Prop :=
  key <> ""
  /\ (forall c, first_unit key = Some c -> is_whitespace c = false /\ c <> "#"%char)
  /\ (forall c, last_unit key = Some c -> is_whitespace c = false)
  /\ has_unit LF key = false.

Definition newline : string := String LF "".
Definition crlf : string := String CR (String LF "").

(** *** trim *)

Lemma trimStart_first (s : string) (c : ascii) :
  first_unit (trimStart s) = Some c -> is_whitespace c = false.
Proof.
  induction s as [|a r IH]; simpl; [discriminate|].
  destruct (is_whitespace a) eqn:Ha; [exact IH|].
  simpl. intros [= <-]. exact Ha.
Qed.

Lemma trimEnd_first (s : string) (c : ascii) :
  first_unit (trimEnd s) = Some c -> first_unit s = Some c.
Proof.
  destruct s as [|a r]; simpl; [discriminate|].
  destruct (trimEnd r); [destruct (is_whitespace a)|]; simpl; congruence.
Qed.

Lemma trimEnd_last (s : string) (c : ascii) :
  last_unit (trimEnd s) = Some c -> is_whitespace c = false.
Proof.
  induction s as [|a r IH]; simpl; [discriminate|].
  destruct (trimEnd r) as [|k ks] eqn:Hr.
  - destruct (is_whitespace a) eqn:Ha; simpl; [discriminate|].
    intros [= <-]. exact Ha.
  - exact IH.
Qed.

Lemma trimStart_units (c : ascii) (s : string) :
  has_unit c (trimStart s) = true -> has_unit c s = true.
Proof.
  induction s as [|a r IH]; simpl; [discriminate|].
  destruct (is_whitespace a); simpl; [|trivial].
  intros H. rewrite (IH H). apply orb_true_r.
Qed.

Lemma trimEnd_units (c : ascii) (s : string) :
  has_unit c (trimEnd s) = true -> has_unit c s = true.
Proof.
  induction s as [|a r IH]; simpl; [discriminate|].
  destruct (trimEnd r) as [|k ks] eqn:Hr.
  - destruct (is_whitespace a); simpl; [discriminate|].
    rewrite orb_false_r. intros ->. reflexivity.
  - cbn [has_unit]. intros H. apply orb_true_iff in H. destruct H as [H|H].
    + now rewrite H.
    + rewrite (IH H). apply orb_true_r.
Qed.

Lemma trimStart_id (s : string) (c : ascii) :
  first_unit s = Some c -> is_whitespace c = false -> trimStart s = s.
Proof.
  destruct s as [|a r]; simpl; [discriminate|].
  intros [= ->] ->. reflexivity.
Qed.

Lemma trimEnd_id (s : string) :
  forall c, last_unit s = Some c -> is_whitespace c = false -> trimEnd s = s.
Proof.
  induction s as [|a r IH]; intros c Hlast Hc; [discriminate|].
  destruct r as [|b r'].
  - simpl in *. injection Hlast as ->. now rewrite Hc.
  - change (last_unit (String a (String b r'))) with (last_unit (String b r')) in Hlast.
    change (trimEnd (String a (String b r')))
      with (match trimEnd (String b r') with
            | EmptyString => if is_whitespace a then EmptyString else String a EmptyString
            | kept => String a kept
            end).
    now rewrite (IH c Hlast Hc).
Qed.

Lemma trim_clean (key : string) : clean key -> trim key = key.
Proof.
  intros (Hne & Hfirst & Hlast & _). unfold trim.
  destruct key as [|a r]; [contradiction|].
  rewrite (trimStart_id (String a r) a eq_refl (proj1 (Hfirst a eq_refl))).
  destruct (last_unit (String a r)) as [c|] eqn:Hc.
  - apply (trimEnd_id _ c Hc). apply Hlast. reflexivity.
  - exfalso. clear -Hc. revert a Hc.
    induction r as [|b r IH]; intros a Hc; [discriminate|].
    apply (IH b). exact Hc.
Qed.

Lemma prefix_hash (a : ascii) (r : string) :
  prefix "#" (String a r) = Ascii.eqb a "#".
Proof.
  destruct (Ascii.eqb_spec a "#") as [->|Hne].
  - apply prefix_correct. simpl. now destruct r.
  - destruct (prefix "#" (String a r)) eqn:Hp; [|reflexivity].
    apply prefix_correct in Hp. simpl in Hp. congruence.
Qed.

Lemma is_key_clean (key : string) : clean key -> is_key key = true.
Proof.
  intros (Hne & Hfirst & _). unfold is_key.
  apply String.eqb_neq in Hne. rewrite Hne.
  destruct key as [|a r]; [reflexivity|].
  destruct (Hfirst a eq_refl) as [_ Hhash].
  rewrite prefix_hash. apply Ascii.eqb_neq in Hhash. now rewrite Hhash.
Qed.

(** What [trim] returns is empty or starts and ends with a unit that is
    not white space. *)
Lemma trim_ends (s : string) :
  (forall c, first_unit (trim s) = Some c -> is_whitespace c = false)
  /\ (forall c, last_unit (trim s) = Some c -> is_whitespace c = false).
Proof.
  unfold trim. split; intros c H.
  - apply (trimStart_first s). now apply trimEnd_first.
  - now apply (trimEnd_last (trimStart s)).
Qed.

(** *** split *)

Lemma split_lines_nonempty (s : string) : split_lines s <> [].
Proof.
  destruct s as [|c r]; simpl; [discriminate|].
  destruct (Ascii.eqb c LF); [discriminate|].
  destruct r as [|c' r'].
  - simpl. discriminate.
  - destruct (Ascii.eqb c CR && Ascii.eqb c' LF); [discriminate|].
    destruct (split_lines (String c' r')); discriminate.
Qed.

Lemma string_ind2 (P : string -> Prop) :
  P "" ->
  (forall c, P (String c "")) ->
  (forall c c' r, P r -> P (String c' r) -> P (String c (String c' r))) ->
  forall s, P s.
Proof.
  intros H0 H1 H2 s.
  enough (H : P s /\ forall c, P (String c s)) by apply H.
  induction s as [|c' r [IHr IHc]].
  - split; [exact H0 | exact H1].
  - split; [apply IHc|]. intros c. apply H2; [exact IHr | apply IHc].
Qed.

Lemma extend_cons (c : ascii) (pieces : list string) :
  pieces <> [] ->
  exists piece others,
    pieces = piece :: others /\ extend c pieces = String c piece :: others.
Proof.
  destruct pieces as [|p rest]; [contradiction|].
  intros _. now exists p, rest.
Qed.

Lemma split_lines_step (c c' : ascii) (r : string) :
  split_lines (String c (String c' r))
  = if Ascii.eqb c LF then EmptyString :: split_lines (String c' r)
    else if Ascii.eqb c CR && Ascii.eqb c' LF then EmptyString :: split_lines r
         else extend c (split_lines (String c' r)).
Proof. reflexivity. Qed.

(** No piece of a split holds a line feed. *)
Lemma split_lines_no_LF (s : string) :
  Forall (fun piece => has_unit LF piece = false) (split_lines s).
Proof.
  induction s as [|c|c c' r IHr IHc] using string_ind2.
  - repeat constructor.
  - simpl. destruct (Ascii.eqb c LF) eqn:Hc; repeat constructor.
    simpl. now rewrite Hc.
  - rewrite split_lines_step.
    destruct (Ascii.eqb c LF) eqn:Hc.
    + constructor; [reflexivity | exact IHc].
    + destruct (Ascii.eqb c CR && Ascii.eqb c' LF).
      * constructor; [reflexivity | exact IHr].
      * destruct (extend_cons c _ (split_lines_nonempty (String c' r)))
          as (p & rest & Hsplit & ->).
        rewrite Hsplit in IHc. inversion IHc as [|? ? Hp Hrest]; subst.
        constructor; [|exact Hrest].
        simpl. now rewrite Hc, Hp.
Qed.

(** A text without line feed is one piece. *)
Lemma split_lines_single (s : string) :
  has_unit LF s = false -> split_lines s = [s].
Proof.
  induction s as [|c r IH]; [reflexivity|].
  cbn [has_unit]. intros H. apply orb_false_iff in H. destruct H as [Hc Hr].
  cbn [split_lines]. rewrite Hc.
  destruct r as [|c' r'].
  - reflexivity.
  - assert (Hc' : Ascii.eqb c' LF = false).
    { cbn [has_unit] in Hr. apply orb_false_iff in Hr. apply Hr. }
    rewrite Hc', andb_false_r. now rewrite (IH Hr).
Qed.

(** Without the carriage return it ends with, if it ends with one. *)
Fixpoint drop_cr (s : string) : string :=
  match s with
  | EmptyString => EmptyString
  | String c EmptyString => if Ascii.eqb c CR then EmptyString else s
  | String c rest => String c (drop_cr rest)
  end.

(** The pieces, the last one without the carriage return before the line
    feed that follows it. *)
Fixpoint chop (pieces : list string) : list string :=
  match pieces with
  | [] => []
  | [piece] => [drop_cr piece]
  | piece :: others => piece :: chop others
  end.

Lemma split_lines_singleton (s : string) (piece : string) :
  split_lines s = [piece] -> piece = s.
Proof.
  revert piece.
  induction s as [|c|c c' r IHr IHc] using string_ind2; intros piece.
  - simpl. congruence.
  - simpl. destruct (Ascii.eqb c LF); simpl; congruence.
  - rewrite split_lines_step.
    destruct (Ascii.eqb c LF).
    + intros H. exfalso. apply (split_lines_nonempty (String c' r)). congruence.
    + destruct (Ascii.eqb c CR && Ascii.eqb c' LF).
      * intros H. exfalso. apply (split_lines_nonempty r). congruence.
      * destruct (extend_cons c _ (split_lines_nonempty (String c' r)))
          as (p & rest & Hsplit & ->).
        intros [= <- ->]. now rewrite (IHc p Hsplit).
Qed.

(** Splitting [a], a line feed, [b]. *)
Lemma split_lines_app (b : string) (a : string) :
  split_lines (a ++ String LF b) = (chop (split_lines a) ++ split_lines b)%list.
Proof.
  induction a as [|c|c c' r IHr IHc] using string_ind2.
  - reflexivity.
  - cbn [append split_lines].
    destruct (Ascii.eqb c LF) eqn:Hc; [reflexivity|].
    rewrite Ascii.eqb_refl, andb_true_r. cbn [extend chop drop_cr app].
    destruct (Ascii.eqb c CR); reflexivity.
  - change ((String c (String c' r)) ++ String LF b)
      with (String c (String c' (r ++ String LF b))).
    rewrite !split_lines_step.
    destruct (Ascii.eqb c LF) eqn:Hc.
    + change (String c' (r ++ String LF b)) with (String c' r ++ String LF b).
      rewrite IHc.
      destruct (split_lines (String c' r)) as [|p rest] eqn:Hs;
        [now destruct (split_lines_nonempty _ Hs)|].
      reflexivity.
    + destruct (Ascii.eqb c CR && Ascii.eqb c' LF).
      * rewrite IHr.
        destruct (split_lines r) as [|p rest] eqn:Hs;
          [now destruct (split_lines_nonempty _ Hs)|].
        reflexivity.
      * change (String c' (r ++ String LF b)) with (String c' r ++ String LF b).
        rewrite IHc.
        destruct (split_lines (String c' r)) as [|p rest] eqn:Hs;
          [now destruct (split_lines_nonempty _ Hs)|].
        destruct rest as [|q rest].
        -- apply split_lines_singleton in Hs. subst p.
           reflexivity.
        -- reflexivity.
Qed.

(** *** trim after chop *)

Lemma trimEnd_drop_cr (s : string) : trimEnd (drop_cr s) = trimEnd s.
Proof.
  induction s as [|c|c c' r IHr IHc] using string_ind2.
  - reflexivity.
  - simpl. destruct (Ascii.eqb_spec c CR) as [->|Hc]; reflexivity.
  - change (drop_cr (String c (String c' r))) with (String c (drop_cr (String c' r))).
    cbn [trimEnd] in *. now rewrite IHc.
Qed.

Lemma trimStart_drop_cr (s : string) : trimStart (drop_cr s) = drop_cr (trimStart s).
Proof.
  induction s as [|c|c c' r IHr IHc] using string_ind2.
  - reflexivity.
  - simpl. destruct (Ascii.eqb_spec c CR) as [->|Hc].
    + reflexivity.
    + simpl. destruct (is_whitespace c); [reflexivity|].
      simpl. apply Ascii.eqb_neq in Hc. now rewrite Hc.
  - change (drop_cr (String c (String c' r))) with (String c (drop_cr (String c' r))).
    cbn [trimStart]. destruct (is_whitespace c); [exact IHc | reflexivity].
Qed.

Lemma trim_drop_cr (s : string) : trim (drop_cr s) = trim s.
Proof.
  unfold trim. now rewrite trimStart_drop_cr, trimEnd_drop_cr.
Qed.

Lemma map_trim_chop (pieces : list string) : map trim (chop pieces) = map trim pieces.
Proof.
  induction pieces as [|p rest IH]; [reflexivity|].
  destruct rest as [|q rest].
  - simpl. now rewrite trim_drop_cr.
  - change (chop (p :: q :: rest)) with (p :: chop (q :: rest)).
    cbn [map]. now rewrite IH.
Qed.

(** The keys of [a], a line feed, [b] are the keys of [a], then those of [b]. *)
Lemma keys_of_app (a b : string) :
  keys_of (a ++ String LF b) = (keys_of a ++ keys_of b)%list.
Proof.
  unfold keys_of.
  now rewrite split_lines_app, map_app, filter_app, map_trim_chop.
Qed.

(** *** loadApiKeys *)

Lemma keys_of_clean (rawTokenData : string) : Forall clean (keys_of rawTokenData).
Proof.
  unfold keys_of. apply Forall_forall. intros key Hin.
  apply filter_In in Hin. destruct Hin as [Hin Hkey].
  apply in_map_iff in Hin. destruct Hin as (line & <- & Hline).
  unfold is_key in Hkey. apply andb_true_iff in Hkey. destruct Hkey as [Hne Hhash].
  apply negb_true_iff in Hne, Hhash. apply String.eqb_neq in Hne.
  destruct (trim_ends line) as [Hfirst Hlast].
  repeat split.
  - exact Hne.
  - now apply Hfirst.
  - intros ->. destruct (trim line) as [|a r]; [discriminate|].
    injection H as ->. rewrite prefix_hash in Hhash. discriminate.
  - exact Hlast.
  - pose proof (split_lines_no_LF rawTokenData) as Hsplit.
    rewrite Forall_forall in Hsplit. specialize (Hsplit line Hline).
    destruct (has_unit LF (trim line)) eqn:H; [|reflexivity].
    unfold trim in H. apply trimEnd_units, trimStart_units in H. congruence.
Qed.

(** What [loadApiKeys] does with a file it can read. *)
Lemma loadApiKeys_read (path rawTokenData : string) (w : world) :
  exists line,
    loadApiKeys path (mkWallet true (Normal rawTokenData)) w
    = (Normal (keys_of rawTokenData), w,
       [Stdout ("[DEBUG] tokenLoader.js is looking for file at: " ++ path); Bot (Emit line)])
    /\ noise (Emit line) = true.
Proof.
  unfold loadApiKeys, Btry_catch, Bbind, say, Bemit, lift, Bret. cbn.
  fold (keys_of rawTokenData).
  destruct (List.length (keys_of rawTokenData) =? 0)%nat; cbn; eexists;
    split; reflexivity.
Qed.

Lemma drop_cr_snoc (s : string) : drop_cr (s ++ String CR "") = s.
Proof.
  induction s as [|c|c c' r IHr IHc] using string_ind2; try reflexivity.
  change (String c (String c' r) ++ String CR "")
    with (String c (String c' r ++ String CR "")).
  change (String c' r ++ String CR "") with (String c' (r ++ String CR "")) at 1.
  cbn [drop_cr]. f_equal. exact IHc.
Qed.

Lemma has_unit_app (c : ascii) (a b : string) :
  has_unit c (a ++ b) = has_unit c a || has_unit c b.
Proof.
  induction a as [|x a IH]; simpl; [reflexivity|].
  now rewrite IH, orb_assoc.
Qed.

Lemma append_assoc (a b c : string) : (a ++ b) ++ c = a ++ (b ++ c).
Proof. induction a as [|x a IH]; simpl; [reflexivity | now rewrite IH]. Qed.

Lemma keys_of_clean_line (key : string) : clean key -> keys_of key = [key].
Proof.
  intros Hclean. unfold keys_of.
  rewrite (split_lines_single key) by apply Hclean.
  simpl. now rewrite (trim_clean key Hclean), (is_key_clean key Hclean).
Qed.

Lemma keys_of_clean_line_cr (key : string) :
  clean key -> keys_of (key ++ String CR "") = [key].
Proof.
  intros Hclean. unfold keys_of.
  rewrite split_lines_single.
  - simpl. rewrite <- trim_drop_cr, drop_cr_snoc.
    now rewrite (trim_clean key Hclean), (is_key_clean key Hclean).
  - rewrite has_unit_app. destruct Hclean as (_ & _ & _ & ->). reflexivity.
Qed.

Lemma keys_of_join (sep : string) (keys : list string) :
  sep = newline \/ sep = crlf ->
  Forall clean keys ->
  keys_of (JS.join sep keys) = keys.
Proof.
  intros Hsep Hclean.
  induction keys as [|key rest IH]; [reflexivity|].
  inversion Hclean as [|? ? Hkey Hrest]; subst.
  destruct rest as [|key' rest].
  - apply keys_of_clean_line, Hkey.
  - change (JS.join sep (key :: key' :: rest))
      with (key ++ sep ++ JS.join sep (key' :: rest)).
    destruct Hsep as [-> | ->].
    + change (newline ++ JS.join newline (key' :: rest))
        with (String LF (JS.join newline (key' :: rest))).
      rewrite keys_of_app, (keys_of_clean_line key Hkey), (IH Hrest). reflexivity.
    + change (crlf ++ JS.join crlf (key' :: rest))
        with (String CR "" ++ String LF (JS.join crlf (key' :: rest))).
      rewrite <- append_assoc.
      rewrite keys_of_app, (keys_of_clean_line_cr key Hkey), (IH Hrest). reflexivity.
Qed.

End LoaderFacts.

(** [loadApiKeys] always returns, in the state it found, and shows nothing
    of what a cycle shows. *)
Lemma loadApiKeys_keys_total (path : string) (fs : Loader.wallet_file) (w : world) :
  exists keys t,
    Loader.loadApiKeys path fs w = (Normal keys, w, t)
    /\ visible (flat_map (fun x => match x with Bot e => [e] | Stdout _ => [] end) t) = [].
Proof.
  destruct fs as [[|] [raw|e]].
  - destruct (LoaderFacts.loadApiKeys_read path raw w) as (line & Hrun & Hlog).
    eexists _, _. split; [exact Hrun|].
    cbn [flat_map app]. unfold visible. cbn [filter]. now rewrite Hlog.
  - eexists _, _. split; reflexivity.
  - eexists _, _. split; reflexivity.
  - eexists _, _. split; reflexivity.
Qed.

(** X1. Whatever the wallet file holds and however the file system
    answers, [loadApiKeys] returns normally, leaves the bot state alone,
    and every key it returns is clean: not empty, without white space at
    either end, not starting with ["#"], and without a line feed. *)
Theorem loadApiKeys_keys_are_clean
        (path : string) (fs : Loader.wallet_file) (w : world) :
  exists keys t,
    Loader.loadApiKeys path fs w = (Normal keys, w, t)
    /\ Forall LoaderFacts.clean keys.
Proof.
  destruct fs as [[|] [raw|e]].
  - destruct (LoaderFacts.loadApiKeys_read path raw w) as (line & Hrun & _).
    eexists _, _. split; [exact Hrun|]. apply LoaderFacts.keys_of_clean.
  - eexists _, _. split; [reflexivity | constructor].
  - eexists _, _. split; [reflexivity | constructor].
  - eexists _, _. split; [reflexivity | constructor].
Qed.

(** X2. When the wallet file does not exist, or reading it throws,
    [loadApiKeys] throws nothing: it returns no key, after the debug line
    on standard output and one [log] event of level [error]. *)
Theorem loadApiKeys_failure_is_empty
        (path : string) (fs : Loader.wallet_file) (w : world) :
  (Loader.existsSync fs = false \/ exists e, Loader.readFileSync fs = Throw e) ->
  exists line message,
    Loader.loadApiKeys path fs w
    = (Normal [], w, [Stdout line; Bot (Emit (log "error" message))]).
Proof.
  destruct fs as [[|] [raw|e]]; cbn [Loader.existsSync Loader.readFileSync].
  - intros [H | [e H]]; discriminate.
  - intros _. eexists _, _. reflexivity.
  - intros _. eexists _, _. reflexivity.
  - intros _. eexists _, _. reflexivity.
Qed.

(** X3. A list of clean keys written one per line, the lines joined by
    LF or by CR LF, loads back as the same list in the same order. *)
Theorem loadApiKeys_round_trip
        (path : string) (sep : string) (keys : list string) (w : world) :
  sep = LoaderFacts.newline \/ sep = LoaderFacts.crlf ->
  Forall LoaderFacts.clean keys ->
  Boutcome (Loader.loadApiKeys path (Loader.mkWallet true (Normal (JS.join sep keys))) w)
  = Normal keys.
Proof.
  intros Hsep Hclean.
  destruct (LoaderFacts.loadApiKeys_read path (JS.join sep keys) w) as (line & -> & _).
  cbn [Boutcome fst]. now rewrite LoaderFacts.keys_of_join.
Qed.

(** X4. The keys loaded from a text [a], a line feed and a text [b] are
    the keys loaded from [a] followed by the keys loaded from [b]. *)
Theorem loadApiKeys_concatenation (path : string) (a b : string) (w : world) :
  let load text :=
    Boutcome (Loader.loadApiKeys path (Loader.mkWallet true (Normal text)) w) in
  exists keys_a keys_b,
    load a = Normal keys_a
    /\ load b = Normal keys_b
    /\ load (a ++ String Loader.LF b)%string = Normal (keys_a ++ keys_b).
Proof.
  cbv zeta.
  destruct (LoaderFacts.loadApiKeys_read path a w) as (la & -> & _).
  destruct (LoaderFacts.loadApiKeys_read path b w) as (lb & -> & _).
  destruct (LoaderFacts.loadApiKeys_read path (a ++ String Loader.LF b)%string w)
    as (lab & -> & _).
  cbn [Boutcome fst]. eexists _, _. repeat split.
  now rewrite LoaderFacts.keys_of_app.
Qed.

(** X5. A line that is blank or a comment (after trimming it is empty or
    starts with ["#"]) can stand between any two parts of the wallet file
    without changing the keys loaded. *)
Theorem loadApiKeys_ignores_comment_lines
        (path : string) (a line b : string) (w : world) :
  LoaderFacts.has_unit Loader.LF line = false ->
  Loader.is_key (Loader.trim line) = false ->
  Boutcome (Loader.loadApiKeys path
             (Loader.mkWallet true
                (Normal (a ++ String Loader.LF (line ++ String Loader.LF b))%string)) w)
  = Boutcome (Loader.loadApiKeys path
               (Loader.mkWallet true (Normal (a ++ String Loader.LF b)%string)) w).
Proof.
  intros Hline Hskip.
  destruct (LoaderFacts.loadApiKeys_read path
              (a ++ String Loader.LF (line ++ String Loader.LF b))%string w) as (l1 & -> & _).
  destruct (LoaderFacts.loadApiKeys_read path (a ++ String Loader.LF b)%string w)
    as (l2 & -> & _).
  cbn [Boutcome fst]. f_equal.
  rewrite !LoaderFacts.keys_of_app. f_equal.
  replace (LoaderFacts.keys_of line) with (@nil string); [reflexivity|].
  unfold LoaderFacts.keys_of.
  rewrite (LoaderFacts.split_lines_single line Hline). simpl. now rewrite Hskip.
Qed.

(* ================================================================== *)
(** * More on the sign-in, the credential gate and the cycle *)
(* ================================================================== *)

Section Outcomes.

Variable jwt_decode : string -> completion jsval.
Variable StringToNumber : string -> option Z.
Variable JSON_stringify : jsval -> string.
Variable toLocaleString : Z -> string.


(** The Outcome is a function of how the POST settles: neither the state
    nor what else the environment does enters it. *)
Lemma performSign_outcome_reply
      (env env' : environment) (token : string) (i : nat) (w w' : world) :
  reply env i token = reply env' i token ->
  outcome (performSign StringToNumber JSON_stringify env token i w)
  = outcome (performSign StringToNumber JSON_stringify env' token i w').
Proof.
  intros Hreply.
  unfold performSign, try_catch, bind, emit, perform, ret.
  cbv beta iota zeta.
  rewrite !axios_post_run, <- Hreply.
  destruct (reply env i token) as [response|error]; cbv beta iota zeta.
  - repeat match goal with
           | |- context [if ?c then _ else _] => destruct c
           end; reflexivity.
  - reflexivity.
Qed.


(** X7. When the POST fails (no response, a status outside 2xx, a timeout),
    [performSign] throws nothing: the Outcome is a failure without reward
    whose message is ["Request Error: "] followed by the error's message,
    and a [log] event of level [error] is emitted. *)
Theorem performSign_transport_failure
        (env : environment) (token : string) (i : nat) (w : world) (error : exn) :
  reply env i token = Rejected error ->
  let run := performSign StringToNumber JSON_stringify env token i w in
  outcome run
  = Normal (mkResult false
              ("Request Error: " ++ JS.to_string (JS.lookup "message" error))%string
              (VNum 0) false)
  /\ exists text, In (Emit (log "error" text)) (effects run).
Proof.
  intros Hreply run. subst run.
  unfold performSign, try_catch, bind, emit, perform, ret.
  cbv beta iota zeta.
  rewrite axios_post_run, Hreply. cbv beta iota zeta. cbn [outcome effects fst snd].
  split; [reflexivity|].
  eexists. apply in_or_app. right. left. reflexivity.
Qed.


(** X9. A reply with code 200 that names no reward (no [debug], no
    [debug.task] or no [debug.task.rewardPoint]) is taken as a sign-in
    already done: success, duplicate, reward 0. *)
Theorem performSign_missing_reward
        (env : environment) (token : string) (i : nat) (w : world)
        (response : list (string * jsval)) (data : jsval) :
  reply env i token = Resolved response ->
  JS.lookup "data" response = data ->
  JS.get data "code" = VNum 200 ->
  JS.get (JS.get (JS.get data "debug") "task") "rewardPoint" = VUndefined ->
  outcome (performSign StringToNumber JSON_stringify env token i w)
  = Normal (mkResult true "Already checked in" (VNum 0) true).
Proof.
  intros Hreply Hdata Hcode Hreward.
  assert (Htruthy : JS.truthy data = true)
    by (eapply get_number_truthy; eassumption).
  unfold performSign, try_catch, bind, emit, perform, ret.
  cbv beta iota zeta.
  rewrite axios_post_run, Hreply. cbv beta iota zeta.
  change (JS.get (VObj response) "data") with (JS.lookup "data" response).
  rewrite Hdata, Hcode, Htruthy.
  cbn [JS.truthy JS.is_defined JS.strict_eq_num andb]. rewrite Z.eqb_refl.
  assert (Hpoints :
            JS.or (JS.get (JS.or (JS.get (JS.or (JS.get data "debug") (VObj []))
                                         "task") (VObj []))
                          "rewardPoint") (VNum 0) = VNum 0).
  { unfold JS.or at 3.
    destruct (JS.truthy (JS.get data "debug")) eqn:Hdebug.
    - unfold JS.or at 2.
      destruct (JS.truthy (JS.get (JS.get data "debug") "task")) eqn:Htask.
      + rewrite Hreward. reflexivity.
      + reflexivity.
    - reflexivity. }
  rewrite Hpoints. reflexivity.
Qed.

(** The gate's answer, as a function of the token and of the reading of
    the clock. *)
Definition verdict (token : string) (now : Z) : bool :=
  if String.eqb token "" then true
  else
    match jwt_decode token with
    | Normal decoded =>
        match JS.truthy decoded, JS.get decoded "exp" with
        | true, VNum exp => now >=? exp * 1000
        | _, _ => true
        end
    | Throw _ => true
    end.

Lemma gate_outcome (token : string) (i : nat) (w : world) :
  outcome (isTokenExpiredOrInvalid jwt_decode token i w)
  = Normal (verdict token (clock w)).
Proof.
  unfold isTokenExpiredOrInvalid, verdict.
  destruct (String.eqb token ""); [reflexivity|].
  unfold try_catch, bind at 1.
  destruct (jwt_decode token) as [decoded|e]; [|reflexivity].
  destruct (JS.truthy decoded);
    [destruct (JS.get decoded "exp") as [| |b|n|s|l|o]|]; try reflexivity.
  unfold bind, Date_now, gets; cbn.
  destruct (clock w >=? n * 1000); reflexivity.
Qed.

(** X10. Time only makes the gate stricter: a token the gate judges
    unusable is judged unusable at every later reading of the clock. *)
Theorem gate_verdict_is_final (token : string) (i j : nat) (w w' : world) :
  clock w <= clock w' ->
  outcome (isTokenExpiredOrInvalid jwt_decode token i w) = Normal true ->
  outcome (isTokenExpiredOrInvalid jwt_decode token j w') = Normal true.
Proof.
  intros Hclock. rewrite !gate_outcome. unfold verdict.
  destruct (String.eqb token ""); [trivial|].
  destruct (jwt_decode token) as [decoded|e]; [|trivial].
  destruct (JS.truthy decoded);
    [destruct (JS.get decoded "exp") as [| |b|n|s|l|o]|]; trivial.
  intros [= Hw]. f_equal.
  rewrite Z.geb_leb in *. apply Z.leb_le in Hw. apply Z.leb_le. lia.
Qed.

(** ** Which token each POST carries *)

Definition is_post_of (i : nat) (x : effect) : bool :=
  match x with
  | Await (AxiosPost k _) => Nat.eqb k i
  | _ => false
  end.

Lemma post_visible (i : nat) (x : effect) : is_post_of i x = true -> noise x = false.
Proof.
  destruct x as [[l m|n next st|k ok m r d]|s|l v]; try discriminate; reflexivity.
Qed.

Lemma in_visible (x : effect) (t : list effect) :
  noise x = false -> In x t -> In x (visible t).
Proof.
  intros Hx Hin. unfold visible. apply filter_In. split; [exact Hin|].
  now rewrite Hx.
Qed.

Lemma shape_posts (len j : nat) (tokens : list string) (body : list effect) :
  cycle_shape len j tokens body ->
  forall i token,
    In (Await (AxiosPost i token)) body ->
    (j <= i)%nat /\ nth_error tokens (i - j) = Some token.
Proof.
  induction 1 as [j | j tok rest t _ IH | j tok rest r t _ _ IH]; intros i token Hin.
  - destruct Hin.
  - destruct Hin as [Hin | [Hin | Hin]]; try discriminate.
    destruct (IH i token Hin) as [Hle Hnth]. split; [lia|].
    replace (i - j)%nat with (S (i - S j)) by lia. exact Hnth.
  - destruct Hin as [Hin | [Hin | Hin]]; try discriminate.
    + injection Hin as <- <-. split; [lia|]. now rewrite Nat.sub_diag.
    + apply in_app_or in Hin. destruct Hin as [Hin | Hin].
      * destruct (Z.of_nat j <? Z.of_nat len - 1); [|destruct Hin].
        destruct Hin as [Hin | []]. discriminate.
      * destruct (IH i token Hin) as [Hle Hnth]. split; [lia|].
        replace (i - j)%nat with (S (i - S j)) by lia. exact Hnth.
Qed.

Lemma shape_post_count (len j : nat) (tokens : list string) (body : list effect) :
  cycle_shape len j tokens body ->
  forall i, (List.length (filter (is_post_of i) body) <= 1)%nat
            /\ ((i < j)%nat -> filter (is_post_of i) body = []).
Proof.
  induction 1 as [j | j tok rest t _ IH | j tok rest r t _ _ IH]; intros i.
  - split; [simpl; lia | reflexivity].
  - destruct (IH i) as [Hle Hnone].
    cbn [filter is_post_of skip_result]. split; [exact Hle|].
    intros Hlt. apply Hnone. lia.
  - destruct (IH i) as [Hle Hnone].
    cbn [filter is_post_of sign_result_event]. rewrite filter_app.
    assert (Hdelay : filter (is_post_of i)
                       (if Z.of_nat j <? Z.of_nat len - 1
                        then [Await (Sleep j DELAY_BETWEEN_ACCOUNTS_MS)]
                        else []) = [])
      by (destruct (Z.of_nat j <? Z.of_nat len - 1); reflexivity).
    rewrite Hdelay. cbn [app].
    destruct (Nat.eqb j i) eqn:Hji.
    + apply Nat.eqb_eq in Hji. subst i. rewrite Hnone by lia.
      split; [simpl; lia | intros; lia].
    + split; [exact Hle|]. intros Hlt. apply Hnone. lia.
Qed.

(** X11. Every POST of a cycle is made for an account of the wallet and
    carries that account's own token, and no account gets more than one
    POST in a cycle. *)
Theorem runCheckInCycle_posts (env : environment) (w : world) :
  let run := runCheckInCycle jwt_decode StringToNumber JSON_stringify toLocaleString
                             env w in
  (forall i token,
      In (Await (AxiosPost i token)) (effects run) ->
      nth_error (loadedTokens w) i = Some token)
  /\ (forall i, List.length (filter (is_post_of i) (effects run)) <= 1)%nat.
Proof.
  cbv zeta.
  destruct (runCheckInCycle_run jwt_decode StringToNumber JSON_stringify toLocaleString
                                env w)
    as (w1 & t & body & Hrun & _ & Hshape & Hvis).
  rewrite Hrun. cbn [effects snd]. split.
  - intros i token Hin.
    apply (in_visible (Await (AxiosPost i token)) t eq_refl) in Hin.
    rewrite Hvis in Hin.
    apply in_app_or in Hin. destruct Hin as [Hin | [Hin | []]]; [|discriminate].
    destruct (shape_posts _ _ _ _ Hshape i token Hin) as [_ Hnth].
    now rewrite Nat.sub_0_r in Hnth.
  - intros i. rewrite (filter_visible _ (post_visible i)), Hvis, filter_app.
    cbn [filter is_post_of]. rewrite app_nil_r.
    apply (shape_post_count _ _ _ _ Hshape).
Qed.

(** ** Stop requests and what a cycle shows *)

Create Rewrite HintDb shown.

#[local] Hint Rewrite visible_app visible_nil visible_log visible_console
     visible_suspension visible_result meanwhile_noise stop_effects_noise app_nil_r
  : shown.

(** Two states with the same wallet and the same reading of the clock. *)
Definition same_time (w w' : world) : Prop :=
  loadedTokens w = loadedTokens w' /\ clock w = clock w'.

(** Two environments that answer and last alike; they may differ in the
    stop requests. *)
Definition same_answers (env env' : environment) : Prop :=
  (forall i token, reply env i token = reply env' i token)
  /\ (forall s, elapsed env s = elapsed env' s).

Lemma resumed_same (env env' : environment) (s : suspension) (w w' : world) :
  same_answers env env' -> same_time w w' ->
  same_time (resumed env s w) (resumed env' s w').
Proof.
  intros [_ Hel] [Htok Hclock]. unfold resumed, same_time. rewrite (Hel s).
  destruct (stop_requested env s), (stop_requested env' s); cbn; split; congruence.
Qed.

(** The state one turn of the loop leaves, and what it shows, given the
    Outcome [r] of the sign-in. *)
Definition step_state (env : environment) (token : string) (i : nat) (w : world) : world :=
  if verdict token (clock w) then resumed env (Sleep i DELAY_BETWEEN_ACCOUNTS_MS) w
  else
    let w1 := resumed env (AxiosPost i token) w in
    if Z.of_nat i <? Z.of_nat (List.length (loadedTokens w)) - 1
    then resumed env (Sleep i DELAY_BETWEEN_ACCOUNTS_MS) w1
    else w1.

Definition step_visible (token : string) (i : nat) (r : sign_result) (w : world)
  : list effect :=
  if verdict token (clock w) then
    [skip_result i; Await (Sleep i DELAY_BETWEEN_ACCOUNTS_MS)]
  else
    Await (AxiosPost i token) :: sign_result_event i r
    :: (if Z.of_nat i <? Z.of_nat (List.length (loadedTokens w)) - 1
        then [Await (Sleep i DELAY_BETWEEN_ACCOUNTS_MS)]
        else []).

Lemma account_step_exact
      (env : environment) (token : string) (i : nat) (w : world) (r : sign_result) :
  outcome (performSign StringToNumber JSON_stringify env token i w) = Normal r ->
  exists t,
    account_step jwt_decode StringToNumber JSON_stringify env token i w
    = (Normal tt, step_state env token i w, t)
    /\ visible t = step_visible token i r w.
Proof.
  intros Hr.
  destruct (gate_run jwt_decode token i w) as (b & tg & Hgate & Hquiet).
  assert (Hb : b = verdict token (clock w)).
  { pose proof (gate_outcome token i w) as H. rewrite Hgate in H.
    cbn [outcome fst] in H. congruence. }
  unfold account_step, step_state, step_visible. rewrite <- Hb.
  erewrite bind_run by reflexivity.
  rewrite (bind_run _ _ _ _ _ _ Hgate).
  destruct b.
  - erewrite bind_run by reflexivity.
    erewrite bind_run by reflexivity.
    unfold delay. rewrite await_run.
    cbn [outcome final effects fst snd].
    eexists. split; [reflexivity|].
    autorewrite with shown. rewrite Hquiet. reflexivity.
  - destruct (performSign_run StringToNumber JSON_stringify env token i w)
      as (r' & ts & Hsign & Hvis & _).
    rewrite Hsign in Hr. cbn [outcome fst] in Hr. injection Hr as ->.
    rewrite (bind_run _ _ _ _ _ _ Hsign).
    erewrite bind_run by reflexivity.
    erewrite bind_run by reflexivity.
    cbv beta. rewrite resumed_tokens.
    destruct (Z.of_nat i <? Z.of_nat (List.length (loadedTokens w)) - 1).
    + erewrite bind_run by reflexivity.
      unfold delay. rewrite await_run.
      cbn [outcome final effects fst snd].
      eexists. split; [reflexivity|].
      autorewrite with shown. rewrite Hquiet, Hvis. reflexivity.
    + cbn [outcome final effects fst snd ret].
      eexists. split; [reflexivity|].
      autorewrite with shown. rewrite Hquiet, Hvis. reflexivity.
Qed.

Lemma account_step_same
      (env env' : environment) (token : string) (i : nat) (w w' : world) :
  same_answers env env' -> same_time w w' ->
  exists w1 t1 w1' t1',
    account_step jwt_decode StringToNumber JSON_stringify env token i w
    = (Normal tt, w1, t1)
    /\ account_step jwt_decode StringToNumber JSON_stringify env' token i w'
       = (Normal tt, w1', t1')
    /\ same_time w1 w1'
    /\ visible t1 = visible t1'.
Proof.
  intros Hans Hsame.
  destruct (performSign_run StringToNumber JSON_stringify env token i w)
    as (r & ts & Hsign & _).
  assert (Hr : outcome (performSign StringToNumber JSON_stringify env token i w)
               = Normal r) by now rewrite Hsign.
  assert (Hr' : outcome (performSign StringToNumber JSON_stringify env' token i w')
                = Normal r).
  { rewrite <- Hr. symmetry. apply performSign_outcome_reply. apply Hans. }
  destruct (account_step_exact env token i w r Hr) as (t1 & Hstep & Hvis).
  destruct (account_step_exact env' token i w' r Hr') as (t1' & Hstep' & Hvis').
  exists (step_state env token i w), t1, (step_state env' token i w'), t1'.
  split; [exact Hstep|]. split; [exact Hstep'|].
  destruct Hsame as [Htok Hclock].
  split.
  - unfold step_state. rewrite Htok, Hclock.
    destruct (verdict token (clock w')).
    + apply resumed_same; [exact Hans | now split].
    + destruct (Z.of_nat i <? Z.of_nat (List.length (loadedTokens w')) - 1).
      * apply resumed_same; [exact Hans|]. apply resumed_same; [exact Hans | now split].
      * apply resumed_same; [exact Hans | now split].
  - rewrite Hvis, Hvis'. unfold step_visible. now rewrite Htok, Hclock.
Qed.

Lemma for_accounts_same (env env' : environment) (tokens : list string) :
  same_answers env env' ->
  forall (i : nat) (w w' : world),
    same_time w w' ->
    exists w1 t1 w1' t1',
      for_accounts jwt_decode StringToNumber JSON_stringify env tokens i w
      = (Normal tt, w1, t1)
      /\ for_accounts jwt_decode StringToNumber JSON_stringify env' tokens i w'
         = (Normal tt, w1', t1')
      /\ same_time w1 w1'
      /\ visible t1 = visible t1'.
Proof.
  intros Hans.
  induction tokens as [|token rest IH]; intros i w w' Hsame.
  - exists w, [], w', []. repeat split; apply Hsame.
  - destruct (account_step_same env env' token i w w' Hans Hsame)
      as (w1 & t1 & w1' & t1' & Hstep & Hstep' & Hsame1 & Hvis1).
    destruct (IH (S i) w1 w1' Hsame1)
      as (w2 & t2 & w2' & t2' & Hrest & Hrest' & Hsame2 & Hvis2).
    exists w2, (t1 ++ t2), w2', (t1' ++ t2'). cbn [for_accounts].
    rewrite (bind_run _ _ _ _ _ _ Hstep), (bind_run _ _ _ _ _ _ Hstep'), Hrest, Hrest'.
    cbn [outcome final effects fst snd].
    repeat split; try apply Hsame2.
    now rewrite !visible_app, Hvis1, Hvis2.
Qed.

(** The same environment with no stop request. *)
Definition without_stop (env : environment) : environment :=
  mkEnv (reply env) (elapsed env) (fun _ => false).

(** A cycle ends in the state its loop leaves, scheduled; what it shows is
    what its loop shows, then the final status update. *)
Lemma runCheckInCycle_shows (env : environment) (w : world) :
  exists w1 t1 t,
    for_accounts jwt_decode StringToNumber JSON_stringify env (loadedTokens w) 0
                 (set_botStatus RUNNING w)
    = (Normal tt, w1, t1)
    /\ runCheckInCycle jwt_decode StringToNumber JSON_stringify toLocaleString env w
       = (Normal tt, scheduled w1, t)
    /\ visible t
       = visible t1
         ++ [Emit (statusUpdate (List.length (loadedTokens w))
                                (Some (clock w1 + CHECK_INTERVAL_MS)) WAITING)].
Proof.
  unfold runCheckInCycle.
  rewrite (bind_run _ _ _ _ _ _ (updateBotStatus_run RUNNING w)).
  erewrite bind_run by reflexivity.
  erewrite bind_run by reflexivity.
  cbn [loadedTokens set_botStatus].
  destruct (for_accounts_run jwt_decode StringToNumber JSON_stringify env
                             (loadedTokens w) 0 (set_botStatus RUNNING w))
    as (w1 & t1 & Hloop & Htok & _).
  exists w1, t1.
  destruct (List.length (loadedTokens w) =? 0)%nat eqn:Hlen.
  - apply Nat.eqb_eq in Hlen.
    destruct (loadedTokens w) eqn:Hw; [|discriminate].
    cbn [for_accounts ret] in Hloop. injection Hloop as <- <-.
    erewrite bind_run by reflexivity.
    rewrite scheduleNextRun_run. cbn [outcome final effects fst snd].
    eexists. split; [reflexivity|]. split; [reflexivity|].
    cbn [loadedTokens set_botStatus clock]. rewrite Hw. reflexivity.
  - erewrite bind_run by reflexivity.
    rewrite (bind_run _ _ _ _ _ _ Hloop).
    erewrite bind_run by reflexivity.
    rewrite scheduleNextRun_run. cbn [outcome final effects fst snd].
    eexists. split; [exact Hloop|]. split; [reflexivity|].
    autorewrite with shown. cbn [app]. rewrite Htok. reflexivity.
Qed.

(** X12. Stop requests change nothing of what a cycle shows: with the
    same replies and durations, the results, the POSTs, the delays and the
    final status update to [WAITING] (with its [nextRunTimestamp]) are the
    same as in the cycle where nobody calls [stopBot]. *)
Theorem runCheckInCycle_stop_changes_nothing_visible (env : environment) (w : world) :
  visible (effects (runCheckInCycle jwt_decode StringToNumber JSON_stringify
                                    toLocaleString env w))
  = visible (effects (runCheckInCycle jwt_decode StringToNumber JSON_stringify
                                      toLocaleString (without_stop env) w)).
Proof.
  assert (Hans : same_answers env (without_stop env)) by (split; reflexivity).
  destruct (runCheckInCycle_shows env w) as (w1 & t1 & t & Hloop & Hrun & Hshown).
  destruct (runCheckInCycle_shows (without_stop env) w)
    as (w1' & t1' & t' & Hloop' & Hrun' & Hshown').
  rewrite Hrun, Hrun'. cbn [effects snd]. rewrite Hshown, Hshown'.
  destruct (for_accounts_same env (without_stop env) (loadedTokens w) Hans 0
                              (set_botStatus RUNNING w) (set_botStatus RUNNING w)
                              (conj eq_refl eq_refl))
    as (v1 & s1 & v1' & s1' & Hl & Hl' & [_ Hclock] & Hvis).
  rewrite Hloop in Hl. rewrite Hloop' in Hl'.
  injection Hl as <- <-. injection Hl' as <- <-.
  now rewrite Hvis, Hclock.
Qed.

(** Whatever every resumption keeps, the loop keeps. *)
Lemma for_accounts_keeps (P : world -> Prop) (env : environment) :
  (forall s w, P w -> P (resumed env s w)) ->
  forall (tokens : list string) (i : nat) (w : world),
    P w ->
    P (final (for_accounts jwt_decode StringToNumber JSON_stringify env tokens i w)).
Proof.
  intros Hkeep tokens.
  induction tokens as [|token rest IH]; intros i w Hw; [exact Hw|].
  destruct (performSign_run StringToNumber JSON_stringify env token i w)
    as (r & ts & Hsign & _).
  assert (Hr : outcome (performSign StringToNumber JSON_stringify env token i w)
               = Normal r) by now rewrite Hsign.
  destruct (account_step_exact env token i w r Hr) as (t1 & Hstep & _).
  cbn [for_accounts]. rewrite (bind_run _ _ _ _ _ _ Hstep). cbn [final fst snd].
  apply IH. unfold step_state.
  destruct (verdict token (clock w)); [now apply Hkeep|].
  destruct (Z.of_nat i <? Z.of_nat (List.length (loadedTokens w)) - 1);
    repeat apply Hkeep; exact Hw.
Qed.

End Outcomes.

(** ** Start-up and the timer: properties *)

Lemma Bbind_run {A C} (m : B A) (k : A -> B C) (w w1 : world) (a : A)
      (t1 : list boot_effect) :
  m w = (Normal a, w1, t1) ->
  Bbind m k w = (Boutcome (k a w1), Bfinal (k a w1), t1 ++ Beffects (k a w1)).
Proof.
  intros H. unfold Bbind. rewrite H.
  destruct (k a w1) as [[r w2] t2]. reflexivity.
Qed.

Lemma lift_run {A} (m : M A) (w w1 : world) (r : completion A) (t : list effect) :
  m w = (r, w1, t) -> lift m w = (r, w1, map Bot t).
Proof. intros H. unfold lift. now rewrite H. Qed.

(** The effects of the bot logic among those of start-up. *)
Definition bot_effects (t : list boot_effect) : list effect :=
  flat_map (fun x => match x with Bot e => [e] | Stdout _ => [] end) t.

Lemma bot_effects_app (t1 t2 : list boot_effect) :
  bot_effects (t1 ++ t2) = bot_effects t1 ++ bot_effects t2.
Proof. apply flat_map_app. Qed.

Lemma bot_effects_map (t : list effect) : bot_effects (map Bot t) = t.
Proof. induction t as [|x t IH]; simpl; [reflexivity | now rewrite IH]. Qed.

(** At most one timer is armed, and it is the one [checkIntervalId] holds. *)
Definition tidy (w : world) : Prop :=
  timers w = [] \/ exists t, timers w = [t] /\ checkIntervalId w = Some t.

Lemma stopped_timers (w : world) : tidy w -> timers (stopped w) = [].
Proof.
  intros [H | (t & H & Hid)]; unfold stopped; cbn [timers]; rewrite H.
  - now destruct (checkIntervalId w).
  - rewrite Hid. simpl. now rewrite Nat.eqb_refl.
Qed.

Lemma scheduled_timers (w : world) :
  tidy w ->
  timers (scheduled w) = [next_timer w]
  /\ checkIntervalId (scheduled w) = Some (next_timer w).
Proof.
  intros [H | (t & H & Hid)]; unfold scheduled; cbn [timers checkIntervalId]; rewrite H.
  - split; [|reflexivity]. now destruct (checkIntervalId w).
  - rewrite Hid. simpl. now rewrite Nat.eqb_refl.
Qed.

Lemma resumed_tidy (env : environment) (s : suspension) (w : world) :
  tidy w -> tidy (resumed env s w).
Proof.
  intros H. unfold resumed. destruct (stop_requested env s).
  - left. apply stopped_timers. exact H.
  - exact H.
Qed.

Section LifecycleFacts.

Variable jwt_decode : string -> completion jsval.
Variable StringToNumber : string -> option Z.
Variable JSON_stringify : jsval -> string.
Variable toLocaleString : Z -> string.
Variable TOKEN_FILE_PATH : string.


(** A cycle that starts tidy ends with exactly one timer armed. *)
Lemma runCheckInCycle_timers (env : environment) (w : world) :
  tidy w ->
  exists w1,
    final (runCheckInCycle jwt_decode StringToNumber JSON_stringify toLocaleString env w) = scheduled w1
    /\ timers (final (runCheckInCycle jwt_decode StringToNumber JSON_stringify toLocaleString env w)) = [next_timer w1]
    /\ checkIntervalId (final (runCheckInCycle jwt_decode StringToNumber JSON_stringify toLocaleString env w)) = Some (next_timer w1).
Proof.
  intros Htidy.
  destruct (runCheckInCycle_shows jwt_decode StringToNumber JSON_stringify toLocaleString
                                  env w)
    as (w1 & t1 & t & Hloop & Hrun & _).
  exists w1. rewrite Hrun. cbn [final fst snd]. split; [reflexivity|].
  apply scheduled_timers.
  pose proof (for_accounts_keeps jwt_decode StringToNumber JSON_stringify tidy env
                (resumed_tidy env) (loadedTokens w) 0 (set_botStatus RUNNING w) Htidy)
    as H.
  rewrite Hloop in H. exact H.
Qed.

(** What [startBot] does: it loads the keys, makes them the wallet, and
    runs the first cycle over them, or only schedules when there is none. *)
Lemma startBot_run (env : environment) (fs : Loader.wallet_file) (w : world) :
  exists keys w1 t1 t,
    Boutcome (Loader.loadApiKeys TOKEN_FILE_PATH fs (set_botStatus INITIALIZING w))
    = Normal keys
    /\ for_accounts jwt_decode StringToNumber JSON_stringify env keys 0
                    (set_botStatus RUNNING
                       (set_loadedTokens keys (set_botStatus INITIALIZING w)))
       = (Normal tt, w1, t1)
    /\ startBot jwt_decode StringToNumber JSON_stringify toLocaleString
             TOKEN_FILE_PATH env fs w = (Normal tt, scheduled w1, t)
    /\ visible (bot_effects t)
       = visible t1
         ++ [Emit (statusUpdate (List.length keys)
                                (Some (clock w1 + CHECK_INTERVAL_MS)) WAITING)].
Proof.
  destruct (loadApiKeys_keys_total TOKEN_FILE_PATH fs (set_botStatus INITIALIZING w))
    as (keys & tl & Hload & Hsilent).
  exists keys.
  destruct (runCheckInCycle_shows jwt_decode StringToNumber JSON_stringify toLocaleString
                                  env (set_loadedTokens keys (set_botStatus INITIALIZING w)))
    as (w1 & t1 & tc & Hloop & Hrun & Hshown).
  cbn [loadedTokens set_loadedTokens] in Hloop, Hshown.
  exists w1, t1.
  unfold startBot.
  erewrite Bbind_run by reflexivity.
  erewrite Bbind_run by (apply lift_run, updateBotStatus_run).
  rewrite (Bbind_run _ _ _ _ _ _ Hload).
  erewrite Bbind_run by reflexivity.
  erewrite Bbind_run by reflexivity.
  erewrite Bbind_run by reflexivity.
  erewrite Bbind_run by reflexivity.
  cbn [loadedTokens set_loadedTokens].
  destruct (0 <? List.length keys)%nat eqn:Hn.
  - erewrite Bbind_run by reflexivity.
    rewrite (lift_run _ _ _ _ _ Hrun).
    cbn [Boutcome Bfinal Beffects fst snd].
    eexists. rewrite Hload. split; [reflexivity|]. split; [exact Hloop|].
    split; [reflexivity|].
    change (visible (bot_effects tl) = []) in Hsilent.
    rewrite !bot_effects_app, !visible_app, !bot_effects_map, Hsilent, Hshown.
    reflexivity.
  - apply Nat.ltb_ge in Hn.
    destruct keys as [|k ks]; [|simpl in Hn; lia].
    cbn [for_accounts ret] in Hloop. injection Hloop as <- <-.
    erewrite Bbind_run by reflexivity.
    rewrite (lift_run _ _ _ _ _ (scheduleNextRun_run toLocaleString _)).
    cbn [Boutcome Bfinal Beffects fst snd].
    eexists. rewrite Hload. split; [reflexivity|]. split; [reflexivity|].
    split; [reflexivity|].
    change (visible (bot_effects tl) = []) in Hsilent.
    rewrite !bot_effects_app, !visible_app, Hsilent. reflexivity.
Qed.

Lemma loadApiKeys_any_state (fs : Loader.wallet_file) (w w' : world) :
  Boutcome (Loader.loadApiKeys TOKEN_FILE_PATH fs w)
  = Boutcome (Loader.loadApiKeys TOKEN_FILE_PATH fs w').
Proof.
  destruct fs as [[|] [raw|e]]; try reflexivity.
  destruct (LoaderFacts.loadApiKeys_read TOKEN_FILE_PATH raw w) as (l & -> & _).
  destruct (LoaderFacts.loadApiKeys_read TOKEN_FILE_PATH raw w') as (l' & -> & _).
  reflexivity.
Qed.

Lemma start_tidy (env : environment) (fs : Loader.wallet_file) (w : world) :
  tidy w -> tidy (Bfinal (startBot jwt_decode StringToNumber JSON_stringify toLocaleString
             TOKEN_FILE_PATH env fs w)).
Proof.
  intros Htidy.
  destruct (startBot_run env fs w) as (keys & w1 & t1 & t & _ & Hloop & Hrun & _).
  rewrite Hrun. cbn [Bfinal fst snd].
  assert (H1 : tidy w1).
  { pose proof (for_accounts_keeps jwt_decode StringToNumber JSON_stringify tidy env
                  (resumed_tidy env) keys 0
                  (set_botStatus RUNNING
                     (set_loadedTokens keys (set_botStatus INITIALIZING w))) Htidy) as H.
    rewrite Hloop in H. exact H. }
  right. exists (next_timer w1). apply scheduled_timers, H1.
Qed.

Lemma fires_run (env : environment) (t : timer) (w : world) :
  timer_fires jwt_decode StringToNumber JSON_stringify toLocaleString env t w
  = if existsb (Nat.eqb t) (timers w)
    then runCheckInCycle jwt_decode StringToNumber JSON_stringify toLocaleString env (set_timers (filter (fun x => negb (Nat.eqb x t)) (timers w))
                               (next_timer w) w)
    else (Normal tt, w, []).
Proof.
  unfold timer_fires.
  erewrite bind_run by reflexivity.
  destruct (existsb (Nat.eqb t) (timers w)).
  - erewrite bind_run by reflexivity. cbn [app].
    now destruct (runCheckInCycle _ _ _ _ _ _) as [[r w1] t1].
  - reflexivity.
Qed.

Lemma fires_tidy (env : environment) (t : timer) (w : world) :
  tidy w -> tidy (final (timer_fires jwt_decode StringToNumber JSON_stringify toLocaleString env t w)).
Proof.
  intros Htidy. rewrite fires_run.
  destruct (existsb (Nat.eqb t) (timers w)); [|exact Htidy].
  set (w0 := set_timers (filter (fun x => negb (Nat.eqb x t)) (timers w))
                        (next_timer w) w).
  assert (H0 : tidy w0).
  { destruct Htidy as [H | (t0 & H & Hid)].
    - left. unfold w0. cbn [timers set_timers]. now rewrite H.
    - unfold w0, tidy. cbn [timers set_timers checkIntervalId]. rewrite H. simpl.
      destruct (negb (Nat.eqb t0 t)); [right; exists t0; now split | now left]. }
  destruct (runCheckInCycle_timers env w0 H0) as (w1 & _ & Htimers & Hid).
  right. exists (next_timer w1). now split.
Qed.

(** The bot as the module is loaded: nothing scheduled, no token. *)
Definition loaded_module (now : Z) (fresh : timer) : world :=
  mkWorld None None IDLE [] now [] fresh.

(** The states the bot is in between the calls made on it: [startBot],
    [stopBot] and the firing of a timer, whatever the environment does
    during the cycles; meanwhile time passes. *)
Inductive reachable : world -> Prop :=
| reach_loaded (now : Z) (fresh : timer) : reachable (loaded_module now fresh)
| reach_start (env : environment) (fs : Loader.wallet_file) (w : world) :
    reachable w -> reachable (Bfinal (startBot jwt_decode StringToNumber JSON_stringify toLocaleString
             TOKEN_FILE_PATH env fs w))
| reach_stop (w : world) : reachable w -> reachable (final (stopBot w))
| reach_timer (env : environment) (t : timer) (w : world) :
    reachable w -> reachable (final (timer_fires jwt_decode StringToNumber JSON_stringify toLocaleString env t w))
| reach_later (now : Z) (w : world) : reachable w -> reachable (set_clock now w).

Lemma reachable_tidy (w : world) : reachable w -> tidy w.
Proof.
  induction 1 as [now fresh | env fs w _ IH | w _ IH | env t w _ IH | now w _ IH].
  - now left.
  - now apply start_tidy.
  - left. rewrite stopBot_run. cbn [final fst snd]. now apply stopped_timers.
  - now apply fires_tidy.
  - exact IH.
Qed.

Lemma shape_result_indices (len j : nat) (tokens : list string) (body : list effect) :
  cycle_shape len j tokens body ->
  map result_index (filter is_result body) = map Some (seq j (List.length tokens)).
Proof.
  induction 1 as [i | i token rest t _ IH | i token rest r t _ _ IH].
  - reflexivity.
  - cbn. now rewrite IH.
  - cbn [filter is_result sign_result_event map result_index List.length seq].
    rewrite filter_app.
    destruct (Z.of_nat i <? Z.of_nat len - 1); cbn; now rewrite IH.
Qed.

(** X13. In every state the bot can be in between calls, at most one
    timer is armed, and it is the one [checkIntervalId] holds. *)
Theorem at_most_one_timer (w : world) :
  reachable w ->
  (List.length (timers w) <= 1)%nat
  /\ (forall t, In t (timers w) -> checkIntervalId w = Some t).
Proof.
  intros Hreach. destruct (reachable_tidy w Hreach) as [H | (t & H & Hid)]; rewrite H.
  - split; [simpl; lia | intros t []].
  - split; [simpl; lia|]. intros t' [<- | []]. exact Hid.
Qed.

(** X14. After [stopBot] no timer is armed, so that no timer that was
    set before can start a cycle any more: its firing does nothing. *)
Theorem stopBot_cancels_the_next_cycle (w : world) :
  reachable w ->
  timers (final (stopBot w)) = []
  /\ forall env t, timer_fires jwt_decode StringToNumber JSON_stringify toLocaleString env t (final (stopBot w)) = (Normal tt, final (stopBot w), []).
Proof.
  intros Hreach.
  assert (H : timers (final (stopBot w)) = []).
  { rewrite stopBot_run. cbn [final fst snd].
    apply stopped_timers, reachable_tidy, Hreach. }
  split; [exact H|]. intros env t. rewrite fires_run, H. reflexivity.
Qed.

(** X15. When the wallet yields no key (no file, a file that cannot be
    read, a file without keys), [startBot] makes no POST and takes no
    delay: all it shows is the status update to [WAITING]; it leaves the
    wallet empty and the next cycle due [CHECK_INTERVAL_MS] from now, one
    timer armed. *)
Theorem startBot_without_keys
        (env : environment) (fs : Loader.wallet_file) (w : world) :
  Boutcome (Loader.loadApiKeys TOKEN_FILE_PATH fs w) = Normal [] ->
  let run := startBot jwt_decode StringToNumber JSON_stringify toLocaleString
             TOKEN_FILE_PATH env fs w in
  Boutcome run = Normal tt
  /\ visible (bot_effects (Beffects run))
     = [Emit (statusUpdate 0 (Some (clock w + CHECK_INTERVAL_MS)) WAITING)]
  /\ loadedTokens (Bfinal run) = []
  /\ botStatus (Bfinal run) = WAITING
  /\ nextRunTimestamp (Bfinal run) = Some (clock w + CHECK_INTERVAL_MS)
  /\ exists t, checkIntervalId (Bfinal run) = Some t /\ In t (timers (Bfinal run)).
Proof.
  intros Hnone run. subst run.
  destruct (startBot_run env fs w) as (keys & w1 & t1 & t & Hkeys & Hloop & Hrun & Hvis).
  rewrite (loadApiKeys_any_state fs _ w), Hnone in Hkeys. injection Hkeys as <-.
  cbn [for_accounts ret] in Hloop. injection Hloop as <- <-.
  rewrite Hrun. cbn [Boutcome Bfinal Beffects fst snd].
  split; [reflexivity|]. split; [exact Hvis|].
  repeat split. exists (next_timer w). split; [reflexivity | now left].
Qed.

(** X16. [startBot] makes the keys of the wallet file the tokens of the
    bot and runs the first cycle over them: it returns normally, the bot
    [WAITING], after one [checkinResult] per key, in the order of the
    file, every POST carrying the key of its index. *)
Theorem startBot_first_cycle
        (env : environment) (fs : Loader.wallet_file) (w : world) :
  let run := startBot jwt_decode StringToNumber JSON_stringify toLocaleString
             TOKEN_FILE_PATH env fs w in
  exists keys,
    Boutcome (Loader.loadApiKeys TOKEN_FILE_PATH fs w) = Normal keys
    /\ Boutcome run = Normal tt
    /\ loadedTokens (Bfinal run) = keys
    /\ botStatus (Bfinal run) = WAITING
    /\ map result_index (filter is_result (bot_effects (Beffects run)))
       = map Some (seq 0 (List.length keys))
    /\ (forall i token,
           In (Bot (Await (AxiosPost i token))) (Beffects run) ->
           nth_error keys i = Some token).
Proof.
  cbv zeta.
  destruct (startBot_run env fs w) as (keys & w1 & t1 & t & Hkeys & Hloop & Hrun & Hvis).
  exists keys. rewrite (loadApiKeys_any_state fs _ w) in Hkeys.
  split; [exact Hkeys|].
  destruct (for_accounts_run jwt_decode StringToNumber JSON_stringify env keys 0
              (set_botStatus RUNNING
                 (set_loadedTokens keys (set_botStatus INITIALIZING w))))
    as (w1' & t1' & Hloop' & Htok & Hshape).
  rewrite Hloop in Hloop'. injection Hloop' as <- <-.
  cbn [loadedTokens set_botStatus set_loadedTokens] in Htok, Hshape.
  rewrite Hrun. cbn [Boutcome Bfinal Beffects fst snd].
  split; [reflexivity|]. split; [exact Htok|]. split; [reflexivity|].
  assert (Hres : forall x, is_result x = true -> noise x = false).
  { intros x Hx. apply marks_visible. now rewrite Hx. }
  split.
  - rewrite (filter_visible _ Hres), Hvis, filter_app. cbn [filter is_result].
    rewrite app_nil_r. apply (shape_result_indices _ _ _ _ Hshape).
  - intros i token Hin.
    assert (Hin' : In (Await (AxiosPost i token)) (bot_effects t)).
    { unfold bot_effects. apply in_flat_map.
      exists (Bot (Await (AxiosPost i token))). split; [exact Hin | now left]. }
    apply (in_visible (Await (AxiosPost i token)) _ eq_refl) in Hin'.
    rewrite Hvis in Hin'.
    apply in_app_or in Hin'. destruct Hin' as [Hin' | [Hin' | []]]; [|discriminate].
    destruct (shape_posts _ _ _ _ Hshape i token Hin') as [_ Hnth].
    now rewrite Nat.sub_0_r in Hnth.
Qed.

End LifecycleFacts.

(** ** The dashboard: properties *)

Module UIFacts.

(** The intervals armed are the one the dashboard remembers, if any. *)
Definition armed_as_recorded (d : UI.dashboard) : Prop :=
  UI.intervals d = match UI.statusUpdateInterval d with
                   | Some id => [id]
                   | None => []
                   end.

(** The dashboard shows the state of the bot: same count of tokens, same
    next run, same status; and its countdown interval runs exactly while
    the bot is [WAITING]. *)
Definition agrees (d : UI.dashboard) (w : world) : Prop :=
  UI.currentStatus d
  = UI.mkStatus (List.length (loadedTokens w)) (nextRunTimestamp w) (botStatus w)
  /\ (UI.statusUpdateInterval d <> None <-> botStatus w = WAITING).

(** The dashboard after the events among the effects [t] have reached it,
    the effect at position [k] at the moment [moments k]. *)
Fixpoint shown (chalk : UI.chalk_lib) (moments : nat -> UI.moment) (k : nat)
         (t : list effect) (d : UI.dashboard) : UI.dashboard :=
  match t with
  | [] => d
  | Emit e :: rest => shown chalk moments (S k) rest (UI.deliver chalk (moments k) e d)
  | _ :: rest => shown chalk moments (S k) rest d
  end.

Lemma shown_app (chalk : UI.chalk_lib) (moments : nat -> UI.moment)
      (t1 t2 : list effect) :
  forall k d,
    shown chalk moments k (t1 ++ t2) d
    = shown chalk moments (k + List.length t1) t2 (shown chalk moments k t1 d).
Proof.
  induction t1 as [|x t1 IH]; intros k d.
  - simpl. now rewrite Nat.add_0_r.
  - cbn [app shown List.length].
    replace (k + S (List.length t1))%nat with (S k + List.length t1)%nat by lia.
    destruct x as [e|s|l v]; apply IH.
Qed.

Lemma status_eqb_eq (a b : status) : UI.status_eqb a b = true <-> a = b.
Proof. destruct a, b; simpl; split; congruence. Qed.

Lemma updateStatusInfoBox_keeps (chalk : UI.chalk_lib) (m : UI.moment) (d : UI.dashboard) :
  let d' := UI.updateStatusInfoBox chalk m d in
  UI.currentStatus d' = UI.currentStatus d
  /\ UI.statusUpdateInterval d' = UI.statusUpdateInterval d
  /\ UI.intervals d' = UI.intervals d
  /\ UI.next_interval d' = UI.next_interval d
  /\ UI.loadedTokenDetails d' = UI.loadedTokenDetails d.
Proof.
  cbv zeta. unfold UI.updateStatusInfoBox.
  destruct (UI.components d); repeat split.
Qed.

Lemma handleLogEvent_keeps (chalk : UI.chalk_lib) (m : UI.moment) (level message : string)
      (d : UI.dashboard) :
  let d' := UI.handleLogEvent chalk m level message d in
  UI.currentStatus d' = UI.currentStatus d
  /\ UI.statusUpdateInterval d' = UI.statusUpdateInterval d
  /\ UI.intervals d' = UI.intervals d.
Proof.
  cbv zeta. unfold UI.handleLogEvent.
  destruct (UI.components d) as [c|]; [|repeat split].
  destruct (if String.eqb level "info" then _ else _) as [line lines].
  repeat split.
Qed.

Lemma handleStatusUpdate_run (chalk : UI.chalk_lib) (m : UI.moment)
      (sd : UI.statusData) (d : UI.dashboard) :
  let d' := UI.handleStatusUpdate chalk m sd d in
  UI.currentStatus d' = sd
  /\ (UI.statusUpdateInterval d' <> None <-> UI.botStatus sd = WAITING)
  /\ (armed_as_recorded d -> armed_as_recorded d').
Proof.
  cbv zeta. unfold UI.handleStatusUpdate.
  destruct (updateStatusInfoBox_keeps chalk m (UI.set_currentStatus sd d))
    as (Hst & Hint & Hlist & _).
  set (d1 := UI.updateStatusInfoBox chalk m (UI.set_currentStatus sd d)) in *.
  cbn [UI.currentStatus UI.set_currentStatus UI.statusUpdateInterval UI.intervals]
    in Hst, Hint, Hlist.
  unfold armed_as_recorded. rewrite Hst.
  destruct (UI.statusUpdateInterval d1) as [id|] eqn:Hid;
    destruct (UI.status_eqb (UI.botStatus sd) WAITING) eqn:Hw;
    cbn [negb UI.currentStatus UI.statusUpdateInterval UI.intervals];
    rewrite ?Hid, ?Hlist, <- ?Hint;
    (split; [try exact Hst; try reflexivity|]);
    (split; [split; intros H; try congruence; try (now apply status_eqb_eq);
             try (apply status_eqb_eq in H; congruence)|]).
  - trivial.
  - intros ->. simpl. now rewrite Nat.eqb_refl.
  - now intros ->.
  - trivial.
Qed.

End UIFacts.

(** X17. After [handleStatusUpdate] the dashboard holds the status it was
    given, and its countdown interval is armed exactly when that status is
    [WAITING]; if the only interval armed before was the one the dashboard
    remembered, the same holds after: none is leaked, none is doubled. *)
Theorem handleStatusUpdate_interval
        (chalk : UI.chalk_lib) (m : UI.moment) (sd : UI.statusData) (d : UI.dashboard) :
  UIFacts.armed_as_recorded d ->
  let d' := UI.handleStatusUpdate chalk m sd d in
  UI.currentStatus d' = sd
  /\ (UI.statusUpdateInterval d' <> None <-> UI.botStatus sd = WAITING)
  /\ (List.length (UI.intervals d') <= 1)%nat
  /\ UIFacts.armed_as_recorded d'.
Proof.
  intros Harmed d'.
  destruct (UIFacts.handleStatusUpdate_run chalk m sd d) as (Hst & Hiff & Hkeep).
  fold d' in Hst, Hiff, Hkeep. specialize (Hkeep Harmed).
  repeat split; try assumption; try apply Hiff.
  rewrite Hkeep. destruct (UI.statusUpdateInterval d'); simpl; lia.
Qed.

Section Endings.

Variable jwt_decode : string -> completion jsval.
Variable StringToNumber : string -> option Z.
Variable JSON_stringify : jsval -> string.
Variable toLocaleString : Z -> string.
Variable TOKEN_FILE_PATH : string.

(** The last thing a cycle emits is what [scheduleNextRun] emits. *)
Lemma runCheckInCycle_ends (env : environment) (w : world) :
  exists w1 t0 l1 l2,
    runCheckInCycle jwt_decode StringToNumber JSON_stringify toLocaleString env w
    = (Normal tt, scheduled w1,
       t0 ++ [Emit (statusUpdate (List.length (loadedTokens w1))
                                 (Some (clock w1 + CHECK_INTERVAL_MS)) WAITING);
              Emit (log "info" l1); Emit (log "wait" l2)]).
Proof.
  unfold runCheckInCycle.
  rewrite (bind_run _ _ _ _ _ _ (updateBotStatus_run RUNNING w)).
  erewrite bind_run by reflexivity.
  erewrite bind_run by reflexivity.
  cbn [loadedTokens set_botStatus].
  destruct (List.length (loadedTokens w) =? 0)%nat.
  - erewrite bind_run by reflexivity.
    rewrite scheduleNextRun_run. cbn [outcome final effects fst snd].
    eexists _, _, _, _. f_equal. rewrite !app_assoc. reflexivity.
  - erewrite bind_run by reflexivity.
    destruct (for_accounts_run jwt_decode StringToNumber JSON_stringify env
                               (loadedTokens w) 0 (set_botStatus RUNNING w))
      as (w1 & t1 & Hloop & _).
    rewrite (bind_run _ _ _ _ _ _ Hloop).
    erewrite bind_run by reflexivity.
    rewrite scheduleNextRun_run. cbn [outcome final effects fst snd].
    eexists _, _, _, _. f_equal. rewrite !app_assoc. reflexivity.
Qed.

Lemma startBot_ends (env : environment) (fs : Loader.wallet_file) (w : world) :
  exists w1 t0 l1 l2,
    Bfinal (startBot jwt_decode StringToNumber JSON_stringify toLocaleString
                     TOKEN_FILE_PATH env fs w) = scheduled w1
    /\ bot_effects (Beffects (startBot jwt_decode StringToNumber JSON_stringify
                                       toLocaleString TOKEN_FILE_PATH env fs w))
       = t0 ++ [Emit (statusUpdate (List.length (loadedTokens w1))
                                   (Some (clock w1 + CHECK_INTERVAL_MS)) WAITING);
                Emit (log "info" l1); Emit (log "wait" l2)].
Proof.
  destruct (loadApiKeys_keys_total TOKEN_FILE_PATH fs (set_botStatus INITIALIZING w))
    as (keys & tl & Hload & _).
  unfold startBot.
  erewrite Bbind_run by reflexivity.
  erewrite Bbind_run by (apply lift_run, updateBotStatus_run).
  rewrite (Bbind_run _ _ _ _ _ _ Hload).
  erewrite Bbind_run by reflexivity.
  erewrite Bbind_run by reflexivity.
  erewrite Bbind_run by reflexivity.
  erewrite Bbind_run by reflexivity.
  cbn [loadedTokens set_loadedTokens].
  destruct (0 <? List.length keys)%nat.
  - erewrite Bbind_run by reflexivity.
    destruct (runCheckInCycle_ends env
                (set_loadedTokens keys (set_botStatus INITIALIZING w)))
      as (w1 & t0 & l1 & l2 & Hrun).
    rewrite (lift_run _ _ _ _ _ Hrun).
    cbn [Boutcome Bfinal Beffects fst snd].
    exists w1. eexists _, l1, l2. split; [reflexivity|].
    rewrite !bot_effects_app, !bot_effects_map, !app_assoc. reflexivity.
  - erewrite Bbind_run by reflexivity.
    rewrite (lift_run _ _ _ _ _ (scheduleNextRun_run toLocaleString _)).
    cbn [Boutcome Bfinal Beffects fst snd].
    eexists _, _, _, _. split; [reflexivity|].
    rewrite !bot_effects_app, !bot_effects_map, !app_assoc. reflexivity.
Qed.

End Endings.

Module UIFacts2.

Import UIFacts.

Definition is_log_emit (x : effect) : bool :=
  match x with
  | Emit (log _ _) => true
  | _ => false
  end.

(** Log events change neither the status the dashboard holds nor its
    interval. *)
Lemma shown_logs (chalk : UI.chalk_lib) (moments : nat -> UI.moment) (t : list effect) :
  forallb is_log_emit t = true ->
  forall k d,
    UI.currentStatus (shown chalk moments k t d) = UI.currentStatus d
    /\ UI.statusUpdateInterval (shown chalk moments k t d) = UI.statusUpdateInterval d.
Proof.
  induction t as [|x t IH]; intros Hlogs k d; [now split|].
  cbn [forallb] in Hlogs. apply andb_true_iff in Hlogs. destruct Hlogs as [Hx Ht].
  destruct x as [[l m|n next st|i ok msg r dup]|s|l v]; try discriminate.
  cbn [shown UI.deliver].
  destruct (IH Ht (S k) (UI.handleLogEvent chalk (moments k) l m d)) as [H1 H2].
  destruct (handleLogEvent_keeps chalk (moments k) l m d) as (H3 & H4 & _).
  split; congruence.
Qed.

(** After effects that end in a status update followed by log events only,
    the dashboard holds that update. *)
Lemma shown_last_update (chalk : UI.chalk_lib) (moments : nat -> UI.moment)
      (t0 logs : list effect) (n : nat) (next : option Z) (st : status)
      (k : nat) (d : UI.dashboard) :
  forallb is_log_emit logs = true ->
  let d' := shown chalk moments k (t0 ++ Emit (statusUpdate n next st) :: logs) d in
  UI.currentStatus d' = UI.mkStatus n next st
  /\ (UI.statusUpdateInterval d' <> None <-> st = WAITING).
Proof.
  intros Hlogs d'. subst d'. rewrite shown_app. cbn [shown UI.deliver].
  set (d0 := shown chalk moments k t0 d).
  destruct (handleStatusUpdate_run chalk (moments (k + List.length t0)%nat)
                                   (UI.mkStatus n next st) d0) as (H1 & H2 & _).
  destruct (shown_logs chalk moments logs Hlogs (S (k + List.length t0))
              (UI.handleStatusUpdate chalk (moments (k + List.length t0)%nat)
                                     (UI.mkStatus n next st) d0)) as [H3 H4].
  rewrite H3, H4. split; [exact H1 | exact H2].
Qed.

End UIFacts2.

(** X18. The dashboard follows the bot: once the events of [stopBot], of
    a whole cycle (whatever happens during it) or of [startBot] have
    reached it, the status it holds is the state the bot is left in (count
    of tokens, next run, status), and its countdown interval runs exactly
    when the bot is [WAITING]. *)
Theorem dashboard_follows_the_bot
        (jwt_decode : string -> completion jsval)
        (StringToNumber : string -> option Z)
        (JSON_stringify : jsval -> string)
        (toLocaleString : Z -> string)
        (TOKEN_FILE_PATH : string)
        (chalk : UI.chalk_lib) (moments : nat -> UI.moment) (k : nat) (d : UI.dashboard)
        (env : environment) (fs : Loader.wallet_file) (w : world) :
  let stop := stopBot w in
  let cycle := runCheckInCycle jwt_decode StringToNumber JSON_stringify toLocaleString
                               env w in
  let start := startBot jwt_decode StringToNumber JSON_stringify toLocaleString
                        TOKEN_FILE_PATH env fs w in
  UIFacts.agrees (UIFacts.shown chalk moments k (effects stop) d) (final stop)
  /\ UIFacts.agrees (UIFacts.shown chalk moments k (effects cycle) d) (final cycle)
  /\ UIFacts.agrees (UIFacts.shown chalk moments k (bot_effects (Beffects start)) d)
                    (Bfinal start).
Proof.
  cbv zeta. unfold UIFacts.agrees. split; [|split].
  - rewrite stopBot_run. cbn [effects final fst snd]. unfold stop_effects.
    apply UIFacts2.shown_last_update. reflexivity.
  - destruct (runCheckInCycle_ends jwt_decode StringToNumber JSON_stringify
                                   toLocaleString env w) as (w1 & t0 & l1 & l2 & ->).
    cbn [effects final fst snd].
    apply UIFacts2.shown_last_update. reflexivity.
  - destruct (startBot_ends jwt_decode StringToNumber JSON_stringify toLocaleString
                            TOKEN_FILE_PATH env fs w)
      as (w1 & t0 & l1 & l2 & -> & ->).
    apply UIFacts2.shown_last_update. reflexivity.
Qed.

(** ** Results and log lines on the dashboard *)

Module UIFacts3.

Lemma findIndex_nth (i : nat) (details : list UI.tokenData) :
  forall k, UI.findIndex i details = Some k ->
            exists t, nth_error details k = Some t /\ UI.index t = i.
Proof.
  induction details as [|u rest IH]; intros k; simpl; [discriminate|].
  destruct (Nat.eqb (UI.index u) i) eqn:Hu.
  - intros [= <-]. exists u. split; [reflexivity | now apply Nat.eqb_eq].
  - destruct (UI.findIndex i rest) as [k'|]; [|discriminate].
    intros [= <-]. apply (IH k' eq_refl).
Qed.

Lemma nth_assign (v : UI.tokenData) (details : list UI.tokenData) :
  forall k t, nth_error details k = Some t ->
              nth_error (UI.assign k v details) k = Some v.
Proof.
  induction details as [|u rest IH]; intros [|k] t; simpl; try discriminate.
  - reflexivity.
  - apply IH.
Qed.

(** The status the dashboard shows for the account of a result. *)
Lemma handleCheckinResult_status
      (chalk : UI.chalk_lib) (m : UI.moment) (i : nat) (ok : bool) (msg : string)
      (r : jsval) (dup : bool) (d : UI.dashboard) (k : nat) :
  UI.findIndex i (UI.loadedTokenDetails d) = Some k ->
  exists t,
    nth_error (UI.loadedTokenDetails d) k = Some t
    /\ nth_error (UI.loadedTokenDetails (UI.handleCheckinResult chalk m i ok msg r dup d)) k
       = Some (UI.mkToken (UI.index t) (UI.maskedToken t)
                          (UI.result_status ok msg dup (UI.status_ t))).
Proof.
  intros Hk. destruct (findIndex_nth i _ k Hk) as (t & Hnth & _).
  exists t. split; [exact Hnth|].
  unfold UI.handleCheckinResult. rewrite Hk, Hnth.
  destruct (UIFacts.updateStatusInfoBox_keeps chalk m
              (UI.set_loadedTokenDetails
                 (UI.assign k (UI.mkToken (UI.index t) (UI.maskedToken t)
                                          (UI.result_status ok msg dup (UI.status_ t)))
                            (UI.loadedTokenDetails d)) d))
    as (_ & _ & _ & _ & ->).
  cbn [UI.loadedTokenDetails UI.set_loadedTokenDetails].
  now apply (nth_assign _ _ k t).
Qed.

End UIFacts3.

Section Classification.

Variable StringToNumber : string -> option Z.
Variable JSON_stringify : jsval -> string.

(** The message of a failed sign-in is never the one of a skipped token. *)
Lemma performSign_message (env : environment) (token : string) (i : nat) (w : world) :
  exists r,
    outcome (performSign StringToNumber JSON_stringify env token i w) = Normal r
    /\ (isDuplicate r = true -> success r = true)
    /\ (success r = false -> String.eqb (message r) "Token Expired/Invalid" = false).
Proof.
  unfold performSign, try_catch, bind, emit, perform, ret.
  cbv beta iota zeta.
  rewrite axios_post_run.
  destruct (reply env i token) as [response|error]; cbv beta iota zeta.
  - repeat match goal with
           | |- context [if ?c then _ else _] => destruct c
           end;
      cbv beta iota zeta;
      (eexists; split; [reflexivity|]; split; cbn [success isDuplicate message];
       intros; first [reflexivity | discriminate]).
  - eexists; split; [reflexivity|]; split; cbn [success isDuplicate message];
      intros; first [reflexivity | discriminate].
Qed.

(** X19. On a dashboard that lists the account, the result of a skipped
    token shows as ["Expired 🚨"], and the Outcome of a sign-in shows as
    ["Checked ✅"], ["Done Today ⚠️"] or ["Failed ❌"] by its flags: a failed
    sign-in is never shown as an expired token. *)
Theorem dashboard_result_status
        (chalk : UI.chalk_lib) (m : UI.moment) (d : UI.dashboard) (k : nat)
        (env : environment) (token : string) (i : nat) (w : world) :
  UI.findIndex i (UI.loadedTokenDetails d) = Some k ->
  let status_after e :=
    option_map UI.status_ (nth_error (UI.loadedTokenDetails (UI.deliver chalk m e d)) k) in
  status_after (checkinResult i false "Token Expired/Invalid" (VNum 0) false)
  = Some "Expired 🚨"%string
  /\ exists r,
      outcome (performSign StringToNumber JSON_stringify env token i w) = Normal r
      /\ status_after (checkinResult i (success r) (message r) (reward r) (isDuplicate r))
         = Some (if isDuplicate r then "Done Today ⚠️"
                 else if success r then "Checked ✅" else "Failed ❌")%string.
Proof.
  intros Hk status_after. subst status_after. cbn [UI.deliver]. split.
  - destruct (UIFacts3.handleCheckinResult_status chalk m i false
                "Token Expired/Invalid" (VNum 0) false d k Hk) as (t & _ & ->).
    reflexivity.
  - destruct (performSign_message env token i w) as (r & Hr & Hdup & Hmsg).
    exists r. split; [exact Hr|].
    destruct (UIFacts3.handleCheckinResult_status chalk m i (success r) (message r)
                (reward r) (isDuplicate r) d k Hk) as (t & _ & ->).
    cbn [option_map UI.status_]. f_equal. unfold UI.result_status.
    destruct (isDuplicate r) eqn:Hd.
    + rewrite (Hdup eq_refl). reflexivity.
    + destruct (success r) eqn:Hs; [reflexivity|].
      rewrite (Hmsg eq_refl). reflexivity.
Qed.

End Classification.

(** ** The text of the messages *)

Module Text.

Local Open Scope string_scope.

Definition digit (a : ascii) : bool :=
  match uint_of_char a (Some Decimal.Nil) with
  | Some _ => true
  | None => false
  end.

Fixpoint all_units (p : ascii -> bool) (s : string) : bool :=
  match s with
  | "" => true
  | String a r => p a && all_units p r
  end.

Lemma uint_digits (d : Decimal.uint) : all_units digit (NilEmpty.string_of_uint d) = true.
Proof. induction d; simpl; auto. Qed.

Lemma show_uint_digits (d : Decimal.uint) : all_units digit (NilZero.string_of_uint d) = true.
Proof. destruct d; try reflexivity; apply (uint_digits (_ d)). Qed.

Lemma show_nat_digits (n : nat) : all_units digit (JS.show_nat n) = true.
Proof. apply show_uint_digits. Qed.

(** The unit [c1] occurs in [s] with [c2] right after it. *)
Fixpoint has_pair (c1 c2 : ascii) (s : string) : bool :=
  match s with
  | "" => false
  | String a r =>
      (Ascii.eqb a c1 && match r with
                         | String b _ => Ascii.eqb b c2
                         | "" => false
                         end)
      || has_pair c1 c2 r
  end.

Lemma has_pair_digits (c1 c2 : ascii) (rest : string) :
  digit c1 = false ->
  forall ds, all_units digit ds = true ->
             has_pair c1 c2 (ds ++ rest) = has_pair c1 c2 rest.
Proof.
  intros Hc. induction ds as [|a ds IH]; intros Hds; [reflexivity|].
  cbn [all_units] in Hds. apply andb_true_iff in Hds. destruct Hds as [Ha Hds].
  cbn [append has_pair]. rewrite (IH Hds).
  destruct (Ascii.eqb_spec a c1) as [->|_]; [congruence | reflexivity].
Qed.

Lemma substring_pair (c1 c2 : ascii) (rest : string) :
  forall msg m n,
    substring m (S (S n)) msg = String c1 (String c2 rest) ->
    has_pair c1 c2 msg = true.
Proof.
  induction msg as [|a r IH]; intros m n; destruct m as [|m]; cbn [substring has_pair];
    try discriminate.
  - destruct r as [|b r']; cbn [substring]; [discriminate|].
    intros [= -> -> _]. now rewrite !Ascii.eqb_refl.
  - intros H. rewrite (IH m n H). apply orb_true_r.
Qed.

(** A message that includes a needle, has its first two units in a row. *)
Lemma includes_pair (c1 c2 : ascii) (rest msg : string) :
  UI.includes (String c1 (String c2 rest)) msg = true -> has_pair c1 c2 msg = true.
Proof.
  unfold UI.includes.
  destruct (String.index 0 (String c1 (String c2 rest)) msg) as [m|] eqn:Hm;
    [intros _ | discriminate].
  apply index_correct1 in Hm. cbn [String.length] in Hm.
  exact (substring_pair c1 c2 rest msg m _ Hm).
Qed.

Lemma substring_mid (a needle b : string) :
  substring (String.length a) (String.length needle) (a ++ needle ++ b) = needle.
Proof.
  induction a as [|x a IH]; [|exact IH].
  cbn [String.length append]. induction needle as [|y needle IHn].
  - now destruct b.
  - cbn [String.length append substring]. now rewrite IHn.
Qed.

Lemma includes_intro (a needle b : string) :
  needle <> "" -> UI.includes needle (a ++ needle ++ b) = true.
Proof.
  intros Hne. unfold UI.includes.
  destruct (String.index 0 needle (a ++ needle ++ b)) eqn:Hm; [reflexivity|].
  exfalso.
  apply (index_correct3 0 (String.length a) needle _ Hm Hne (Nat.le_0_l _)).
  apply substring_mid.
Qed.

End Text.

(** ** The Success Log pane *)

Module SuccessLog.

Local Open Scope Z_scope.

(** The number of lines in the Success Log. *)
Definition lines (d : UI.dashboard) : nat :=
  match UI.components d with
  | Some c => List.length (UI.successLog c)
  | None => 0
  end.

(** The log events [handleLogEvent] copies to the Success Log. *)
Definition adds_line (x : effect) : bool :=
  match x with
  | Emit (log level message) =>
      (String.eqb level "success" && UI.includes "Sign-in successful" message)
      || (String.eqb level "warn" && UI.includes "Already checked in" message)
  | _ => false
  end.

(** The results with [success: true]. *)
Definition good_result (x : effect) : bool :=
  match x with
  | Emit (checkinResult _ true _ _ _) => true
  | _ => false
  end.

Definition successes (t : list effect) : nat := List.length (filter good_result t).

Definition weight (x : effect) : Z :=
  (if adds_line x then 1 else 0) - (if good_result x then 1 else 0).

Fixpoint balance (t : list effect) : Z :=
  match t with
  | [] => 0
  | x :: rest => weight x + balance rest
  end.

Lemma balance_app (t1 t2 : list effect) : balance (t1 ++ t2) = balance t1 + balance t2.
Proof. induction t1 as [|x t1 IH]; cbn [app balance]; lia. Qed.

Lemma balance_counts (t : list effect) :
  balance t = Z.of_nat (List.length (filter adds_line t)) - Z.of_nat (successes t).
Proof.
  unfold successes. induction t as [|x t IH]; [reflexivity|].
  cbn [balance filter]. unfold weight.
  destruct (adds_line x), (good_result x); cbn [List.length]; lia.
Qed.

Lemma updateStatusInfoBox_widgets (chalk : UI.chalk_lib) (m : UI.moment)
      (d : UI.dashboard) (c : UI.widgets) :
  UI.components d = Some c ->
  exists content,
    UI.updateStatusInfoBox chalk m d
    = UI.mkDashboard (Some (UI.mkWidgets (UI.mainLog c) (UI.successLog c) content))
                     (UI.statusUpdateInterval d) (UI.currentStatus d)
                     (UI.loadedTokenDetails d) (S (UI.renders d)) (UI.intervals d)
                     (UI.next_interval d).
Proof.
  intros Hc. unfold UI.updateStatusInfoBox. rewrite Hc. eexists. reflexivity.
Qed.

(** What one event adds to the Success Log of a dashboard whose widgets
    exist. *)
Lemma deliver_lines (chalk : UI.chalk_lib) (m : UI.moment) (e : event) (d : UI.dashboard) :
  UI.components d <> None ->
  UI.components (UI.deliver chalk m e d) <> None
  /\ lines (UI.deliver chalk m e d)
     = (lines d + (if adds_line (Emit e) then 1 else 0))%nat.
Proof.
  intros Hc. destruct (UI.components d) as [c|] eqn:Hd; [clear Hc | congruence].
  destruct e as [level message|n next st|i ok msg r dup]; cbn [UI.deliver adds_line].
  - unfold UI.handleLogEvent, lines. rewrite Hd.
    destruct (String.eqb_spec level "info") as [->|_];
      [cbn; split; [discriminate | lia]|].
    destruct (String.eqb_spec level "success") as [->|_].
    { cbn. destruct (UI.includes "Sign-in successful" message); cbn;
        (split; [discriminate | rewrite ?length_app; cbn; lia]). }
    destruct (String.eqb_spec level "warn") as [->|_].
    { cbn. destruct (UI.includes "Already checked in" message); cbn;
        (split; [discriminate | rewrite ?length_app; cbn; lia]). }
    destruct (String.eqb level "error"), (String.eqb level "wait"); cbn;
      (split; [discriminate | lia]).
  - unfold UI.handleStatusUpdate.
    destruct (updateStatusInfoBox_widgets chalk m
                (UI.set_currentStatus (UI.mkStatus n next st) d) c Hd) as [content ->].
    unfold lines. rewrite Hd.
    cbn [UI.statusUpdateInterval UI.currentStatus UI.components UI.set_currentStatus UI.botStatus].
    destruct (UI.statusUpdateInterval d), (UI.status_eqb st WAITING); cbn;
      (split; [discriminate | lia]).
  - unfold UI.handleCheckinResult, lines.
    destruct (UI.findIndex i (UI.loadedTokenDetails d)) as [k|];
      [|rewrite Hd; split; [discriminate | cbn; lia]].
    destruct (nth_error (UI.loadedTokenDetails d) k) as [t|];
      [|rewrite Hd; split; [discriminate | cbn; lia]].
    match goal with
    | |- context [UI.updateStatusInfoBox chalk m ?d1] =>
        destruct (updateStatusInfoBox_widgets chalk m d1 c Hd) as [content ->]
    end.
    rewrite Hd. cbn. split; [discriminate | lia].
Qed.

Lemma shown_lines (chalk : UI.chalk_lib) (moments : nat -> UI.moment) (t : list effect) :
  forall k d,
    UI.components d <> None ->
    UI.components (UIFacts.shown chalk moments k t d) <> None
    /\ lines (UIFacts.shown chalk moments k t d)
       = (lines d + List.length (filter adds_line t))%nat.
Proof.
  induction t as [|x t IH]; intros k d Hd.
  - split; [exact Hd | cbn; lia].
  - destruct x as [e|s|l v].
    + destruct (deliver_lines chalk (moments k) e d Hd) as [Hd1 Hl1].
      destruct (IH (S k) _ Hd1) as [Hd2 Hl2].
      cbn [UIFacts.shown]. split; [exact Hd2|].
      rewrite Hl2, Hl1. cbn [filter].
      destruct (adds_line (Emit e)); cbn [List.length]; lia.
    + exact (IH (S k) d Hd).
    + exact (IH (S k) d Hd).
Qed.

End SuccessLog.

Section SuccessLogFacts.

Variable jwt_decode : string -> completion jsval.
Variable StringToNumber : string -> option Z.
Variable JSON_stringify : jsval -> string.
Variable toLocaleString : Z -> string.

Import SuccessLog.

Local Arguments weight : simpl never.
Local Arguments account_prefix : simpl never.

(** A log event at a level other than [success] and [warn] adds no line. *)
Lemma weight_other (level message : string) :
  String.eqb level "success" = false -> String.eqb level "warn" = false ->
  weight (Emit (log level message)) = 0.
Proof. intros H1 H2. unfold weight. cbn [adds_line good_result]. now rewrite H1, H2. Qed.

(** A warning about an account that does not say "Already checked in". *)
Lemma weight_warning (i : nat) (rest : string) :
  Text.has_pair "A" "l" ("]" ++ rest) = false ->
  weight (Emit (log "warn" (account_prefix i ++ rest))) = 0.
Proof.
  intros Hrest. unfold weight. cbn [adds_line good_result String.eqb Ascii.eqb Bool.eqb andb orb].
  destruct (UI.includes "Already checked in" (account_prefix i ++ rest)) eqn:Hin;
    [|reflexivity].
  apply Text.includes_pair in Hin. unfold account_prefix in Hin.
  rewrite !LoaderFacts.append_assoc in Hin.
  cbn [append Text.has_pair Ascii.eqb Bool.eqb andb orb] in Hin.
  rewrite Text.has_pair_digits in Hin
    by (try reflexivity; apply Text.show_nat_digits).
  change ("]" ++ rest)%string with (String "]" rest) in Hrest. congruence.
Qed.

Lemma weight_success_line (i : nat) (rest : string) :
  weight (Emit (log "success" (account_prefix i ++ " ✅ Sign-in successful! Reward: " ++ rest)))
  = 1.
Proof.
  unfold weight. cbn [adds_line good_result String.eqb Ascii.eqb Bool.eqb andb orb].
  replace (account_prefix i ++ " ✅ Sign-in successful! Reward: " ++ rest)%string
    with ((account_prefix i ++ " ✅ ") ++ "Sign-in successful" ++ ("! Reward: " ++ rest))%string
    by (rewrite LoaderFacts.append_assoc; reflexivity).
  rewrite Text.includes_intro by discriminate. reflexivity.
Qed.

Lemma weight_already_line (i : nat) :
  weight (Emit (log "warn" (account_prefix i ++ " ⚠️ Already checked in today."))) = 1.
Proof.
  unfold weight. cbn [adds_line good_result String.eqb Ascii.eqb Bool.eqb andb orb].
  replace (account_prefix i ++ " ⚠️ Already checked in today.")%string
    with ((account_prefix i ++ " ⚠️ ") ++ "Already checked in" ++ " today.")%string
    by (rewrite LoaderFacts.append_assoc; reflexivity).
  rewrite Text.includes_intro by discriminate. reflexivity.
Qed.

Lemma stop_effects_balance (w : world) : balance (stop_effects w) = 0.
Proof. unfold stop_effects. destruct (checkIntervalId w); reflexivity. Qed.

Lemma meanwhile_balance (env : environment) (s : suspension) (w : world) :
  balance (meanwhile env s w) = 0.
Proof.
  unfold meanwhile. destruct (stop_requested env s); [apply stop_effects_balance | reflexivity].
Qed.

Lemma gate_balance (token : string) (i : nat) (w : world) :
  balance (effects (isTokenExpiredOrInvalid jwt_decode token i w)) = 0.
Proof.
  unfold isTokenExpiredOrInvalid.
  destruct (String.eqb token "").
  - cbn [effects snd bind emit perform ret app balance]. cbn.
    rewrite weight_warning by reflexivity. reflexivity.
  - unfold try_catch, bind at 1.
    destruct (jwt_decode token) as [decoded|e].
    + destruct (JS.truthy decoded); [destruct (JS.get decoded "exp")|];
        try (cbn; rewrite weight_warning by reflexivity; reflexivity).
      unfold bind, Date_now, gets; cbn.
      destruct (clock w >=? n * 1000); cbn;
        [rewrite weight_warning by reflexivity|]; reflexivity.
    + cbn. reflexivity.
Qed.

(** A sign-in writes one line that reaches the Success Log when it
    succeeds, none when it fails. *)
Lemma performSign_balance (env : environment) (token : string) (i : nat) (w : world) :
  exists r t,
    performSign StringToNumber JSON_stringify env token i w
    = (Normal r, resumed env (AxiosPost i token) w, t)
    /\ balance t = if success r then 1 else 0.
Proof.
  unfold performSign, try_catch, bind, emit, perform, ret.
  cbv beta iota zeta.
  rewrite axios_post_run.
  destruct (reply env i token) as [response|error]; cbv beta iota zeta.
  - repeat match goal with
           | |- context [if ?c then _ else _] => destruct c
           end;
      cbv beta iota zeta;
      (eexists _, _; split; [reflexivity|]);
      cbn [app success]; rewrite ?app_nil_r;
      cbn [balance]; rewrite !balance_app, meanwhile_balance; cbn [balance];
      rewrite ?weight_success_line, ?weight_already_line; reflexivity.
  - eexists _, _. split; [reflexivity|].
    cbn [app success]; rewrite ?app_nil_r;
      cbn [balance]; rewrite ?balance_app, meanwhile_balance; cbn [balance]; reflexivity.
Qed.

Lemma account_step_balance (env : environment) (token : string) (i : nat) (w : world) :
  balance (effects (account_step jwt_decode StringToNumber JSON_stringify env token i w)) = 0.
Proof.
  destruct (gate_run jwt_decode token i w) as (b & tg & Hgate & _).
  pose proof (gate_balance token i w) as Hquiet. rewrite Hgate in Hquiet.
  cbn [effects snd] in Hquiet.
  unfold account_step.
  erewrite bind_run by reflexivity.
  rewrite (bind_run _ _ _ _ _ _ Hgate).
  destruct b.
  - erewrite bind_run by reflexivity.
    erewrite bind_run by reflexivity.
    unfold delay. rewrite await_run.
    cbn [outcome final effects fst snd].
    rewrite !balance_app, Hquiet. cbn [balance].
    rewrite meanwhile_balance. reflexivity.
  - destruct (performSign_balance env token i w) as (r & ts & Hsign & Hts).
    rewrite (bind_run _ _ _ _ _ _ Hsign).
    erewrite bind_run by reflexivity.
    erewrite bind_run by reflexivity.
    cbv beta. rewrite resumed_tokens.
    destruct (Z.of_nat i <? Z.of_nat (List.length (loadedTokens w)) - 1).
    + erewrite bind_run by reflexivity.
      unfold delay. rewrite await_run.
      cbn [outcome final effects fst snd].
      rewrite !balance_app, Hquiet, Hts. cbn [balance].
      rewrite meanwhile_balance. destruct (success r); reflexivity.
    + cbn [outcome final effects fst snd ret].
      rewrite !balance_app, Hquiet, Hts. cbn [balance].
      destruct (success r); reflexivity.
Qed.

Lemma for_accounts_balance (env : environment) (tokens : list string) :
  forall (i : nat) (w : world),
    balance (effects (for_accounts jwt_decode StringToNumber JSON_stringify env tokens i w))
    = 0.
Proof.
  induction tokens as [|token rest IH]; intros i w; [reflexivity|].
  destruct (account_step_run jwt_decode StringToNumber JSON_stringify env token i w)
    as (b & w1 & t1 & _ & Hstep & _).
  pose proof (account_step_balance env token i w) as Hq. rewrite Hstep in Hq.
  cbn [effects snd] in Hq.
  cbn [for_accounts]. rewrite (bind_run _ _ _ _ _ _ Hstep).
  cbn [effects snd]. rewrite balance_app, Hq, IH. reflexivity.
Qed.

Lemma runCheckInCycle_balance (env : environment) (w : world) :
  balance (effects (runCheckInCycle jwt_decode StringToNumber JSON_stringify
                                    toLocaleString env w)) = 0.
Proof.
  unfold runCheckInCycle.
  rewrite (bind_run _ _ _ _ _ _ (updateBotStatus_run RUNNING w)).
  erewrite bind_run by reflexivity.
  erewrite bind_run by reflexivity.
  cbn [loadedTokens set_botStatus].
  destruct (List.length (loadedTokens w) =? 0)%nat.
  - erewrite bind_run by reflexivity.
    rewrite scheduleNextRun_run. cbn [outcome final effects fst snd].
    reflexivity.
  - erewrite bind_run by reflexivity.
    destruct (for_accounts_run jwt_decode StringToNumber JSON_stringify env
                               (loadedTokens w) 0 (set_botStatus RUNNING w))
      as (w1 & t1 & Hloop & _).
    pose proof (for_accounts_balance env (loadedTokens w) 0 (set_botStatus RUNNING w)) as Hq.
    rewrite Hloop in Hq. cbn [effects snd] in Hq.
    rewrite (bind_run _ _ _ _ _ _ Hloop).
    erewrite bind_run by reflexivity.
    rewrite scheduleNextRun_run. cbn [outcome final effects fst snd].
    rewrite !balance_app, Hq. reflexivity.
Qed.

(** X20. On a dashboard whose widgets exist, a whole cycle (whatever the
    replies, the durations and the stop requests during it) adds to the
    Success Log exactly one line for each account whose result has
    [success: true], and none for the others. *)
Theorem success_log_counts_successes
        (chalk : UI.chalk_lib) (moments : nat -> UI.moment) (k : nat) (d : UI.dashboard)
        (env : environment) (w : world) :
  UI.components d <> None ->
  let t := effects (runCheckInCycle jwt_decode StringToNumber JSON_stringify
                                    toLocaleString env w) in
  SuccessLog.lines (UIFacts.shown chalk moments k t d)
  = (SuccessLog.lines d + SuccessLog.successes t)%nat.
Proof.
  intros Hd t.
  destruct (shown_lines chalk moments t k d Hd) as [_ ->].
  pose proof (runCheckInCycle_balance env w) as Hq. fold t in Hq.
  rewrite balance_counts in Hq. lia.
Qed.

End SuccessLogFacts.

Module UIFacts4.

Lemma deliver_details (chalk : UI.chalk_lib) (m : UI.moment) (e : event) (d : UI.dashboard) :
  UI.loadedTokenDetails d = [] -> UI.loadedTokenDetails (UI.deliver chalk m e d) = [].
Proof.
  intros Hd. destruct e as [level message|n next st|i ok msg r dup]; cbn [UI.deliver].
  - unfold UI.handleLogEvent. destruct (UI.components d) as [c|]; [|exact Hd].
    destruct (if String.eqb level "info" then _ else _) as [line lines]. exact Hd.
  - unfold UI.handleStatusUpdate.
    destruct (UIFacts.updateStatusInfoBox_keeps chalk m
                (UI.set_currentStatus (UI.mkStatus n next st) d)) as (_ & _ & _ & _ & Hk).
    cbn [UI.loadedTokenDetails UI.set_currentStatus] in Hk.
    cbv zeta.
    destruct (UI.statusUpdateInterval _);
      destruct (UI.status_eqb _ _); cbn [negb UI.loadedTokenDetails]; congruence.
  - unfold UI.handleCheckinResult. rewrite Hd. exact Hd.
Qed.

End UIFacts4.

(** X21. No event the bot emits fills the token details of the dashboard:
    from a dashboard without details (as [ui.js] starts), they stay empty
    whatever events arrive, and a [checkinResult] changes nothing on the
    dashboard. *)
Theorem token_details_stay_empty
        (chalk : UI.chalk_lib) (moments : nat -> UI.moment) (t : list effect)
        (k : nat) (d : UI.dashboard) :
  UI.loadedTokenDetails d = [] ->
  UI.loadedTokenDetails (UIFacts.shown chalk moments k t d) = []
  /\ forall m i ok msg r dup,
      UI.deliver chalk m (checkinResult i ok msg r dup) d = d.
Proof.
  intros Hd. split.
  - revert k d Hd. induction t as [|x t IH]; intros k d Hd; [exact Hd|].
    destruct x as [e|s|l v]; cbn [UIFacts.shown]; apply IH;
      [now apply UIFacts4.deliver_details | exact Hd | exact Hd].
  - intros m i ok msg r dup. cbn [UI.deliver]. unfold UI.handleCheckinResult.
    now rewrite Hd.
Qed.

(** ** The countdown text *)

Module Countdown.

Local Open Scope string_scope.
Local Open Scope Z_scope.

(** The seconds a countdown text stands for, read back unit by unit:
    [digits] holds the digits met since the last letter, last one first. *)
Fixpoint read (s : string) (digits : Decimal.uint) (total : Z) : Z :=
  match s with
  | "" => total
  | String c r =>
      match uint_of_char c (Some digits) with
      | Some digits' => read r digits' total
      | None =>
          let n := Z.of_uint (Decimal.rev digits) in
          if Ascii.eqb c "h" then read r Decimal.Nil (total + 3600 * n)
          else if Ascii.eqb c "m" then read r Decimal.Nil (total + 60 * n)
          else if Ascii.eqb c "s" then read r Decimal.Nil (total + n)
          else read r Decimal.Nil total
      end
  end.

Lemma read_digits (rest : string) (total : Z) :
  forall d acc,
    read (NilEmpty.string_of_uint d ++ rest) acc total
    = read rest (Decimal.revapp d acc) total.
Proof. induction d; intros acc; cbn [NilEmpty.string_of_uint append]; auto; apply IHd. Qed.

Lemma read_uint (d : Decimal.uint) (rest : string) (total : Z) :
  read (NilZero.string_of_uint d ++ rest) Decimal.Nil total
  = read rest (Decimal.rev (match d with Decimal.Nil => Decimal.D0 Decimal.Nil | _ => d end))
         total.
Proof. destruct d; try reflexivity; apply (read_digits rest total (_ d)). Qed.

(** A number of hours, minutes or seconds followed by its letter. *)
Lemma read_part (v : Z) (c : ascii) (rest : string) (total : Z) :
  0 <= v -> Text.digit c = false ->
  read (JS.show_Z v ++ String c rest) Decimal.Nil total
  = if Ascii.eqb c "h" then read rest Decimal.Nil (total + 3600 * v)
    else if Ascii.eqb c "m" then read rest Decimal.Nil (total + 60 * v)
    else if Ascii.eqb c "s" then read rest Decimal.Nil (total + v)
    else read rest Decimal.Nil total.
Proof.
  intros Hv Hc. unfold JS.show_Z.
  pose proof (DecimalZ.of_to v) as Hback.
  destruct (Z.to_int v) as [d|d] eqn:Hd.
  - cbn [NilZero.string_of_int Z.of_int] in *. rewrite read_uint.
    cbn [read].
    replace (uint_of_char c (Some _)) with (@None Decimal.uint).
    + rewrite DecimalFacts.rev_rev.
      replace (Z.of_uint match d with Decimal.Nil => Decimal.D0 Decimal.Nil | _ => d end)
        with v by (rewrite <- Hback; now destruct d).
      reflexivity.
    + unfold Text.digit in Hc. clear - Hc.
      destruct c as [[|] [|] [|] [|] [|] [|] [|] [|]]; (reflexivity || discriminate).
  - destruct v; cbn in Hd; try discriminate. lia.
Qed.

Lemma split_seconds (n : Z) :
  0 <= n ->
  0 <= n / 3600 /\ 0 <= (n mod 3600) / 60 /\ 0 <= n mod 60
  /\ n = 3600 * (n / 3600) + 60 * ((n mod 3600) / 60) + n mod 60.
Proof.
  intros Hn.
  assert (Hmod : (n mod 3600) mod 60 = n mod 60)
    by (apply Z.mod_mod_divide; exists 60; reflexivity).
  pose proof (Z.div_mod n 3600 ltac:(lia)).
  pose proof (Z.div_mod (n mod 3600) 60 ltac:(lia)).
  pose proof (Z.mod_pos_bound n 3600 ltac:(lia)).
  pose proof (Z.mod_pos_bound n 60 ltac:(lia)).
  pose proof (Z.div_pos n 3600 Hn ltac:(lia)).
  pose proof (Z.div_pos (n mod 3600) 60 ltac:(lia) ltac:(lia)).
  lia.
Qed.

(** The countdown text of a time reads back as that time. *)
Lemma read_formatRemainingTime (n : Z) :
  read (UI.formatRemainingTime n) Decimal.Nil 0 = Z.max 0 n.
Proof.
  unfold UI.formatRemainingTime.
  destruct (n <=? 0) eqn:Hn; [apply Z.leb_le in Hn; cbn; lia|].
  apply Z.leb_gt in Hn.
  destruct (split_seconds n ltac:(lia)) as (Hh & Hm & Hs & Hsum).
  cbv zeta.
  destruct (0 <? n / 3600) eqn:H1; destruct (0 <? (n mod 3600) / 60) eqn:H2;
    destruct (0 <? n mod 60) eqn:H3;
    cbn [app orb List.length Nat.eqb JS.join];
    rewrite ?LoaderFacts.append_assoc;
    cbn [append];
    repeat (rewrite read_part by (assumption || reflexivity);
            cbn [Ascii.eqb Bool.eqb read uint_of_char]);
    rewrite ?Z.ltb_lt, ?Z.ltb_ge in *; lia.
Qed.

End Countdown.

(** X22. The countdown text tells the remaining time: two times have the
    same text only when they are equal, or when neither is positive
    (both show as ["Now"]). *)
Theorem formatRemainingTime_injective (a b : Z) :
  UI.formatRemainingTime a = UI.formatRemainingTime b -> Z.max 0 a = Z.max 0 b.
Proof.
  intros H.
  rewrite <- (Countdown.read_formatRemainingTime a), <- (Countdown.read_formatRemainingTime b).
  now rewrite H.
Qed.

(** ** The Main Log pane and the timestamps *)

Module MainLog.

Local Open Scope string_scope.

(** The number of lines in the Main Log. *)
Definition lines (d : UI.dashboard) : nat :=
  match UI.components d with
  | Some c => List.length (UI.mainLog c)
  | None => 0
  end.

Definition logs (t : list effect) : nat := List.length (filter UIFacts2.is_log_emit t).

Lemma deliver_main_line (chalk : UI.chalk_lib) (m : UI.moment) (e : event) (d : UI.dashboard) :
  UI.components d <> None ->
  UI.components (UI.deliver chalk m e d) <> None
  /\ lines (UI.deliver chalk m e d)
     = (lines d + (if UIFacts2.is_log_emit (Emit e) then 1 else 0))%nat.
Proof.
  intros Hc. destruct (UI.components d) as [c|] eqn:Hd; [clear Hc | congruence].
  destruct e as [level message|n next st|i ok msg r dup];
    cbn [UI.deliver UIFacts2.is_log_emit].
  - unfold UI.handleLogEvent, lines. rewrite Hd.
    destruct (if String.eqb level "info" then _ else _) as [line success_lines].
    cbn [UI.components UI.set_components UI.mainLog].
    split; [discriminate | rewrite length_app; reflexivity].
  - unfold UI.handleStatusUpdate.
    destruct (SuccessLog.updateStatusInfoBox_widgets chalk m
                (UI.set_currentStatus (UI.mkStatus n next st) d) c Hd) as [content ->].
    unfold lines. rewrite Hd.
    cbn [UI.statusUpdateInterval UI.currentStatus UI.components UI.set_currentStatus
         UI.botStatus].
    destruct (UI.statusUpdateInterval d), (UI.status_eqb st WAITING); cbn;
      (split; [discriminate | lia]).
  - unfold UI.handleCheckinResult, lines.
    destruct (UI.findIndex i (UI.loadedTokenDetails d)) as [k|];
      [|rewrite Hd; split; [discriminate | cbn; lia]].
    destruct (nth_error (UI.loadedTokenDetails d) k) as [t|];
      [|rewrite Hd; split; [discriminate | cbn; lia]].
    match goal with
    | |- context [UI.updateStatusInfoBox chalk m ?d1] =>
        destruct (SuccessLog.updateStatusInfoBox_widgets chalk m d1 c Hd) as [content ->]
    end.
    rewrite Hd. cbn. split; [discriminate | lia].
Qed.

Lemma shown_main_lines (chalk : UI.chalk_lib) (moments : nat -> UI.moment) (t : list effect) :
  forall k d,
    UI.components d <> None ->
    lines (UIFacts.shown chalk moments k t d) = (lines d + logs t)%nat.
Proof.
  unfold logs. induction t as [|x t IH]; intros k d Hd.
  - cbn. lia.
  - destruct x as [e|s|l v].
    + destruct (deliver_main_line chalk (moments k) e d Hd) as [Hd1 Hl1].
      cbn [UIFacts.shown]. rewrite (IH (S k) _ Hd1), Hl1. cbn [filter].
      destruct (UIFacts2.is_log_emit (Emit e)); cbn [List.length]; lia.
    + exact (IH (S k) d Hd).
    + exact (IH (S k) d Hd).
Qed.

Lemma initializeUI_ready (chalk : UI.chalk_lib) (m1 m2 : UI.moment) (d : UI.dashboard) :
  UI.components (UI.initializeUI chalk m1 m2 d) <> None
  /\ lines (UI.initializeUI chalk m1 m2 d) = 1%nat
  /\ SuccessLog.lines (UI.initializeUI chalk m1 m2 d) = 0%nat.
Proof.
  unfold UI.initializeUI, lines, SuccessLog.lines. cbv zeta.
  match goal with
  | |- context [UI.updateStatusInfoBox chalk m2 ?d1] =>
      assert (Hc : exists c, UI.components d1 = Some c
                             /\ List.length (UI.mainLog c) = 1%nat
                             /\ List.length (UI.successLog c) = 0%nat)
        by (eexists; split; [reflexivity | split; reflexivity]);
      destruct Hc as (c & Hc & Hmain & Hsuccess);
      destruct (SuccessLog.updateStatusInfoBox_widgets chalk m2 d1 c Hc) as [content ->]
  end.
  cbn [UI.components UI.mainLog UI.successLog].
  repeat split; [discriminate | exact Hmain | exact Hsuccess].
Qed.

Lemma pad2 (n : nat) :
  (n < 100)%nat -> String.length (UI.padStart 2 "0" (JS.show_nat n)) = 2%nat.
Proof.
  intros Hn. do 100 (destruct n as [|n]; [reflexivity|]). lia.
Qed.

End MainLog.

(** X23. Once [initializeUI] has run, no log line is lost: the Main Log
    holds its own first line and one line for every log event that has
    arrived since, whatever other events came in between. *)
Theorem main_log_shows_every_log
        (chalk : UI.chalk_lib) (moments : nat -> UI.moment) (t : list effect) (k : nat)
        (m1 m2 : UI.moment) (d : UI.dashboard) :
  MainLog.lines (UIFacts.shown chalk moments k t (UI.initializeUI chalk m1 m2 d))
  = (1 + MainLog.logs t)%nat.
Proof.
  destruct (MainLog.initializeUI_ready chalk m1 m2 d) as (Hready & Hone & _).
  rewrite (MainLog.shown_main_lines chalk moments t k _ Hready), Hone. reflexivity.
Qed.

(** X24. At every time of day a timestamp is ten units long,
    ["[HH:MM:SS]"]: the lines of the panes stay aligned. *)
Theorem getTimestamp_width (m : UI.moment) :
  (UI.getHours m < 24)%nat -> (UI.getMinutes m < 60)%nat -> (UI.getSeconds m < 60)%nat ->
  String.length (UI.getTimestamp m) = 10%nat.
Proof.
  intros Hh Hm Hs. unfold UI.getTimestamp. cbv zeta.
  repeat (cbn [append String.length]; rewrite ?length_append).
  rewrite !MainLog.pad2 by lia. reflexivity.
Qed.

(** ** The token details *)

Module Details.

Definition before (a b : UI.tokenData) : Prop := (UI.index a < UI.index b)%nat.

Lemma findIndex_none (i : nat) (details : list UI.tokenData) :
  UI.findIndex i details = None -> forall u, In u details -> UI.index u <> i.
Proof.
  induction details as [|v rest IH]; cbn [UI.findIndex In]; [now intros _ u []|].
  destruct (Nat.eqb_spec (UI.index v) i) as [|Hv]; [discriminate|].
  destruct (UI.findIndex i rest); [discriminate|].
  intros _ u [<-|Hu]; [exact Hv | now apply IH].
Qed.

Lemma findIndex_split (i : nat) (t : UI.tokenData) (details : list UI.tokenData) :
  forall k,
    UI.findIndex i details = Some k ->
    exists l1 u l2,
      details = l1 ++ u :: l2 /\ UI.index u = i /\ UI.assign k t details = l1 ++ t :: l2.
Proof.
  induction details as [|v rest IH]; intros k; cbn [UI.findIndex]; [discriminate|].
  destruct (Nat.eqb_spec (UI.index v) i) as [Hv|_].
  - intros [= <-]. now exists [], v, rest.
  - destruct (UI.findIndex i rest) as [k'|]; [|discriminate].
    intros [= <-]. destruct (IH k' eq_refl) as (l1 & u & l2 & -> & Hu & Hassign).
    exists (v :: l1), u, l2. cbn [UI.assign app]. now rewrite Hassign.
Qed.

(** The details after the update or the push of [handleTokenStatus]. *)
Lemma upsert (t : UI.tokenData) (details : list UI.tokenData) :
  NoDup (map UI.index details) ->
  let details' :=
    match UI.findIndex (UI.index t) details with
    | Some existingIndex => UI.assign existingIndex t details
    | None => details ++ [t]
    end in
  NoDup (map UI.index details')
  /\ forall u, In u details' <-> u = t \/ (In u details /\ UI.index u <> UI.index t).
Proof.
  intros Hnodup. cbv zeta.
  destruct (UI.findIndex (UI.index t) details) as [k|] eqn:Hfind.
  - destruct (findIndex_split (UI.index t) t details k Hfind)
      as (l1 & v & l2 & -> & Hv & ->).
    rewrite map_app in *. cbn [map] in *. rewrite Hv in Hnodup. split; [exact Hnodup|].
    pose proof (NoDup_remove_2 _ _ _ Hnodup) as Hfresh.
    assert (Hother : forall u, In u (l1 ++ l2) -> UI.index u <> UI.index t).
    { intros u Hu Heq. apply Hfresh. rewrite <- Heq, <- map_app. now apply in_map. }
    intros u. rewrite !in_app_iff. cbn [In]. split.
    + intros [Hu|[<-|Hu]]; [right | now left | right];
        (split; [tauto | apply Hother; rewrite in_app_iff; tauto]).
    + intros [->|[[Hu|[<-|Hu]] Hne]]; tauto.
  - pose proof (findIndex_none _ _ Hfind) as Hother.
    split.
    + rewrite map_app. cbn [map]. apply NoDup_app; [exact Hnodup | repeat constructor; easy |].
      intros i Hi [<-|[]]. apply in_map_iff in Hi. destruct Hi as (u & Hu & Hin).
      now apply (Hother u Hin).
    + intros u. rewrite in_app_iff. cbn [In]. split.
      * intros [Hu|[<-|[]]]; [right; split; [exact Hu | now apply Hother] | now left].
      * intros [->|[Hu _]]; tauto.
Qed.

Lemma insert_sorted_strict (t : UI.tokenData) (sorted : list UI.tokenData) :
  Sorted.StronglySorted before sorted ->
  (forall u, In u sorted -> UI.index u <> UI.index t) ->
  Sorted.StronglySorted before (UI.insert_sorted t sorted)
  /\ forall v, In v (UI.insert_sorted t sorted) <-> v = t \/ In v sorted.
Proof.
  induction sorted as [|u rest IH]; intros Hsorted Hfresh; cbn [UI.insert_sorted].
  - split; [repeat constructor | intros v; cbn [In]; intuition congruence].
  - apply Sorted.StronglySorted_inv in Hsorted. destruct Hsorted as [Hrest Hu].
    assert (Hne : UI.index u <> UI.index t) by (apply Hfresh; now left).
    destruct (Nat.leb_spec (UI.index t) (UI.index u)) as [Hle|Hlt].
    + split; [|intros v; cbn [In]; intuition congruence].
      constructor; [now constructor|].
      constructor; [unfold before; lia|].
      rewrite Forall_forall in *. intros v Hv. specialize (Hu v Hv). unfold before in *. lia.
    + destruct (IH Hrest (fun v Hv => Hfresh v (or_intror Hv))) as [Hs Hin].
      split.
      * constructor; [exact Hs|]. rewrite Forall_forall in *. intros v Hv.
        apply Hin in Hv. destruct Hv as [->|Hv]; [exact Hlt | now apply Hu].
      * intros v. cbn [In]. rewrite Hin. tauto.
Qed.

Lemma sort_strict (details : list UI.tokenData) :
  NoDup (map UI.index details) ->
  Sorted.StronglySorted before (UI.sort_by_index details)
  /\ forall v, In v (UI.sort_by_index details) <-> In v details.
Proof.
  induction details as [|t rest IH]; intros Hnodup; cbn [UI.sort_by_index].
  - split; [constructor | tauto].
  - cbn [map] in Hnodup. apply NoDup_cons_iff in Hnodup. destruct Hnodup as [Hfresh Hnodup].
    destruct (IH Hnodup) as [Hs Hin].
    destruct (insert_sorted_strict t (UI.sort_by_index rest) Hs) as [Hs' Hin'].
    + intros u Hu Heq. apply Hfresh. rewrite <- Heq. apply in_map. now apply Hin.
    + split; [exact Hs'|]. intros v. rewrite Hin', Hin. cbn [In]. intuition congruence.
Qed.

End Details.

(** X25. [handleTokenStatus] keeps one detail per account, in the order
    of the accounts: on details with distinct indices it leaves them
    strictly ascending by index, holding the new detail and, of the old
    ones, exactly those of the other accounts. *)
Theorem handleTokenStatus_upsert
        (chalk : UI.chalk_lib) (m : UI.moment) (t : UI.tokenData) (d : UI.dashboard) :
  NoDup (map UI.index (UI.loadedTokenDetails d)) ->
  let details' := UI.loadedTokenDetails (UI.handleTokenStatus chalk m t d) in
  Sorted.StronglySorted Details.before details'
  /\ forall u, In u details'
               <-> u = t \/ (In u (UI.loadedTokenDetails d) /\ UI.index u <> UI.index t).
Proof.
  intros Hnodup. cbv zeta. unfold UI.handleTokenStatus.
  match goal with
  | |- context [UI.updateStatusInfoBox chalk m ?d1] =>
      destruct (UIFacts.updateStatusInfoBox_keeps chalk m d1) as (_ & _ & _ & _ & ->)
  end.
  cbn [UI.loadedTokenDetails UI.set_loadedTokenDetails].
  destruct (Details.upsert t (UI.loadedTokenDetails d) Hnodup) as [Hnodup' Hin].
  destruct (Details.sort_strict _ Hnodup') as [Hs Hin'].
  split; [exact Hs|]. intros u. now rewrite Hin', Hin.
Qed.

(* ================================================================== *)
(** * The properties above on concrete inputs *)
(* ================================================================== *)

Module Fixture.

(** A chalk that colours nothing. *)
Definition plain : UI.chalk_lib :=
  UI.mkChalk (fun s => s) (fun s => s) (fun s => s) (fun s => s)
             (fun s => s) (fun s => s) (fun s => s) (fun s => s).

(** 09:05:00, at second 1000 of the clock. *)
Definition morning : UI.moment := UI.mkMoment 1000000 9%nat 5%nat 0%nat.

(** No wallet file on the disk. *)
Definition no_file : Loader.wallet_file := Loader.mkWallet false (Normal "").

(** A wallet file with a comment and two keys, the lines ended by CR LF. *)
Definition two_keys : Loader.wallet_file :=
  Loader.mkWallet true
    (Normal (JS.join LoaderFacts.crlf ["# my accounts"; "fresh"; "stale"])).

(** Every POST fails for want of an answer. *)
Definition timeout : exn :=
  [("message", VStr "timeout of 15000ms exceeded"); ("request", VObj [])].

Definition offline : environment :=
  mkEnv (fun _ _ => Rejected timeout) (fun _ => 15000) (fun _ => false).



(** Every POST is answered with the code 200 and nothing else. *)
Definition bare_reply : list (string * jsval) := [("data", VObj [("code", VNum 200)])].

Definition bare : environment :=
  mkEnv (fun _ _ => Resolved bare_reply) (fun _ => 3000) (fun _ => false).

(** The bot after [startBot] on the wallet of two keys, from the module
    just loaded. *)
Definition started : world :=
  Bfinal (startBot Sample.decode Sample.string_to_number Sample.stringify
                   Sample.locale_string "wallet.txt" Sample.calm two_keys
                   (loaded_module 1000000 0%nat)).

(** A dashboard that lists two accounts. *)
Definition listing : UI.dashboard :=
  UI.set_loadedTokenDetails
    [UI.mkToken 0%nat "eyJ...AbCd" "Valid"; UI.mkToken 2%nat "eyJ...WxYz" "Valid"]
    (UI.initializeUI plain morning morning (UI.initial 0%nat)).

Definition steady (k : nat) : UI.moment := morning.

Lemma clean_fresh : LoaderFacts.clean "fresh".
Proof.
  split; [discriminate|].
  split; [intros c [= <-]; split; [reflexivity | discriminate]|].
  split; [intros c [= <-]; reflexivity | reflexivity].
Qed.

Lemma clean_stale : LoaderFacts.clean "stale".
Proof.
  split; [discriminate|].
  split; [intros c [= <-]; split; [reflexivity | discriminate]|].
  split; [intros c [= <-]; reflexivity | reflexivity].
Qed.

End Fixture.

(** X2, with no wallet file on the disk. *)
Lemma loadApiKeys_failure_is_empty_no_file :
  exists line message,
    Loader.loadApiKeys "wallet.txt" Fixture.no_file (Sample.loaded [])
    = (Normal [], Sample.loaded [], [Stdout line; Bot (Emit (log "error" message))]).
Proof.
  apply loadApiKeys_failure_is_empty. left. reflexivity.
Defined.

(** X3, on two keys and CR LF. *)
Lemma loadApiKeys_round_trip_crlf :
  Boutcome (Loader.loadApiKeys "wallet.txt"
              (Loader.mkWallet true (Normal (JS.join LoaderFacts.crlf ["fresh"; "stale"])))
              (Sample.loaded []))
  = Normal ["fresh"; "stale"].
Proof.
  apply loadApiKeys_round_trip.
  - right. reflexivity.
  - constructor; [apply Fixture.clean_fresh|].
    constructor; [apply Fixture.clean_stale | constructor].
Defined.

(** X5, on a comment between two keys. *)
Lemma loadApiKeys_ignores_comment_lines_between :
  Boutcome (Loader.loadApiKeys "wallet.txt"
              (Loader.mkWallet true
                 (Normal ("fresh" ++ String Loader.LF
                            ("# the second account" ++ String Loader.LF "stale"))%string))
              (Sample.loaded []))
  = Boutcome (Loader.loadApiKeys "wallet.txt"
                (Loader.mkWallet true (Normal ("fresh" ++ String Loader.LF "stale")%string))
                (Sample.loaded [])).
Proof.
  apply loadApiKeys_ignores_comment_lines; reflexivity.
Defined.

(** X7, on a POST that times out. *)
Lemma performSign_transport_failure_timeout :
  outcome (performSign Sample.string_to_number Sample.stringify Fixture.offline
                       "fresh" 0 (Sample.loaded ["fresh"]))
  = Normal (mkResult false "Request Error: timeout of 15000ms exceeded" (VNum 0) false).
Proof.
  refine (proj1 (performSign_transport_failure
                   Sample.string_to_number Sample.stringify Fixture.offline
                   "fresh" 0 (Sample.loaded ["fresh"]) Fixture.timeout _)).
  reflexivity.
Defined.


(** X9, on a reply with the code 200 and nothing else. *)
Lemma performSign_missing_reward_bare :
  outcome (performSign Sample.string_to_number Sample.stringify Fixture.bare
                       "fresh" 0 (Sample.loaded ["fresh"]))
  = Normal (mkResult true "Already checked in" (VNum 0) true).
Proof.
  refine (performSign_missing_reward
            Sample.string_to_number Sample.stringify Fixture.bare
            "fresh" 0 (Sample.loaded ["fresh"]) Fixture.bare_reply
            (VObj [("code", VNum 200)]) _ _ _ _).
  - reflexivity.
  - reflexivity.
  - reflexivity.
  - reflexivity.
Defined.

(** X10, on the token that expires at second 1000: unusable at second
    1000, and at second 5000. *)
Lemma gate_verdict_is_final_stale :
  outcome (isTokenExpiredOrInvalid Sample.decode "stale" 1
             (set_clock 5000000 (Sample.loaded ["stale"])))
  = Normal true.
Proof.
  refine (gate_verdict_is_final Sample.decode "stale" 0 1 (Sample.loaded ["stale"])
            (set_clock 5000000 (Sample.loaded ["stale"])) _ _).
  - cbn. lia.
  - reflexivity.
Defined.

(** X13, on the bot after [startBot] on a wallet of two keys. *)
Lemma at_most_one_timer_started :
  (List.length (timers Fixture.started) <= 1)%nat
  /\ (forall t, In t (timers Fixture.started) -> checkIntervalId Fixture.started = Some t).
Proof.
  apply (at_most_one_timer Sample.decode Sample.string_to_number Sample.stringify
           Sample.locale_string "wallet.txt").
  apply reach_start. apply reach_loaded.
Defined.

(** X14, on the same state: a timer is armed in it, none after [stopBot]. *)
Lemma stopBot_cancels_the_next_cycle_started :
  timers Fixture.started = [0%nat]
  /\ timers (final (stopBot Fixture.started)) = []
  /\ forall env t,
      timer_fires Sample.decode Sample.string_to_number Sample.stringify
                  Sample.locale_string env t (final (stopBot Fixture.started))
      = (Normal tt, final (stopBot Fixture.started), []).
Proof.
  split; [reflexivity|].
  apply (stopBot_cancels_the_next_cycle Sample.decode Sample.string_to_number
           Sample.stringify Sample.locale_string "wallet.txt").
  apply reach_start. apply reach_loaded.
Defined.

(** X15, with no wallet file on the disk. *)
Lemma startBot_without_keys_no_file :
  let run := startBot Sample.decode Sample.string_to_number Sample.stringify
                      Sample.locale_string "wallet.txt" Sample.calm Fixture.no_file
                      (loaded_module 1000000 0%nat) in
  Boutcome run = Normal tt
  /\ visible (bot_effects (Beffects run))
     = [Emit (statusUpdate 0 (Some (1000000 + CHECK_INTERVAL_MS)) WAITING)]
  /\ loadedTokens (Bfinal run) = []
  /\ botStatus (Bfinal run) = WAITING
  /\ nextRunTimestamp (Bfinal run) = Some (1000000 + CHECK_INTERVAL_MS)
  /\ exists t, checkIntervalId (Bfinal run) = Some t /\ In t (timers (Bfinal run)).
Proof.
  apply (startBot_without_keys Sample.decode Sample.string_to_number Sample.stringify
           Sample.locale_string "wallet.txt" Sample.calm Fixture.no_file
           (loaded_module 1000000 0%nat)).
  reflexivity.
Defined.

(** X17, on the first [WAITING] update a fresh dashboard receives. *)
Lemma handleStatusUpdate_interval_first :
  let d' := UI.handleStatusUpdate Fixture.plain Fixture.morning
                                  (UI.mkStatus 2 (Some 87400000) WAITING)
                                  (UI.initial 0%nat) in
  UI.currentStatus d' = UI.mkStatus 2 (Some 87400000) WAITING
  /\ (UI.statusUpdateInterval d' <> None <-> WAITING = WAITING)
  /\ (List.length (UI.intervals d') <= 1)%nat
  /\ UIFacts.armed_as_recorded d'.
Proof.
  apply (handleStatusUpdate_interval Fixture.plain Fixture.morning
           (UI.mkStatus 2 (Some 87400000) WAITING) (UI.initial 0%nat)).
  reflexivity.
Defined.

(** X19, on a dashboard that lists the accounts 1 and 3: the result of a
    skipped token for account 3. *)
Lemma dashboard_result_status_listing :
  option_map UI.status_
    (nth_error (UI.loadedTokenDetails
                  (UI.deliver Fixture.plain Fixture.morning
                     (checkinResult 2 false "Token Expired/Invalid" (VNum 0) false)
                     Fixture.listing)) 1)
  = Some "Expired 🚨"%string.
Proof.
  refine (proj1 (dashboard_result_status
                   Sample.string_to_number Sample.stringify
                   Fixture.plain Fixture.morning Fixture.listing 1
                   Sample.calm "fresh" 2 (Sample.loaded ["fresh"]) _)).
  reflexivity.
Defined.

(** X20, on a cycle over a fresh and a stale token: one success, one line. *)
Lemma success_log_counts_successes_cycle :
  let t := effects (Sample.cycle Sample.calm (Sample.loaded ["fresh"; "stale"])) in
  SuccessLog.lines (UIFacts.shown Fixture.plain Fixture.steady 0 t Fixture.listing)
  = (SuccessLog.lines Fixture.listing + SuccessLog.successes t)%nat.
Proof.
  apply (success_log_counts_successes
           Sample.decode Sample.string_to_number Sample.stringify Sample.locale_string
           Fixture.plain Fixture.steady 0 Fixture.listing Sample.calm
           (Sample.loaded ["fresh"; "stale"])).
  vm_compute. discriminate.
Defined.

(** X21, on the events of a cycle reaching a fresh dashboard. *)
Lemma token_details_stay_empty_cycle :
  let t := effects (Sample.cycle Sample.calm (Sample.loaded ["fresh"; "stale"])) in
  let d := UI.initializeUI Fixture.plain Fixture.morning Fixture.morning (UI.initial 0%nat) in
  UI.loadedTokenDetails (UIFacts.shown Fixture.plain Fixture.steady 0 t d) = []
  /\ forall m i ok msg r dup,
      UI.deliver Fixture.plain m (checkinResult i ok msg r dup) d = d.
Proof.
  apply (token_details_stay_empty Fixture.plain Fixture.steady).
  reflexivity.
Defined.

(** X22, on two times that are not ahead: both show as ["Now"]. *)
Lemma formatRemainingTime_injective_now :
  UI.formatRemainingTime 0 = UI.formatRemainingTime (-5)
  /\ Z.max 0 0 = Z.max 0 (-5).
Proof.
  split; [reflexivity|].
  apply formatRemainingTime_injective. reflexivity.
Defined.

(** X24, at 09:05:00. *)
Lemma getTimestamp_width_morning :
  UI.getTimestamp Fixture.morning = "[09:05:00]"%string
  /\ String.length (UI.getTimestamp Fixture.morning) = 10%nat.
Proof.
  split; [reflexivity|].
  apply getTimestamp_width; cbn; lia.
Defined.

(** X25, on a detail for account 2 arriving after those of 1 and 3. *)
Lemma handleTokenStatus_upsert_listing :
  let t := UI.mkToken 1 "eyJ...MnOp" "Valid" in
  let details' :=
    UI.loadedTokenDetails
      (UI.handleTokenStatus Fixture.plain Fixture.morning t Fixture.listing) in
  Sorted.StronglySorted Details.before details'
  /\ forall u, In u details'
               <-> u = t \/ (In u (UI.loadedTokenDetails Fixture.listing)
                             /\ UI.index u <> UI.index t).
Proof.
  apply (handleTokenStatus_upsert Fixture.plain Fixture.morning
           (UI.mkToken 1 "eyJ...MnOp" "Valid") Fixture.listing).
  vm_compute. repeat constructor; cbn; intuition lia.
Defined.
